(** * Symbolic planning core of the emergency-response system

    A shallow embedding of [module3_planning] (domain builder, relaxed
    GraphPlan, linear-plan extraction, partial-order plan) together with the
    parts of [common] it reads, and the properties stated for it.

    Conventions of the embedding:
    - a proposition is a Python [str]; a [Set[Proposition]] is a [gset string];
    - a [ValueError]/[IndexError] raised by the code is an [Err] result;
    - Python iterates a [set] in an order that the language leaves
      unspecified (for strings it changes with the hash seed).  Every loop
      [for x in some_set] is therefore modelled over [set_iter some_set],
      where [set_iter] is a parameter that lists the elements of a set in
      some order ([valid_set_iter]);
    - a [dict] is an association list in insertion order, because
      [for k in dict] follows it. *)

From stdpp Require Import gmap strings list sets relations.

Open Scope string_scope.
Open Scope list_scope.
Open Scope nat_scope.

(* ================================================================== *)
(** * Part I: the program *)
(* ================================================================== *)

(** ** Exceptions and fallible computations *)

Inductive error : Type :=
| NotFound (obj_id : string)       (* ValueError(f"Object with id {obj_id} not found") *)
| PlanNotFound                     (* ValueError("Goals not reachable within max_levels ...") *)
| ActionNotFound (prefix : string) (* ValueError(f"Domain action with prefix '{prefix}' not found") *)
| IndexError.                      (* list index out of range *)

Inductive result (A : Type) : Type :=
| Ok (a : A)
| Err (e : error).
Arguments Ok {A} a.
Arguments Err {A} e.

#[global] Instance result_ret : MRet result := λ A a, Ok a.
#[global] Instance result_bind : MBind result := λ A B k m,
  match m with
  | Ok a => k a
  | Err e => Err e
  end.

#[global] Instance error_eq_dec : EqDecision error.
Proof. solve_decision. Defined.

#[global] Instance result_eq_dec {A} `{EqDecision A} : EqDecision (result A).
Proof. solve_decision. Defined.

Definition is_ok {A} (r : result A) : Prop :=
  match r with Ok _ => True | Err _ => False end.

(** [xs[i]] for a non-negative [i]. *)
Definition index {A} (xs : list A) (i : nat) : result A :=
  match xs !! i with
  | Some x => Ok x
  | None => Err IndexError
  end.

(** [xs[-1]]. *)
Definition index_last {A} (xs : list A) : result A :=
  match last xs with
  | Some x => Ok x
  | None => Err IndexError
  end.

(** A [for x in xs: st = body(st, x)] loop whose body may raise. *)
Fixpoint for_each {S X} (body : S → X → result S) (st : S) (xs : list X) : result S :=
  match xs with
  | [] => Ok st
  | x :: xs' => st' ← body st x; for_each body st' xs'
  end.

(** ** Iteration order of Python sets *)

Abbreviation Proposition := string (only parsing).
Abbreviation PropSet := (gset string) (only parsing).

Definition valid_set_iter (set_iter : PropSet → list Proposition) : Prop :=
  ∀ s, set_iter s ≡ₚ elements s.

(** Two concrete orders, used to run the code. *)
Definition iter_sorted : PropSet → list Proposition := elements.
Definition iter_reversed : PropSet → list Proposition := λ s, reverse (elements s).

(** ** common/constants.py *)

Module Constants.

Inductive HospitalCTStatus : Type := AVAILABLE | OFFLINE.

#[global] Instance HospitalCTStatus_eq_dec : EqDecision HospitalCTStatus.
Proof. solve_decision. Defined.

End Constants.

(** ** common/entities.py

    Only the fields that [scenario.py] sets with values of type [str],
    [bool] or [int] are kept; the planner reads [id], [node],
    [current_node] and [ct_status]. *)

Module Hospital.
Record t : Type := mk {
  id : string;
  name : string;
  node : string;
  is_trauma_center : bool;
  ct_status : Constants.HospitalCTStatus;
  capacity_beds : Z;
  current_load : Z;
}.
End Hospital.

Module Ambulance.
Record t : Type := mk {
  id : string;
  current_node : string;
  is_available : bool;
}.
End Ambulance.

Module Accident.
Record t : Type := mk {
  id : string;
  location_node : string;
  description : string;
  caller_urgency : option string;
}.
End Accident.

(** ** common/scenario.py *)

Module Scenario.

(** The keys of the scenario dict that the planner reads. *)
Record t : Type := mk {
  hospitals : list Hospital.t;
  ambulances : list Ambulance.t;
  accidents : list Accident.t;
}.

Definition create_base_scenario : t :=
  let h1 := Hospital.mk "H1" "H1 Trauma Hospital" "hospital_h1" true
              Constants.AVAILABLE 40 30 in
  let h2 := Hospital.mk "H2" "H2 General Hospital" "hospital_h2" false
              Constants.OFFLINE 30 20 in
  let a1 := Ambulance.mk "A1" "hospital_h1" true in
  let a2 := Ambulance.mk "A2" "hospital_h2" true in
  let acc1 := Accident.mk "ACC1" "jaydev_vihar_flyover"
                "High-speed bike collision near Jaydev Vihar flyover" (Some "panicked") in
  let acc2 := Accident.mk "ACC2" "rupali_square"
                "Car–auto crash at Rupali Square" (Some "tense") in
  let acc3 := Accident.mk "ACC3" "airport_approach"
                "SUV rollover near Airport approach road with airbags deployed" (Some "tense") in
  mk [h1; h2] [a1; a2] [acc1; acc2; acc3].

End Scenario.

(** ** module3_planning/planning_domain.py *)

Module PlanningDomain.

Record Action : Type := mkAction {
  name : string;
  preconditions : PropSet;
  add_effects : PropSet;
  del_effects : PropSet;
}.

#[global] Instance Action_eq_dec : EqDecision Action.
Proof. solve_decision. Defined.

(** [getattr(o, "id", None)]: an object may or may not carry an [id]. *)
Class HasId (A : Type) : Type := getattr_id : A → option string.

#[global] Instance Hospital_has_id : HasId Hospital.t := λ h, Some (Hospital.id h).
#[global] Instance Ambulance_has_id : HasId Ambulance.t := λ a, Some (Ambulance.id a).
#[global] Instance Accident_has_id : HasId Accident.t := λ a, Some (Accident.id a).

Fixpoint _find_by_id {A} `{HasId A} (objects : list A) (obj_id : string) : result A :=
  match objects with
  | [] => Err (NotFound obj_id)
  | o :: objects' =>
      if decide (getattr_id o = Some obj_id) then Ok o
      else _find_by_id objects' obj_id
  end.

Definition Domain : Type := PropSet * list Action * PropSet.

(** The body of [build_domain_for_acc3] after [scenario = create_base_scenario()]. *)
Definition build_domain_from (scenario : Scenario.t) : result Domain :=
  let hospitals := Scenario.hospitals scenario in
  let ambulances := Scenario.ambulances scenario in
  let accidents := Scenario.accidents scenario in
  h1 ← _find_by_id hospitals "H1";
  h2 ← _find_by_id hospitals "H2";
  a1 ← _find_by_id ambulances "A1";
  acc3 ← _find_by_id accidents "ACC3";
  let h1_id := Hospital.id h1 in
  let h2_id := Hospital.id h2 in
  let a1_id := Ambulance.id a1 in
  let acc3_id := Accident.id acc3 in
  (* 1. initial state *)
  let initial_state : PropSet := ∅ in
  let initial_state := initial_state ∪ {[ "AmbulanceFree(" +:+ a1_id +:+ ")" ]} in
  let initial_state := initial_state ∪
    {[ "AmbulanceAt(" +:+ a1_id +:+ ", " +:+ Ambulance.current_node a1 +:+ ")" ]} in
  let initial_state := initial_state ∪ {[ "AccidentReported(" +:+ acc3_id +:+ ")" ]} in
  let initial_state := initial_state ∪ {[ "AccidentHighRisk(" +:+ acc3_id +:+ ")" ]} in
  let initial_state := initial_state ∪ {[ "AccidentNotServed(" +:+ acc3_id +:+ ")" ]} in
  let initial_state := initial_state ∪ {[ "Hospital(" +:+ h1_id +:+ ")" ]} in
  let initial_state := initial_state ∪ {[ "Hospital(" +:+ h2_id +:+ ")" ]} in
  let initial_state := initial_state ∪ {[ "TraumaCenter(" +:+ h1_id +:+ ")" ]} in
  let initial_state := initial_state ∪ {[ "CTAvailable(" +:+ h1_id +:+ ")" ]} in
  let initial_state :=
    if decide (Hospital.ct_status h2 = Constants.OFFLINE)
    then initial_state ∪ {[ "CTOffline(" +:+ h2_id +:+ ")" ]}
    else initial_state ∪ {[ "CTAvailable(" +:+ h2_id +:+ ")" ]} in
  let initial_state := initial_state ∪ {[ "RainyConditions" ]} in
  let initial_state := initial_state ∪ {[ "StadiumTrafficLikely" ]} in
  let initial_state := initial_state ∪ {[ "ControlRoomOperational" ]} in
  (* 2. actions *)
  let actions : list Action := [] in
  let actions := actions ++ [
    {| name := "TriggerDroneRecon(" +:+ acc3_id +:+ ")";
       preconditions := {[ "ControlRoomOperational";
                           "AccidentReported(" +:+ acc3_id +:+ ")" ]};
       add_effects := {[ "DroneReconDone(" +:+ acc3_id +:+ ")";
                         "AccidentLocationConfirmed(" +:+ acc3_id +:+ ")" ]};
       del_effects := ∅ |} ] in
  let actions := actions ++ [
    {| name := "RequestTrafficDiversion(stadium_corridor)";
       preconditions := {[ "ControlRoomOperational"; "StadiumTrafficLikely" ]};
       add_effects := {[ "TrafficDiverted(stadium_corridor)" ]};
       del_effects := ∅ |} ] in
  let hotspot_node := "nayapalli_chowk" in
  let actions := actions ++ [
    {| name := "PreDeployAmbulanceNearHotspot(" +:+ a1_id +:+ ", " +:+ hotspot_node +:+ ")";
       preconditions := {[ "AmbulanceFree(" +:+ a1_id +:+ ")";
                           "AmbulanceAt(" +:+ a1_id +:+ ", " +:+ Ambulance.current_node a1 +:+ ")" ]};
       add_effects := {[ "AmbulanceAt(" +:+ a1_id +:+ ", " +:+ hotspot_node +:+ ")";
                         "AmbulancePredeployed(" +:+ a1_id +:+ ")" ]};
       del_effects := {[ "AmbulanceAt(" +:+ a1_id +:+ ", " +:+ Ambulance.current_node a1 +:+ ")" ]} |} ] in
  let actions := actions ++ [
    {| name := "NotifyHospital(" +:+ h1_id +:+ ")";
       preconditions := {[ "ControlRoomOperational";
                           "AccidentHighRisk(" +:+ acc3_id +:+ ")";
                           "Hospital(" +:+ h1_id +:+ ")" ]};
       add_effects := {[ "HospitalNotified(" +:+ h1_id +:+ ")" ]};
       del_effects := ∅ |} ] in
  let actions := actions ++ [
    {| name := "StartTransportToAccident(" +:+ a1_id +:+ ", " +:+ acc3_id +:+ ")";
       preconditions := {[ "AmbulanceFree(" +:+ a1_id +:+ ")";
                           "AmbulanceAt(" +:+ a1_id +:+ ", " +:+ hotspot_node +:+ ")";
                           "AccidentLocationConfirmed(" +:+ acc3_id +:+ ")";
                           "TrafficDiverted(stadium_corridor)" ]};
       add_effects := {[ "AmbulanceEnRoute(" +:+ a1_id +:+ ", " +:+ acc3_id +:+ ")";
                         "AmbulanceBusy(" +:+ a1_id +:+ ")" ]};
       del_effects := {[ "AmbulanceFree(" +:+ a1_id +:+ ")" ]} |} ] in
  let actions := actions ++ [
    {| name := "DeliverPatientToH1(" +:+ a1_id +:+ ", " +:+ acc3_id +:+ ", " +:+ h1_id +:+ ")";
       preconditions := {[ "AmbulanceEnRoute(" +:+ a1_id +:+ ", " +:+ acc3_id +:+ ")";
                           "HospitalNotified(" +:+ h1_id +:+ ")" ]};
       add_effects := {[ "PatientAt(" +:+ acc3_id +:+ ", " +:+ h1_id +:+ ")";
                         "AccidentServed(" +:+ acc3_id +:+ ")";
                         "AmbulanceFree(" +:+ a1_id +:+ ")";
                         "AmbulanceAt(" +:+ a1_id +:+ ", " +:+ Hospital.node h1 +:+ ")" ]};
       del_effects := {[ "AccidentNotServed(" +:+ acc3_id +:+ ")";
                         "AmbulanceEnRoute(" +:+ a1_id +:+ ", " +:+ acc3_id +:+ ")";
                         "AmbulanceBusy(" +:+ a1_id +:+ ")" ]} |} ] in
  let actions := actions ++ [
    {| name := "RerouteMidJourneyToH2(" +:+ a1_id +:+ ", " +:+ acc3_id +:+ ", " +:+ h2_id +:+ ")";
       preconditions := {[ "AmbulanceEnRoute(" +:+ a1_id +:+ ", " +:+ acc3_id +:+ ")";
                           "CTAvailable(" +:+ h2_id +:+ ")" ]};
       add_effects := {[ "PatientAt(" +:+ acc3_id +:+ ", " +:+ h2_id +:+ ")";
                         "AccidentServed(" +:+ acc3_id +:+ ")";
                         "AmbulanceFree(" +:+ a1_id +:+ ")" ]};
       del_effects := {[ "AccidentNotServed(" +:+ acc3_id +:+ ")";
                         "AmbulanceEnRoute(" +:+ a1_id +:+ ", " +:+ acc3_id +:+ ")";
                         "AmbulanceBusy(" +:+ a1_id +:+ ")" ]} |} ] in
  (* 3. goal state *)
  let goal_state : PropSet :=
    {[ "AccidentServed(" +:+ acc3_id +:+ ")";
       "PatientAt(" +:+ acc3_id +:+ ", " +:+ h1_id +:+ ")" ]} in
  Ok (initial_state, actions, goal_state).

Definition build_domain_for_acc3 : result Domain :=
  build_domain_from Scenario.create_base_scenario.

End PlanningDomain.

(** ** module3_planning/graphplan.py *)

Module GraphPlan.
Import PlanningDomain.

Record PlanGraph : Type := mkPlanGraph {
  proposition_layers : list PropSet;
  action_layers : list (list Action);
}.

#[global] Instance PlanGraph_eq_dec : EqDecision PlanGraph.
Proof. solve_decision. Defined.

(** Step 1 of the loop body: the actions whose preconditions hold, in the
    order of [actions]. *)
Definition applicable_actions (actions : list Action) (current_props : PropSet)
  : list Action :=
  filter (λ action, preconditions action ⊆ current_props) actions.

(** Step 2 of the loop body: [next_props = set(current_props)] followed by
    [next_props |= act.add_effects] for each applicable action. *)
Definition next_props (current_props : PropSet) (applicable : list Action) : PropSet :=
  foldl (λ next act, next ∪ add_effects act) current_props applicable.

(** The [for level in range(max_levels)] loop; [remaining] counts the
    iterations still to run and [level] is the loop variable.  [max_levels]
    is a natural number: [range] of a negative bound is empty, as that of 0. *)
Fixpoint build_loop (actions : list Action) (goals : PropSet)
    (remaining level : nat)
    (proposition_layers : list PropSet) (action_layers : list (list Action))
  : result (PlanGraph * nat) :=
  match remaining with
  | 0 => Err PlanNotFound
  | S remaining' =>
      current_props ← index_last proposition_layers;
      let applicable := applicable_actions actions current_props in
      let action_layers := action_layers ++ [applicable] in
      let next := next_props current_props applicable in
      let proposition_layers := proposition_layers ++ [next] in
      if decide (goals ⊆ next)
      then Ok (mkPlanGraph proposition_layers action_layers, level + 1)
      else build_loop actions goals remaining' (S level) proposition_layers action_layers
  end.

Definition build_plan_graph (initial_state : PropSet) (actions : list Action)
    (goals : PropSet) (max_levels : nat) : result (PlanGraph * nat) :=
  build_loop actions goals max_levels 0 [initial_state] [].

(** The same loop, also reporting how many times its body ran. *)
Fixpoint build_loop_steps (actions : list Action) (goals : PropSet)
    (remaining level : nat)
    (proposition_layers : list PropSet) (action_layers : list (list Action))
  : result (PlanGraph * nat) * nat :=
  match remaining with
  | 0 => (Err PlanNotFound, 0)
  | S remaining' =>
      match index_last proposition_layers with
      | Err e => (Err e, 0)
      | Ok current_props =>
          let applicable := applicable_actions actions current_props in
          let action_layers := action_layers ++ [applicable] in
          let next := next_props current_props applicable in
          let proposition_layers := proposition_layers ++ [next] in
          if decide (goals ⊆ next)
          then (Ok (mkPlanGraph proposition_layers action_layers, level + 1), 1)
          else
            let '(r, n) := build_loop_steps actions goals remaining' (S level)
                             proposition_layers action_layers in
            (r, S n)
      end
  end.

Definition build_plan_graph_steps (initial_state : PropSet) (actions : list Action)
    (goals : PropSet) (max_levels : nat) : result (PlanGraph * nat) * nat :=
  build_loop_steps actions goals max_levels 0 [initial_state] [].

(** *** extract_linear_plan *)

(** The inner search [for a in actions_at_prev: if g in a.add_effects: ... break]. *)
Definition find_supporter (actions_at_prev : list Action) (g : Proposition)
  : option Action :=
  find (λ a, bool_decide (g ∈ add_effects a)) actions_at_prev.

(** Body of [for g in current_goals]; the state is
    [(chosen_actions, new_subgoals)]. *)
Definition goal_step (proposition_layers : list PropSet) (level : nat)
    (actions_at_prev : list Action)
    (st : list Action * PropSet) (g : Proposition)
  : result (list Action * PropSet) :=
  let '(chosen_actions, new_subgoals) := st in
  props_prev ← index proposition_layers (level - 1);
  if decide (g ∈ props_prev) then Ok (chosen_actions, new_subgoals)
  else
    match find_supporter actions_at_prev g with
    | None => Ok (chosen_actions, new_subgoals)
    | Some supporter =>
        Ok (chosen_actions ++ [supporter], new_subgoals ∪ preconditions supporter)
    end.

(** Body of [for level in range(goal_layer_index, 0, -1)]; the state is
    [(chosen_actions, current_goals)]. *)
Definition level_step (set_iter : PropSet → list Proposition) (plan_graph : PlanGraph)
    (st : list Action * PropSet) (level : nat)
  : result (list Action * PropSet) :=
  let '(chosen_actions, current_goals) := st in
  actions_at_prev ← index (action_layers plan_graph) (level - 1);
  '(chosen_actions, new_subgoals) ←
    for_each (goal_step (proposition_layers plan_graph) level actions_at_prev)
             (chosen_actions, ∅) (set_iter current_goals);
  Ok (chosen_actions, current_goals ∪ new_subgoals).

(** Body of the final [for a in chosen_actions]; the state is
    [(seen, final_plan)]. *)
Definition dedup_step (st : gset string * list Action) (a : Action)
  : gset string * list Action :=
  let '(seen, final_plan) := st in
  if decide (name a ∈ seen) then (seen, final_plan)
  else (seen ∪ {[ name a ]}, final_plan ++ [a]).

Definition remove_duplicates (chosen_actions : list Action) : list Action :=
  snd (foldl dedup_step (∅, []) chosen_actions).

(** [range(goal_layer_index, 0, -1)] *)
Definition range_down (goal_layer_index : nat) : list nat :=
  reverse (seq 1 goal_layer_index).

Definition extract_linear_plan (set_iter : PropSet → list Proposition)
    (plan_graph : PlanGraph) (goal_layer_index : nat) (goals : PropSet)
  : result (list Action) :=
  '(chosen_actions, _) ←
    for_each (level_step set_iter plan_graph) ([], goals) (range_down goal_layer_index);
  let chosen_actions := reverse chosen_actions in
  Ok (remove_duplicates chosen_actions).

Definition compute_strict_plan_for_acc3 (set_iter : PropSet → list Proposition)
  : result (list Action) :=
  '(initial_state, actions, goals) ← build_domain_for_acc3;
  '(pg, goal_layer_index) ← build_plan_graph initial_state actions goals 8;
  extract_linear_plan set_iter pg goal_layer_index goals.

(** *** Executing a plan

    Forward simulation as the relaxed graph sees it: an action adds its
    add-effects, delete effects are ignored. *)

Definition apply_add (state : PropSet) (a : Action) : PropSet :=
  state ∪ add_effects a.

Definition simulate (state : PropSet) (plan : list Action) : PropSet :=
  foldl apply_add state plan.

(** Every action finds its preconditions in the state it is executed in. *)
Fixpoint executable (state : PropSet) (plan : list Action) : Prop :=
  match plan with
  | [] => True
  | a :: plan' => preconditions a ⊆ state ∧ executable (apply_add state a) plan'
  end.

(** *** The layers as the design defines them

    [P0 = InitialState], [Ai = actions applicable in Pi],
    [P(i+1) = Pi ∪ add-effects of Ai]. *)

Fixpoint prop_layer (initial_state : PropSet) (actions : list Action) (i : nat) : PropSet :=
  match i with
  | 0 => initial_state
  | S j =>
      let Pj := prop_layer initial_state actions j in
      Pj ∪ ⋃ (add_effects <$> applicable_actions actions Pj)
  end.

Definition action_layer (initial_state : PropSet) (actions : list Action) (i : nat)
  : list Action :=
  applicable_actions actions (prop_layer initial_state actions i).

Definition graph_upto (initial_state : PropSet) (actions : list Action) (n : nat)
  : PlanGraph :=
  {| proposition_layers := prop_layer initial_state actions <$> seq 0 (S n);
     action_layers := action_layer initial_state actions <$> seq 0 n |}.

End GraphPlan.

(** ** module3_planning/pop_planner.py *)

(** Python's [needle in hay] on strings. *)
Fixpoint str_contains (needle hay : string) : bool :=
  String.prefix needle hay ||
  match hay with
  | EmptyString => false
  | String _ hay' => str_contains needle hay'
  end.

(** A [Dict[str, V]]: keys in insertion order; assigning to a key that is
    present keeps its position. *)
Abbreviation dict V := (list (string * V)) (only parsing).

Fixpoint dict_set {V} (k : string) (v : V) (d : dict V) : dict V :=
  match d with
  | [] => [(k, v)]
  | (k', v') :: d' =>
      if decide (k' = k) then (k, v) :: d' else (k', v') :: dict_set k v d'
  end.

Fixpoint dict_get {V} (k : string) (d : dict V) : option V :=
  match d with
  | [] => None
  | (k', v') :: d' => if decide (k' = k) then Some v' else dict_get k d'
  end.

Definition dict_keys {V} (d : dict V) : list string := fst <$> d.

Module PopPlanner.

Record POPAction : Type := mkPOPAction {
  id : string;
  name : string;
  preconditions : PropSet;
  effects : PropSet;
}.

#[global] Instance POPAction_eq_dec : EqDecision POPAction.
Proof. solve_decision. Defined.

(** An entry of [plan.branches]: a dict with the keys ["condition"],
    ["actions"] and ["description"]. *)
Record Branch : Type := mkBranch {
  condition : string;
  branch_actions : list string;
  description : string;
}.

#[global] Instance Branch_eq_dec : EqDecision Branch.
Proof. solve_decision. Defined.

Abbreviation Ordering := (string * string)%type (only parsing).  (* (before, after) *)
Abbreviation CausalLink := (string * Proposition * string)%type (only parsing).
                                                    (* (producer, prop, consumer) *)

Record POPPlan : Type := mkPOPPlan {
  actions : dict POPAction;
  orderings : list Ordering;
  causal_links : list CausalLink;
  branches : list Branch;
}.

#[global] Instance POPPlan_eq_dec : EqDecision POPPlan.
Proof. solve_decision. Defined.

Definition find_da (domain_actions : list PlanningDomain.Action) (prefix : string)
  : result PlanningDomain.Action :=
  match find (λ da, String.prefix prefix (PlanningDomain.name da)) domain_actions with
  | Some da => Ok da
  | None => Err (ActionNotFound prefix)
  end.

Definition wrap (da : PlanningDomain.Action) (id_suffix : string) : POPAction :=
  {| id := id_suffix;
     name := PlanningDomain.name da;
     preconditions := PlanningDomain.preconditions da;
     effects := PlanningDomain.add_effects da |}.

(** [for aid in plan.actions: if aid != "Start": orderings.append(("Start", aid))] *)
Definition start_orderings (plan_actions : dict POPAction) : list Ordering :=
  (λ aid, ("Start", aid)) <$> filter (λ aid, aid ≠ "Start") (dict_keys plan_actions).

(** [for p in consumer.preconditions: if cond(p):
       causal_links.append((producer, p, consumer.id))] *)
Definition links_where (set_iter : PropSet → list Proposition)
    (cond : Proposition → bool) (producer : string) (consumer : POPAction)
  : list CausalLink :=
  (λ p, (producer, p, id consumer)) <$>
    filter (λ p, cond p = true) (set_iter (preconditions consumer)).

(** The section "Causal links (simplified)" of [build_pop_plan_for_acc3]:
    seven loops over precondition sets, each appending the links it finds. *)
Definition derive_causal_links (set_iter : PropSet → list Proposition)
    (start a_drone a_predeploy a_notify_h1 a_request_div
     a_start_transport a_deliver_h1 a_reroute_h2 : POPAction)
  : list CausalLink :=
  (* Start provides initial facts for pre-phase actions *)
  ([a_drone; a_predeploy; a_notify_h1; a_request_div] ≫=
     links_where set_iter (λ p, bool_decide (p ∈ effects start)) "Start") ++
  (* DroneRecon provides AccidentLocationConfirmed(ACC3) to StartTransport *)
  links_where set_iter (str_contains "AccidentLocationConfirmed")
    (id a_drone) a_start_transport ++
  (* Predeploy provides AmbulanceAt(A1, nayapalli_chowk) to StartTransport *)
  links_where set_iter (λ p, str_contains "AmbulanceAt" p && str_contains "nayapalli_chowk" p)
    (id a_predeploy) a_start_transport ++
  (* RequestDiversion provides TrafficDiverted(stadium_corridor) to StartTransport *)
  links_where set_iter (λ p, bool_decide ("TrafficDiverted(stadium_corridor)" = p))
    (id a_request_div) a_start_transport ++
  (* NotifyH1 provides HospitalNotified(H1) to DeliverH1 *)
  links_where set_iter (str_contains "HospitalNotified")
    (id a_notify_h1) a_deliver_h1 ++
  (* StartTransport provides AmbulanceEnRoute(A1,ACC3) to DeliverH1 and RerouteH2 *)
  links_where set_iter (str_contains "AmbulanceEnRoute")
    (id a_start_transport) a_deliver_h1 ++
  links_where set_iter (str_contains "AmbulanceEnRoute")
    (id a_start_transport) a_reroute_h2.

Definition build_pop_plan_for_acc3 (set_iter : PropSet → list Proposition)
  : result POPPlan :=
  '(initial_state, domain_actions, goals) ← PlanningDomain.build_domain_for_acc3;
  (* artificial Start and Finish *)
  let start := {| id := "Start"; name := "Start";
                  preconditions := ∅; effects := initial_state |} in
  let finish := {| id := "Finish"; name := "Finish";
                   preconditions := list_to_set (set_iter goals); (* {p for p in goals} *)
                   effects := ∅ |} in
  let plan_actions : dict POPAction := [] in
  let plan_actions := dict_set (id start) start plan_actions in
  let plan_actions := dict_set (id finish) finish plan_actions in
  da_drone ← find_da domain_actions "TriggerDroneRecon";
  da_predeploy ← find_da domain_actions "PreDeployAmbulanceNearHotspot";
  da_notify_h1 ← find_da domain_actions "NotifyHospital";
  da_request_div ← find_da domain_actions "RequestTrafficDiversion";
  da_start_transport ← find_da domain_actions "StartTransportToAccident";
  da_deliver_h1 ← find_da domain_actions "DeliverPatientToH1";
  da_reroute_h2 ← find_da domain_actions "RerouteMidJourneyToH2";
  let a_drone := wrap da_drone "DroneRecon" in
  let a_predeploy := wrap da_predeploy "PredeployA1" in
  let a_notify_h1 := wrap da_notify_h1 "NotifyH1" in
  let a_request_div := wrap da_request_div "RequestDiversion" in
  let a_start_transport := wrap da_start_transport "StartTransport" in
  let a_deliver_h1 := wrap da_deliver_h1 "DeliverH1" in
  let a_reroute_h2 := wrap da_reroute_h2 "RerouteH2" in
  let plan_actions :=
    foldl (λ d a, dict_set (id a) a d) plan_actions
      [a_drone; a_predeploy; a_notify_h1; a_request_div;
       a_start_transport; a_deliver_h1; a_reroute_h2] in
  (* orderings *)
  let plan_orderings : list Ordering :=
    start_orderings plan_actions ++
    [ (id a_drone, id a_start_transport);
      (id a_predeploy, id a_start_transport);
      (id a_request_div, id a_start_transport);
      (id a_notify_h1, id a_deliver_h1);
      (id a_start_transport, id a_deliver_h1);
      (id a_start_transport, id a_reroute_h2);
      (id a_deliver_h1, "Finish");
      (id a_reroute_h2, "Finish") ] in
  (* causal links (simplified) *)
  let plan_causal_links : list CausalLink :=
    derive_causal_links set_iter start a_drone a_predeploy a_notify_h1
      a_request_div a_start_transport a_deliver_h1 a_reroute_h2 in
  (* contingency branches *)
  let plan_branches : list Branch :=
    [ {| condition := "CTAvailable(H2)";
         branch_actions := [id a_reroute_h2];
         description := "If CT scanner at H2 becomes available while A1 is en route, reroute mid-way to H2 for faster imaging." |};
      {| condition := "CTOffline(H2)";
         branch_actions := [id a_deliver_h1];
         description := "If H2 CT remains offline, continue with baseline plan and deliver the patient to H1 (trauma centre)." |} ] in
  Ok {| actions := plan_actions;
        orderings := plan_orderings;
        causal_links := plan_causal_links;
        branches := plan_branches |}.

(** *** Reading a plan *)

(** The ordering relation as a graph on action ids. *)
Definition before (plan : POPPlan) (a b : string) : Prop := (a, b) ∈ orderings plan.

Definition effects_of (plan : POPPlan) (aid : string) : PropSet :=
  match dict_get aid (actions plan) with
  | Some a => effects a
  | None => ∅
  end.

Definition preconditions_of (plan : POPPlan) (aid : string) : PropSet :=
  match dict_get aid (actions plan) with
  | Some a => preconditions a
  | None => ∅
  end.

End PopPlanner.

(** ** Vocabulary of the properties *)

Module PlanSpec.
Import PlanningDomain GraphPlan.

(** Action names identify actions ([name] is the identifier of an action). *)
Definition names_identify (actions : list Action) : Prop :=
  ∀ a b, a ∈ actions → b ∈ actions → name a = name b → a = b.

(** What one iteration of the backward walk does for one goal: nothing when
    the goal already holds one layer down, else the first supporter, if any. *)
Definition pick (props_prev : PropSet) (actions_at_prev : list Action)
    (g : Proposition) : option Action :=
  if decide (g ∈ props_prev) then None else find_supporter actions_at_prev g.

Definition picks (props_prev : PropSet) (actions_at_prev : list Action)
    (gs : list Proposition) : list Action :=
  omap (pick props_prev actions_at_prev) gs.

(** Removing later occurrences of names already seen, written by recursion
    on the list. *)
Fixpoint dedup_from (seen : gset string) (l : list Action) : list Action :=
  match l with
  | [] => []
  | a :: l' =>
      if decide (name a ∈ seen) then dedup_from seen l'
      else a :: dedup_from (seen ∪ {[ name a ]}) l'
  end.

(** The invariant of the backward walk, before level [k] is processed: the
    actions chosen so far come from the input, and, run in reverse order of
    choice from any state that holds the current goals already reachable at
    layer [k], they are executable and produce the goals. *)
Definition walk_inv (initial_state : PropSet) (actions : list Action) (goals : PropSet)
    (k : nat) (chosen : list Action) (current_goals : PropSet) : Prop :=
  (∀ a, a ∈ chosen → a ∈ actions) ∧
  ∀ state : PropSet,
    (∀ g, g ∈ current_goals → g ∈ prop_layer initial_state actions k → g ∈ state) →
    executable state (reverse chosen) ∧ goals ⊆ simulate state (reverse chosen).

(** The canonical scenario: the three components of the domain. *)
Definition acc3_initial_state : PropSet :=
  match build_domain_for_acc3 with Ok (i, _, _) => i | Err _ => ∅ end.
Definition acc3_actions : list Action :=
  match build_domain_for_acc3 with Ok (_, a, _) => a | Err _ => [] end.
Definition acc3_goals : PropSet :=
  match build_domain_for_acc3 with Ok (_, _, g) => g | Err _ => ∅ end.

(** Its seven ground actions, in the order of the action list. *)
Definition acc3_action (i : nat) : Action :=
  default (mkAction "" ∅ ∅ ∅) (acc3_actions !! i).
Definition trigger_drone_recon : Action := acc3_action 0.
Definition request_traffic_diversion : Action := acc3_action 1.
Definition predeploy_ambulance : Action := acc3_action 2.
Definition notify_hospital : Action := acc3_action 3.
Definition start_transport : Action := acc3_action 4.
Definition deliver_patient_to_h1 : Action := acc3_action 5.
Definition reroute_to_h2 : Action := acc3_action 6.

(** The working goal set of the extractor when it reaches level 1 in the
    canonical scenario: the goals, the preconditions of the delivery and
    those of the transport. *)
Definition acc3_level1_goals : PropSet :=
  {[ "AccidentServed(ACC3)"; "PatientAt(ACC3, H1)";
     "AmbulanceEnRoute(A1, ACC3)"; "HospitalNotified(H1)";
     "AmbulanceFree(A1)"; "AmbulanceAt(A1, nayapalli_chowk)";
     "AccidentLocationConfirmed(ACC3)"; "TrafficDiverted(stadium_corridor)" ]}.

(** The subgoals of that working goal set that a preparatory action
    supports, each with its action; the other four either hold initially or
    are added at a later level. *)
Definition level1_supporter (g : Proposition) : option Action :=
  if decide (g = "AccidentLocationConfirmed(ACC3)") then Some trigger_drone_recon
  else if decide (g = "TrafficDiverted(stadium_corridor)")
       then Some request_traffic_diversion
  else if decide (g = "AmbulanceAt(A1, nayapalli_chowk)") then Some predeploy_ambulance
  else if decide (g = "HospitalNotified(H1)") then Some notify_hospital
  else None.

(** Two actions that share a name: the second needs what the first adds. *)
Definition shared_name_actions : list Action :=
  [ {| name := "Act"; preconditions := ∅;
       add_effects := {[ "p" ]}; del_effects := ∅ |};
    {| name := "Act"; preconditions := {[ "p" ]};
       add_effects := {[ "g" ]}; del_effects := ∅ |} ].

End PlanSpec.

Module PopSpec.
Import PopPlanner.

(** The plan built under the iteration order [iter_sorted]. *)
Definition acc3_pop_plan : POPPlan :=
  match build_pop_plan_for_acc3 iter_sorted with
  | Ok plan => plan
  | Err _ => mkPOPPlan [] [] [] []
  end.

(** A causal link is justified by the plan it belongs to. *)
Definition causal_link_valid (plan : POPPlan) (link : CausalLink) : Prop :=
  let '(producer, prop, consumer) := link in
  (∃ P, dict_get producer (actions plan) = Some P ∧ prop ∈ effects P) ∧
  (∃ C, dict_get consumer (actions plan) = Some C ∧ prop ∈ preconditions C) ∧
  rtc (before plan) producer consumer.

(** Precondition [p] of action [A] has a causal link from an action that is
    ordered before [A] and has [p] among its effects. *)
Definition supported (plan : POPPlan) (A : string) (p : Proposition) : Prop :=
  ∃ producer,
    (producer, p, A) ∈ causal_links plan ∧
    tc (before plan) producer A ∧
    p ∈ effects_of plan producer.

(** Some action ordered before [A] has [p] among its effects. *)
Definition producible (plan : POPPlan) (A : string) (p : Proposition) : Prop :=
  ∃ B, tc (before plan) B A ∧ p ∈ effects_of plan B.

(** Causal links derived for every action and every precondition. *)
Definition causal_links_complete (plan : POPPlan) : Prop :=
  ∀ A p,
    A ∈ dict_keys (actions plan) →
    p ∈ preconditions_of plan A →
    producible plan A p →
    supported plan A p.

(** A numbering of the nine plan steps along which every ordering edge
    goes up. *)
Definition ordering_rank (aid : string) : nat :=
  if decide (aid = "Start") then 0
  else if decide (aid ∈ ["DroneRecon"; "PredeployA1"; "NotifyH1"; "RequestDiversion"]) then 1
  else if decide (aid = "StartTransport") then 2
  else if decide (aid ∈ ["DeliverH1"; "RerouteH2"]) then 3
  else 4.

End PopSpec.

(** ** The planning graph of the design *)

Module Design.
Import PlanningDomain.

(** Modelled from the spec: an action is applicable in a state [S] iff its
    preconditions are included in [S]. *)
Definition applicable (S : PropSet) (a : Action) : Prop :=
  preconditions a ⊆ S.

#[global] Instance applicable_dec S a : Decision (applicable S a).
Proof. unfold applicable. apply _. Defined.

(** Modelled from the spec: [P0 = InitialState] and
    [P(i+1) = Pi ∪ ⋃ add_effects(a) for a in Ai], where [Ai] holds the
    actions whose preconditions are included in [Pi]. *)
Fixpoint design_prop_layer (initial_state : PropSet) (actions : list Action) (i : nat)
  : PropSet :=
  match i with
  | 0 => initial_state
  | S j =>
      let Pj := design_prop_layer initial_state actions j in
      Pj ∪ ⋃ (add_effects <$> filter (applicable Pj) actions)
  end.

(** Modelled from the spec: [Ai], the actions applicable in [Pi], in the
    order of the action list. *)
Definition design_action_layer (initial_state : PropSet) (actions : list Action)
    (i : nat) : list Action :=
  filter (applicable (design_prop_layer initial_state actions i)) actions.

End Design.

(** ** The planners over an arbitrary scenario or domain *)

Module Pipeline.
Import PlanningDomain GraphPlan.

(** The body of [compute_strict_plan_for_acc3] with the domain built from a
    given scenario. *)
Definition compute_strict_plan_from (set_iter : PropSet → list Proposition)
    (scenario : Scenario.t) : result (list Action) :=
  '(initial_state, actions, goals) ← build_domain_from scenario;
  '(pg, goal_layer_index) ← build_plan_graph initial_state actions goals 8;
  extract_linear_plan set_iter pg goal_layer_index goals.

(** A scenario that holds nothing but the four objects the domain builder
    looks up, with the three fields it reads besides their ids. *)
Definition reduced_scenario (a1_node h1_node : string)
    (h2_ct : Constants.HospitalCTStatus) : Scenario.t :=
  Scenario.mk
    [ Hospital.mk "H1" "" h1_node false Constants.AVAILABLE 0 0;
      Hospital.mk "H2" "" "" false h2_ct 0 0 ]
    [ Ambulance.mk "A1" a1_node true ]
    [ Accident.mk "ACC3" "" "" None ].

(** Two views of the same planning problem: [f] may change an action in
    any way that keeps its name, its preconditions and its add-effects. *)
Definition keeps_planning_view (f : Action → Action) : Prop :=
  ∀ a, name (f a) = name a ∧
       preconditions (f a) = preconditions a ∧
       add_effects (f a) = add_effects a.

Definition without_deletes (a : Action) : Action :=
  {| name := name a; preconditions := preconditions a;
     add_effects := add_effects a; del_effects := ∅ |}.

Definition map_graph (f : Action → Action) (pg : PlanGraph) : PlanGraph :=
  {| proposition_layers := proposition_layers pg;
     action_layers := (λ layer : list Action, f <$> layer) <$> action_layers pg |}.

Definition result_map {A B} (f : A → B) (r : result A) : result B :=
  match r with
  | Ok a => Ok (f a)
  | Err e => Err e
  end.

End Pipeline.

Module PopPipeline.
Import PopPlanner.

(** The part of [build_pop_plan_for_acc3] that follows the seven [find_da]
    lookups, as a function of what it uses. *)
Definition assemble_pop_plan (set_iter : PropSet → list Proposition)
    (initial_state goals : PropSet)
    (da_drone da_predeploy da_notify_h1 da_request_div
     da_start_transport da_deliver_h1 da_reroute_h2 : PlanningDomain.Action)
  : POPPlan :=
  let start := {| id := "Start"; name := "Start";
                  preconditions := ∅; effects := initial_state |} in
  let finish := {| id := "Finish"; name := "Finish";
                   preconditions := list_to_set (set_iter goals);
                   effects := ∅ |} in
  let plan_actions : dict POPAction := [] in
  let plan_actions := dict_set (id start) start plan_actions in
  let plan_actions := dict_set (id finish) finish plan_actions in
  let a_drone := wrap da_drone "DroneRecon" in
  let a_predeploy := wrap da_predeploy "PredeployA1" in
  let a_notify_h1 := wrap da_notify_h1 "NotifyH1" in
  let a_request_div := wrap da_request_div "RequestDiversion" in
  let a_start_transport := wrap da_start_transport "StartTransport" in
  let a_deliver_h1 := wrap da_deliver_h1 "DeliverH1" in
  let a_reroute_h2 := wrap da_reroute_h2 "RerouteH2" in
  let plan_actions :=
    foldl (λ d a, dict_set (id a) a d) plan_actions
      [a_drone; a_predeploy; a_notify_h1; a_request_div;
       a_start_transport; a_deliver_h1; a_reroute_h2] in
  let plan_orderings : list Ordering :=
    start_orderings plan_actions ++
    [ (id a_drone, id a_start_transport);
      (id a_predeploy, id a_start_transport);
      (id a_request_div, id a_start_transport);
      (id a_notify_h1, id a_deliver_h1);
      (id a_start_transport, id a_deliver_h1);
      (id a_start_transport, id a_reroute_h2);
      (id a_deliver_h1, "Finish");
      (id a_reroute_h2, "Finish") ] in
  let plan_causal_links : list CausalLink :=
    derive_causal_links set_iter start a_drone a_predeploy a_notify_h1
      a_request_div a_start_transport a_deliver_h1 a_reroute_h2 in
  let plan_branches : list Branch :=
    [ {| condition := "CTAvailable(H2)";
         branch_actions := [id a_reroute_h2];
         description := "If CT scanner at H2 becomes available while A1 is en route, reroute mid-way to H2 for faster imaging." |};
      {| condition := "CTOffline(H2)";
         branch_actions := [id a_deliver_h1];
         description := "If H2 CT remains offline, continue with baseline plan and deliver the patient to H1 (trauma centre)." |} ] in
  {| actions := plan_actions;
     orderings := plan_orderings;
     causal_links := plan_causal_links;
     branches := plan_branches |}.

(** The body of [build_pop_plan_for_acc3] on a given domain. *)
Definition build_pop_plan_from (set_iter : PropSet → list Proposition)
    (domain : PlanningDomain.Domain) : result POPPlan :=
  let '(initial_state, domain_actions, goals) := domain in
  da_drone ← find_da domain_actions "TriggerDroneRecon";
  da_predeploy ← find_da domain_actions "PreDeployAmbulanceNearHotspot";
  da_notify_h1 ← find_da domain_actions "NotifyHospital";
  da_request_div ← find_da domain_actions "RequestTrafficDiversion";
  da_start_transport ← find_da domain_actions "StartTransportToAccident";
  da_deliver_h1 ← find_da domain_actions "DeliverPatientToH1";
  da_reroute_h2 ← find_da domain_actions "RerouteMidJourneyToH2";
  Ok (assemble_pop_plan set_iter initial_state goals
        da_drone da_predeploy da_notify_h1 da_request_div
        da_start_transport da_deliver_h1 da_reroute_h2).

(** A domain like the canonical one, except that the reconnaissance action
    confirms nothing. *)
Definition blind_recon_actions : list PlanningDomain.Action :=
  PlanningDomain.mkAction "TriggerDroneRecon(ACC3)"
    {[ "ControlRoomOperational" ]} {[ "DroneReconDone(ACC3)" ]} ∅
  :: drop 1 PlanSpec.acc3_actions.

Definition blind_recon_plan : POPPlan :=
  match build_pop_plan_from iter_sorted
          (PlanSpec.acc3_initial_state, blind_recon_actions, PlanSpec.acc3_goals) with
  | Ok plan => plan
  | Err _ => mkPOPPlan [] [] [] []
  end.

(** The prefixes looked up by [find_da], in the order of the lookups, with
    the plan id given to the action found. *)
Definition plan_steps : list (string * string) :=
  [ ("DroneRecon", "TriggerDroneRecon");
    ("PredeployA1", "PreDeployAmbulanceNearHotspot");
    ("NotifyH1", "NotifyHospital");
    ("RequestDiversion", "RequestTrafficDiversion");
    ("StartTransport", "StartTransportToAccident");
    ("DeliverH1", "DeliverPatientToH1");
    ("RerouteH2", "RerouteMidJourneyToH2") ].

End PopPipeline.

(* ================================================================== *)
(** * Part II: properties *)
(* ================================================================== *)

(** A closed decidable statement, settled by evaluation. *)
Ltac by_evaluation := apply (bool_decide_unpack _); vm_compute; exact I.
Ltac refuted_by_evaluation := apply (bool_decide_eq_false_1 _); vm_compute; reflexivity.

(** ** The planning-graph builder *)

Module BuildFacts.
Import PlanningDomain GraphPlan.

Lemma next_props_union (current : PropSet) (applicable : list Action) :
  next_props current applicable = current ∪ ⋃ (add_effects <$> applicable).
Proof.
  unfold next_props. revert current.
  induction applicable as [|a l IH]; intros current; simpl.
  - by rewrite (right_id_L ∅ (∪)).
  - rewrite IH. by rewrite (assoc_L (∪)).
Qed.

Lemma index_last_snoc {A} (xs : list A) (x : A) : index_last (xs ++ [x]) = Ok x.
Proof. unfold index_last. by rewrite last_snoc. Qed.

Lemma build_loop_steps_fst actions goals remaining :
  ∀ level pl al,
    (build_loop_steps actions goals remaining level pl al).1
    = build_loop actions goals remaining level pl al.
Proof.
  induction remaining as [|r IH]; intros level pl al; simpl; [done|].
  destruct (index_last pl) as [current|e]; simpl; [|done].
  case_decide; [done|].
  rewrite <- IH.
  by destruct (build_loop_steps _ _ _ _ _ _).
Qed.

Section Layers.
Context (initial_state : PropSet) (actions : list Action) (goals : PropSet).

Local Abbreviation P := (prop_layer initial_state actions).
Local Abbreviation A := (action_layer initial_state actions).

Lemma prop_layer_mono i : P i ⊆ P (S i).
Proof. simpl. set_solver. Qed.

Lemma prop_layer_mono_le i j : i ≤ j → P i ⊆ P j.
Proof.
  induction 1 as [|j _ IH]; [done|].
  etrans; [exact IH|apply prop_layer_mono].
Qed.

Lemma layers_snoc (f : nat → PropSet) n : f <$> seq 0 (S n) = (f <$> seq 0 n) ++ [f n].
Proof. by rewrite seq_S, fmap_app. Qed.

Lemma action_layers_snoc (f : nat → list Action) n :
  f <$> seq 0 (S n) = (f <$> seq 0 n) ++ [f n].
Proof. by rewrite seq_S, fmap_app. Qed.

Lemma build_loop_steps_unfold remaining (level : nat) :
  build_loop_steps actions goals (S remaining) level
    (P <$> seq 0 (S level)) (A <$> seq 0 level)
  = if decide (goals ⊆ P (S level))
    then (Ok (graph_upto initial_state actions (S level), S level), 1)
    else
      let '(r, n) := build_loop_steps actions goals remaining (S level)
                       (P <$> seq 0 (S (S level))) (A <$> seq 0 (S level)) in
      (r, S n).
Proof.
  cbn [build_loop_steps].
  assert (index_last (P <$> seq 0 (S level)) = Ok (P level)) as ->.
  { rewrite layers_snoc. apply index_last_snoc. }
  fold (A level). rewrite next_props_union.
  change (P level ∪ ⋃ (add_effects <$> A level)) with (P (S level)).
  rewrite <- (action_layers_snoc A level), <- (layers_snoc P (S level)).
  by replace (level + 1) with (S level) by lia.
Qed.

(** The loop, started at [level] on the layers built so far, stops at the
    first later layer that covers the goals, or runs out of iterations. *)
Lemma build_loop_steps_spec remaining :
  ∀ level : nat,
    (∃ k, level < k ≤ level + remaining ∧ goals ⊆ P k ∧
          (∀ j, level < j < k → ¬ goals ⊆ P j) ∧
          build_loop_steps actions goals remaining level
            (P <$> seq 0 (S level)) (A <$> seq 0 level)
          = (Ok (graph_upto initial_state actions k, k), k - level))
    ∨ ((∀ j, level < j ≤ level + remaining → ¬ goals ⊆ P j) ∧
       build_loop_steps actions goals remaining level
         (P <$> seq 0 (S level)) (A <$> seq 0 level)
       = (Err PlanNotFound, remaining)).
Proof.
  induction remaining as [|r IH]; intros level.
  - right. split; [intros j Hj; lia|done].
  - rewrite build_loop_steps_unfold.
    case_decide as Hg.
    + left. exists (S level). split; [lia|]. split; [done|].
      split; [intros j Hj; lia|].
      by replace (S level - level) with 1 by lia.
    + destruct (IH (S level)) as [(k & Hk & Hgk & Hmin & ->)|[Hnone ->]].
      * left. exists k. split; [lia|]. split; [done|]. split.
        -- intros j Hj. destruct (decide (j = S level)) as [->|]; [done|].
           apply Hmin. lia.
        -- by replace (S (k - S level)) with (k - level) by lia.
      * right. split; [|done].
        intros j Hj. destruct (decide (j = S level)) as [->|]; [done|].
        apply Hnone. lia.
Qed.

Lemma build_plan_graph_spec max_levels :
  (∃ k, 1 ≤ k ≤ max_levels ∧ goals ⊆ P k ∧
        (∀ j, 1 ≤ j < k → ¬ goals ⊆ P j) ∧
        build_plan_graph_steps initial_state actions goals max_levels
        = (Ok (graph_upto initial_state actions k, k), k))
  ∨ ((∀ j, 1 ≤ j ≤ max_levels → ¬ goals ⊆ P j) ∧
     build_plan_graph_steps initial_state actions goals max_levels
     = (Err PlanNotFound, max_levels)).
Proof.
  unfold build_plan_graph_steps.
  destruct (build_loop_steps_spec max_levels 0) as [(k & Hk & Hgk & Hmin & E)|[Hnone E]].
  - left. exists k. split; [lia|]. split; [done|]. split.
    + intros j Hj. apply Hmin. lia.
    + simpl in E. rewrite E. by rewrite Nat.sub_0_r.
  - right. split; [|done]. intros j Hj. apply Hnone. lia.
Qed.

Lemma build_plan_graph_steps_fst max_levels :
  (build_plan_graph_steps initial_state actions goals max_levels).1
  = build_plan_graph initial_state actions goals max_levels.
Proof. apply build_loop_steps_fst. Qed.

(** A successful call returns the layers of the design, up to the index it
    reports. *)
Lemma build_plan_graph_ok_inv max_levels pg n :
  build_plan_graph initial_state actions goals max_levels = Ok (pg, n) →
  pg = graph_upto initial_state actions n ∧ 1 ≤ n ≤ max_levels ∧ goals ⊆ P n ∧
  (∀ j, 1 ≤ j < n → ¬ goals ⊆ P j).
Proof.
  rewrite <- build_plan_graph_steps_fst.
  destruct (build_plan_graph_spec max_levels) as [(k & Hk & Hgk & Hmin & ->)|[_ ->]];
    simpl; [|done].
  intros [= <- <-]. done.
Qed.

Lemma graph_upto_prop_lookup n i :
  i ≤ n → proposition_layers (graph_upto initial_state actions n) !! i = Some (P i).
Proof.
  intros Hi.
  change (proposition_layers (graph_upto initial_state actions n))
    with (P <$> seq 0 (S n)).
  rewrite list_lookup_fmap, lookup_seq_lt by lia. done.
Qed.

Lemma graph_upto_action_lookup n i :
  i < n → action_layers (graph_upto initial_state actions n) !! i = Some (A i).
Proof.
  intros Hi.
  change (action_layers (graph_upto initial_state actions n))
    with (A <$> seq 0 n).
  rewrite list_lookup_fmap, lookup_seq_lt by lia. done.
Qed.

End Layers.

(** The layers of the design are those the loop computes. *)
Lemma design_prop_layer_eq (initial_state : PropSet) (actions : list Action) (i : nat) :
  Design.design_prop_layer initial_state actions i = prop_layer initial_state actions i.
Proof.
  induction i as [|i IH]; [done|].
  cbn [Design.design_prop_layer prop_layer]. by rewrite IH.
Qed.

Lemma design_action_layer_eq (initial_state : PropSet) (actions : list Action) (i : nat) :
  Design.design_action_layer initial_state actions i
  = action_layer initial_state actions i.
Proof.
  unfold Design.design_action_layer, action_layer.
  by rewrite design_prop_layer_eq.
Qed.

Lemma design_graph_upto (initial_state : PropSet) (actions : list Action) (k : nat) :
  proposition_layers (graph_upto initial_state actions k)
  = Design.design_prop_layer initial_state actions <$> seq 0 (S k) ∧
  action_layers (graph_upto initial_state actions k)
  = Design.design_action_layer initial_state actions <$> seq 0 k.
Proof.
  split; apply list_fmap_ext; intros ? ? _; symmetry;
    [apply design_prop_layer_eq|apply design_action_layer_eq].
Qed.

(** C4: [build_plan_graph] is a total function.  With [P0, P1, ...] the
    proposition layers of the design ([P0] the initial state, [P(i+1)] the
    union of [Pi] and the add-effects of the actions whose preconditions are
    included in [Pi]), it returns the smallest index [k] in [1..max_levels]
    such that the goals are included in [P k], together with the graph made
    of [P0 .. Pk] and of the action layers [A0 .. A(k-1)], after [k]
    expansion steps, when there is such an index; it raises [PlanNotFound]
    after exactly [max_levels] expansion steps when there is none. *)
Theorem build_plan_graph_first_goal_layer
    (initial_state : PropSet) (actions : list Action) (goals : PropSet)
    (max_levels : nat) :
  (build_plan_graph_steps initial_state actions goals max_levels).1
  = build_plan_graph initial_state actions goals max_levels ∧
  ((∃ k pg,
       1 ≤ k ≤ max_levels ∧
       goals ⊆ Design.design_prop_layer initial_state actions k ∧
       (∀ j, 1 ≤ j < k → ¬ goals ⊆ Design.design_prop_layer initial_state actions j) ∧
       build_plan_graph initial_state actions goals max_levels = Ok (pg, k) ∧
       proposition_layers pg
       = Design.design_prop_layer initial_state actions <$> seq 0 (S k) ∧
       action_layers pg
       = Design.design_action_layer initial_state actions <$> seq 0 k ∧
       length (action_layers pg) = k ∧
       (build_plan_graph_steps initial_state actions goals max_levels).2 = k)
   ∨ ((∀ j, 1 ≤ j ≤ max_levels →
            ¬ goals ⊆ Design.design_prop_layer initial_state actions j) ∧
      build_plan_graph initial_state actions goals max_levels = Err PlanNotFound ∧
      (build_plan_graph_steps initial_state actions goals max_levels).2 = max_levels)).
Proof.
  split; [apply build_plan_graph_steps_fst|].
  rewrite <- build_plan_graph_steps_fst.
  destruct (build_plan_graph_spec initial_state actions goals max_levels)
    as [(k & Hk & Hgk & Hmin & ->)|[Hnone ->]].
  - left. exists k, (graph_upto initial_state actions k).
    destruct (design_graph_upto initial_state actions k) as [Hp Ha].
    split; [done|]. split; [by rewrite design_prop_layer_eq|].
    split; [intros j Hj; rewrite design_prop_layer_eq; by apply Hmin|].
    split; [done|]. split; [done|]. split; [done|].
    split; [|done].
    rewrite Ha, length_fmap. apply length_seq.
  - right. split; [|done].
    intros j Hj. rewrite design_prop_layer_eq. by apply Hnone.
Qed.

(** C5: in the graph of a successful call, every action layer [Ai] is the
    list of the input actions whose preconditions are included in [Pi], the
    next proposition layer is [Pi] united with the add-effects of [Ai], and
    so [Pi ⊆ P(i+1)]. *)
Theorem build_plan_graph_layers
    (initial_state : PropSet) (actions : list Action) (goals : PropSet)
    (max_levels : nat) (pg : PlanGraph) (n : nat) :
  build_plan_graph initial_state actions goals max_levels = Ok (pg, n) →
  length (proposition_layers pg) = S n ∧
  length (action_layers pg) = n ∧
  proposition_layers pg !! 0 = Some initial_state ∧
  ∀ i, i < n →
    ∃ Pi Ai Pi',
      proposition_layers pg !! i = Some Pi ∧
      action_layers pg !! i = Some Ai ∧
      proposition_layers pg !! S i = Some Pi' ∧
      Ai = filter (λ a, preconditions a ⊆ Pi) actions ∧
      (∀ a, a ∈ Ai ↔ a ∈ actions ∧ preconditions a ⊆ Pi) ∧
      Pi' = Pi ∪ ⋃ (add_effects <$> Ai) ∧
      Pi ⊆ Pi'.
Proof.
  intros Hb. apply build_plan_graph_ok_inv in Hb as (-> & Hn & _ & _).
  split; [by simpl; rewrite length_fmap, length_seq|].
  split; [by simpl; rewrite length_fmap, length_seq|].
  split; [done|].
  intros i Hi.
  exists (prop_layer initial_state actions i), (action_layer initial_state actions i),
         (prop_layer initial_state actions (S i)).
  split; [apply graph_upto_prop_lookup; lia|].
  split; [by apply graph_upto_action_lookup|].
  split; [apply graph_upto_prop_lookup; lia|].
  split; [done|].
  split.
  { intros a. unfold action_layer, applicable_actions.
    rewrite list_elem_of_filter. tauto. }
  split; [done|apply prop_layer_mono].
Qed.

(** C10: the initial layer is never tested against the goals: a returned
    index is at least 1, [max_levels = 0] always raises, and goals that
    already hold initially are reported at index 1 after one expansion. *)
Theorem build_plan_graph_skips_initial_layer
    (initial_state : PropSet) (actions : list Action) (goals : PropSet)
    (max_levels : nat) :
  (∀ pg n, build_plan_graph initial_state actions goals max_levels = Ok (pg, n) → 1 ≤ n) ∧
  build_plan_graph initial_state actions goals 0 = Err PlanNotFound ∧
  (goals ⊆ initial_state → 1 ≤ max_levels →
   build_plan_graph initial_state actions goals max_levels
   = Ok (graph_upto initial_state actions 1, 1) ∧
   (build_plan_graph_steps initial_state actions goals max_levels).2 = 1).
Proof.
  split; [|split].
  - intros pg n Hb. apply build_plan_graph_ok_inv in Hb. lia.
  - done.
  - intros Hg Hm.
    assert (goals ⊆ prop_layer initial_state actions 1) as Hg1.
    { etrans; [exact Hg|]. apply (prop_layer_mono initial_state actions 0). }
    rewrite <- build_plan_graph_steps_fst.
    destruct (build_plan_graph_spec initial_state actions goals max_levels)
      as [(k & Hk & Hgk & Hmin & ->)|(Hnone & _)].
    + destruct (decide (k = 1)) as [->|]; [done|].
      exfalso. apply (Hmin 1); [lia|done].
    + exfalso. apply (Hnone 1); [lia|done].
Qed.

(** The canonical scenario reaches its goals at layer 3. *)
Lemma build_plan_graph_layers_witness :
  length (proposition_layers
            (graph_upto PlanSpec.acc3_initial_state PlanSpec.acc3_actions 3)) = 4 ∧
  length (action_layers
            (graph_upto PlanSpec.acc3_initial_state PlanSpec.acc3_actions 3)) = 3 ∧
  proposition_layers
    (graph_upto PlanSpec.acc3_initial_state PlanSpec.acc3_actions 3) !! 0
  = Some PlanSpec.acc3_initial_state ∧
  ∀ i, i < 3 →
    ∃ Pi Ai Pi',
      proposition_layers
        (graph_upto PlanSpec.acc3_initial_state PlanSpec.acc3_actions 3) !! i
      = Some Pi ∧
      action_layers
        (graph_upto PlanSpec.acc3_initial_state PlanSpec.acc3_actions 3) !! i
      = Some Ai ∧
      proposition_layers
        (graph_upto PlanSpec.acc3_initial_state PlanSpec.acc3_actions 3) !! S i
      = Some Pi' ∧
      Ai = filter (λ a, preconditions a ⊆ Pi) PlanSpec.acc3_actions ∧
      (∀ a, a ∈ Ai ↔ a ∈ PlanSpec.acc3_actions ∧ preconditions a ⊆ Pi) ∧
      Pi' = Pi ∪ ⋃ (add_effects <$> Ai) ∧
      Pi ⊆ Pi'.
Proof.
  apply (build_plan_graph_layers PlanSpec.acc3_initial_state PlanSpec.acc3_actions
           PlanSpec.acc3_goals 8).
  apply (bool_decide_unpack _). vm_compute. exact I.
Defined.

(** Goals that hold initially are still reported at index 1. *)
Lemma build_plan_graph_skips_initial_layer_witness :
  build_plan_graph {[ "p" ]} [] {[ "p" ]} 0 = Err PlanNotFound ∧
  build_plan_graph {[ "p" ]} [] {[ "p" ]} 3 = Ok (graph_upto {[ "p" ]} [] 1, 1) ∧
  (build_plan_graph_steps {[ "p" ]} [] {[ "p" ]} 3).2 = 1.
Proof.
  destruct (build_plan_graph_skips_initial_layer {[ "p" ]} [] {[ "p" ]} 3)
    as (_ & Hzero & Hone).
  split; [exact Hzero|]. apply Hone; [reflexivity|lia].
Defined.

End BuildFacts.

(** ** The domain builder *)

Module DomainFacts.
Import PlanningDomain.

Lemma bind_Ok {A B} (f : A → result B) (a : A) : (Ok a ≫= f) = f a.
Proof. done. Qed.

Lemma bind_Err {A B} (f : A → result B) (e : error) : (Err e ≫= f) = Err e.
Proof. done. Qed.

Lemma find_by_id_Ok {A} `{HasId A} (objects : list A) (obj_id : string) (o : A) :
  _find_by_id objects obj_id = Ok o ↔
  ∃ l1 l2, objects = l1 ++ o :: l2 ∧ getattr_id o = Some obj_id ∧
           ∀ x, x ∈ l1 → getattr_id x ≠ Some obj_id.
Proof.
  induction objects as [|x l IH]; simpl.
  - split; [done|]. intros (l1 & l2 & E & _). by destruct l1.
  - case_decide as Hx.
    + split.
      * intros [= ->]. exists [], l. split; [done|]. split; [done|].
        intros y Hy. by apply elem_of_nil in Hy.
      * intros (l1 & l2 & E & Ho & Hl1). destruct l1 as [|y l1].
        -- by injection E as -> _.
        -- injection E as -> _. destruct (Hl1 y); [left|done].
    + rewrite IH. split.
      * intros (l1 & l2 & -> & Ho & Hl1). exists (x :: l1), l2.
        split; [done|]. split; [done|].
        intros y [->|Hy]%elem_of_cons; [done|by apply Hl1].
      * intros (l1 & l2 & E & Ho & Hl1). destruct l1 as [|y l1].
        -- injection E as -> _. done.
        -- injection E as -> ->. exists l1, l2. split; [done|]. split; [done|].
           intros z Hz. apply Hl1. by right.
Qed.

Lemma find_by_id_Err {A} `{HasId A} (objects : list A) (obj_id : string) (e : error) :
  _find_by_id objects obj_id = Err e ↔
  e = NotFound obj_id ∧ ∀ x, x ∈ objects → getattr_id x ≠ Some obj_id.
Proof.
  induction objects as [|x l IH]; simpl.
  - split.
    + intros [= <-]. split; [done|]. intros y Hy. by apply elem_of_nil in Hy.
    + by intros [-> _].
  - case_decide as Hx.
    + split; [done|]. intros [_ Hall]. destruct (Hall x); [left|done].
    + rewrite IH. split.
      * intros [-> Hall]. split; [done|].
        intros y [->|Hy]%elem_of_cons; [done|by apply Hall].
      * intros [-> Hall]. split; [done|]. intros y Hy. apply Hall. by right.
Qed.

(** C8: [_find_by_id] returns the first object carrying the requested id and
    raises [NotFound] exactly when no object carries it; the domain builder
    makes its four lookups first, so that it returns a domain when all four
    succeed and otherwise raises the [NotFound] of a lookup, with no domain. *)
Theorem find_by_id_and_domain_short_circuit
    (A : Type) `{HasId A} (objects : list A) (obj_id : string)
    (scenario : Scenario.t) :
  (∀ o, _find_by_id objects obj_id = Ok o ↔
        ∃ l1 l2, objects = l1 ++ o :: l2 ∧ getattr_id o = Some obj_id ∧
                 ∀ x, x ∈ l1 → getattr_id x ≠ Some obj_id) ∧
  (∀ e, _find_by_id objects obj_id = Err e ↔
        e = NotFound obj_id ∧ ∀ x, x ∈ objects → getattr_id x ≠ Some obj_id) ∧
  (is_ok (_find_by_id (Scenario.hospitals scenario) "H1") →
   is_ok (_find_by_id (Scenario.hospitals scenario) "H2") →
   is_ok (_find_by_id (Scenario.ambulances scenario) "A1") →
   is_ok (_find_by_id (Scenario.accidents scenario) "ACC3") →
   is_ok (build_domain_from scenario)) ∧
  (¬ (is_ok (_find_by_id (Scenario.hospitals scenario) "H1") ∧
      is_ok (_find_by_id (Scenario.hospitals scenario) "H2") ∧
      is_ok (_find_by_id (Scenario.ambulances scenario) "A1") ∧
      is_ok (_find_by_id (Scenario.accidents scenario) "ACC3")) →
   ∃ missing, missing ∈ ["H1"; "H2"; "A1"; "ACC3"] ∧
              build_domain_from scenario = Err (NotFound missing)).
Proof.
  split; [intros o; apply find_by_id_Ok|].
  split; [intros e; apply find_by_id_Err|].
  unfold build_domain_from.
  destruct (_find_by_id (Scenario.hospitals scenario) "H1") as [h1|e1] eqn:E1.
  2:{ split; [done|]. intros _. apply find_by_id_Err in E1 as [-> _].
      exists "H1". split; [set_solver|done]. }
  destruct (_find_by_id (Scenario.hospitals scenario) "H2") as [h2|e2] eqn:E2.
  2:{ split; [done|]. intros _. apply find_by_id_Err in E2 as [-> _].
      exists "H2". split; [set_solver|done]. }
  destruct (_find_by_id (Scenario.ambulances scenario) "A1") as [a1|e3] eqn:E3.
  2:{ split; [done|]. intros _. apply find_by_id_Err in E3 as [-> _].
      exists "A1". split; [set_solver|done]. }
  destruct (_find_by_id (Scenario.accidents scenario) "ACC3") as [acc3|e4] eqn:E4.
  2:{ split; [done|]. intros _. apply find_by_id_Err in E4 as [-> _].
      exists "ACC3". split; [set_solver|done]. }
  split; [intros _ _ _ _; exact I|].
  intros Hno. destruct Hno. done.
Qed.

(** A scenario in which accident ACC3 was never reported. *)
Lemma find_by_id_and_domain_short_circuit_witness :
  ∃ missing, missing ∈ ["H1"; "H2"; "A1"; "ACC3"] ∧
    build_domain_from
      (Scenario.mk (Scenario.hospitals Scenario.create_base_scenario)
                   (Scenario.ambulances Scenario.create_base_scenario) [])
    = Err (NotFound missing).
Proof.
  apply (find_by_id_and_domain_short_circuit Accident.t [] "ACC3"
           (Scenario.mk (Scenario.hospitals Scenario.create_base_scenario)
                        (Scenario.ambulances Scenario.create_base_scenario) [])).
  simpl. tauto.
Defined.

End DomainFacts.

(** ** The linear-plan extractor *)

Module ExtractFacts.
Import PlanningDomain GraphPlan PlanSpec.
Import DomainFacts BuildFacts.

(** *** Executing plans *)

Lemma simulate_union (state : PropSet) (plan : list Action) :
  simulate state plan = state ∪ ⋃ (add_effects <$> plan).
Proof. apply next_props_union. Qed.

Lemma simulate_app (state : PropSet) (l1 l2 : list Action) :
  simulate state (l1 ++ l2) = simulate (simulate state l1) l2.
Proof. apply foldl_app. Qed.

Lemma executable_app (state : PropSet) (l1 l2 : list Action) :
  executable state (l1 ++ l2) ↔
  executable state l1 ∧ executable (simulate state l1) l2.
Proof.
  revert state. induction l1 as [|a l1 IH]; intros state; simpl.
  - tauto.
  - rewrite IH. tauto.
Qed.

(** Actions whose preconditions all hold may run in any order, since the
    state only grows. *)
Lemma executable_all_enabled (state : PropSet) (plan : list Action) :
  (∀ a, a ∈ plan → preconditions a ⊆ state) → executable state plan.
Proof.
  revert state. induction plan as [|a l IH]; intros state Hall; simpl; [done|].
  split; [apply Hall; left|].
  apply IH. intros b Hb. unfold apply_add.
  etrans; [apply Hall; by right|]. set_solver.
Qed.

(** *** The supporter search and the loop bodies *)

Lemma find_supporter_Some acts g a :
  find_supporter acts g = Some a → a ∈ acts ∧ g ∈ add_effects a.
Proof.
  unfold find_supporter. intros [Hin Hg]%find_some.
  split; [by apply list_elem_of_In|by apply bool_decide_eq_true in Hg].
Qed.

Lemma find_supporter_is_Some acts g a :
  a ∈ acts → g ∈ add_effects a → is_Some (find_supporter acts g).
Proof.
  intros Hin Hg. destruct (find_supporter acts g) as [b|] eqn:E; [by eexists|].
  unfold find_supporter in E.
  apply list_elem_of_In in Hin.
  apply (find_none _ _ E a) in Hin.
  apply bool_decide_eq_false in Hin. done.
Qed.

Lemma picks_snoc props acts gs g :
  picks props acts (gs ++ [g]) = picks props acts gs ++ picks props acts [g].
Proof. unfold picks. apply omap_app. Qed.

Lemma goal_step_eq pl level acts props chosen sub g :
  index pl (level - 1) = Ok props →
  goal_step pl level acts (chosen, sub) g
  = Ok match pick props acts g with
       | Some a => (chosen ++ [a], sub ∪ preconditions a)
       | None => (chosen, sub)
       end.
Proof.
  intros Hidx. unfold goal_step, pick. rewrite Hidx, bind_Ok.
  case_decide; [done|]. by destruct (find_supporter acts g).
Qed.

Lemma for_each_goal_step pl level acts props :
  index pl (level - 1) = Ok props →
  ∀ gs chosen sub,
    for_each (goal_step pl level acts) (chosen, sub) gs
    = Ok (chosen ++ picks props acts gs,
          sub ∪ ⋃ (preconditions <$> picks props acts gs)).
Proof.
  intros Hidx. induction gs as [|g gs IH]; intros chosen sub.
  - simpl. by rewrite app_nil_r, (right_id_L ∅ (∪)).
  - cbn [for_each]. rewrite (goal_step_eq _ _ _ _ _ _ _ Hidx), bind_Ok.
    unfold picks. cbn [omap list_omap]. fold (picks props acts gs).
    destruct (pick props acts g) as [a|]; rewrite IH; [|done].
    f_equal. f_equal.
    + by rewrite <- app_assoc.
    + rewrite fmap_cons, union_list_cons. by rewrite (assoc_L (∪)).
Qed.

Lemma level_step_eq set_iter pg level acts props chosen current_goals :
  index (action_layers pg) (level - 1) = Ok acts →
  index (proposition_layers pg) (level - 1) = Ok props →
  level_step set_iter pg (chosen, current_goals) level
  = Ok (chosen ++ picks props acts (set_iter current_goals),
        current_goals ∪ ⋃ (preconditions <$> picks props acts (set_iter current_goals))).
Proof.
  intros Ha Hp. unfold level_step. rewrite Ha, bind_Ok.
  rewrite (for_each_goal_step _ _ _ _ Hp), bind_Ok.
  by rewrite (left_id_L ∅ (∪)).
Qed.

Lemma range_down_S k : range_down (S k) = S k :: range_down k.
Proof.
  unfold range_down. rewrite seq_S, reverse_app. done.
Qed.

(** *** Removing duplicates *)

Lemma foldl_dedup_step seen acc l :
  (foldl dedup_step (seen, acc) l).2 = acc ++ dedup_from seen l.
Proof.
  revert seen acc. induction l as [|a l IH]; intros seen acc; simpl.
  - by rewrite app_nil_r.
  - case_decide; rewrite IH; [done|]. by rewrite <- app_assoc.
Qed.

Lemma remove_duplicates_eq l : remove_duplicates l = dedup_from ∅ l.
Proof. unfold remove_duplicates. by rewrite foldl_dedup_step. Qed.

(** Dropping an action whose name was seen loses nothing when the earlier
    holder of the name was the same action: its add-effects are already in
    the state. *)
Lemma dedup_from_sound l :
  names_identify l →
  ∀ seen state,
    (∀ a, a ∈ l → name a ∈ seen → add_effects a ⊆ state) →
    executable state l →
    executable state (dedup_from seen l) ∧
    simulate state (dedup_from seen l) = simulate state l.
Proof.
  induction l as [|a l IH]; intros Hnames seen state Hseen Hex; [done|].
  assert (names_identify l) as Hnames'.
  { intros x y Hx Hy. apply Hnames; by right. }
  destruct Hex as [Hpre Hex]. cbn [dedup_from].
  case_decide as Hin.
  - assert (apply_add state a = state) as Eq.
    { unfold apply_add. rewrite (comm_L (∪)).
      apply subseteq_union_1_L. apply Hseen; [left|done]. }
    cbn [simulate foldl]. fold (simulate (apply_add state a) l).
    rewrite Eq in *. apply IH; [done| |done].
    intros b Hb. apply Hseen. by right.
  - assert (∀ b, b ∈ l → name b ∈ seen ∪ {[name a]} →
                 add_effects b ⊆ apply_add state a) as Hseen'.
    { intros b Hb [Hs|Hs%elem_of_singleton]%elem_of_union; unfold apply_add.
      - etrans; [apply Hseen; [by right|done]|]. apply union_subseteq_l.
      - rewrite (Hnames b a); [apply union_subseteq_r|by right|left|done]. }
    destruct (IH Hnames' _ _ Hseen' Hex) as [IH1 IH2].
    cbn [executable simulate foldl].
    fold (simulate (apply_add state a) (dedup_from (seen ∪ {[name a]}) l)).
    fold (simulate (apply_add state a) l).
    done.
Qed.

(** *** The backward walk over a graph built by [build_plan_graph] *)

Lemma set_iter_elem_of set_iter (s : PropSet) (g : Proposition) :
  valid_set_iter set_iter → g ∈ set_iter s ↔ g ∈ s.
Proof. intros Hv. rewrite (Hv s). apply elem_of_elements. Qed.

Section Walk.
Context (set_iter : PropSet → list Proposition).
Context (Hvalid : valid_set_iter set_iter).
Context (initial_state : PropSet) (actions : list Action) (goals : PropSet).
Context (n : nat) (Hgoals : goals ⊆ prop_layer initial_state actions n).

Local Abbreviation P := (prop_layer initial_state actions).
Local Abbreviation A := (action_layer initial_state actions).
Local Abbreviation G := (graph_upto initial_state actions n).

Local Abbreviation walk_inv := (walk_inv initial_state actions goals).

Lemma walk_inv_start : walk_inv n [] goals.
Proof.
  split; [by intros a Ha%elem_of_nil|].
  intros state Hstate. split; [done|].
  intros g Hg. apply Hstate; [done|by apply Hgoals].
Qed.

Lemma picks_from_layer k gs a :
  a ∈ picks (P k) (A k) gs →
  a ∈ actions ∧ preconditions a ⊆ P k ∧ ∃ g, g ∈ gs ∧ g ∈ add_effects a.
Proof.
  unfold picks. intros (g & Hg & Hpick)%list_elem_of_omap.
  unfold pick in Hpick. case_decide; [done|].
  apply find_supporter_Some in Hpick as [Hin Hadd].
  unfold action_layer, applicable_actions in Hin.
  apply list_elem_of_filter in Hin as [Hpre Hin]. eauto.
Qed.

Lemma picks_cover k gs g :
  g ∈ gs → g ∈ P (S k) → g ∉ P k →
  ∃ a, a ∈ picks (P k) (A k) gs ∧ g ∈ add_effects a.
Proof.
  intros Hgs HS Hk.
  change (P (S k)) with (P k ∪ ⋃ (add_effects <$> A k)) in HS.
  apply elem_of_union in HS as [?|HS]; [done|].
  apply elem_of_union_list in HS as (X & HX & HgX).
  apply list_elem_of_fmap in HX as (b & -> & Hb).
  destruct (find_supporter_is_Some _ _ _ Hb HgX) as [a Ha].
  exists a. split; [|by apply find_supporter_Some in Ha as [_ ?]].
  apply list_elem_of_omap. exists g. split; [done|].
  unfold pick. by case_decide.
Qed.

Lemma walk_inv_step k chosen current_goals :
  walk_inv (S k) chosen current_goals →
  walk_inv k
    (chosen ++ picks (P k) (A k) (set_iter current_goals))
    (current_goals ∪
       ⋃ (preconditions <$> picks (P k) (A k) (set_iter current_goals))).
Proof.
  set (c := picks (P k) (A k) (set_iter current_goals)).
  intros [Hfrom Hinv]. split.
  { intros a [Ha|Ha]%elem_of_app; [by apply Hfrom|].
    by apply picks_from_layer in Ha as [? _]. }
  intros state Hstate. rewrite reverse_app, executable_app, simulate_app.
  assert (executable state (reverse c)) as Hc.
  { apply executable_all_enabled. intros a Ha p Hp.
    rewrite elem_of_reverse in Ha.
    pose proof Ha as (_ & Hpre & _)%picks_from_layer.
    apply Hstate; [|by apply Hpre].
    apply elem_of_union_r, elem_of_union_list.
    exists (preconditions a). split; [|done]. by apply list_elem_of_fmap_2. }
  split; [split; [done|]|]; apply Hinv.
  all: intros g Hg HgS; rewrite simulate_union.
  all: destruct (decide (g ∈ P k)) as [Hk|Hk];
    [apply elem_of_union_l, Hstate; [by apply elem_of_union_l|done]|].
  all: apply elem_of_union_r, elem_of_union_list.
  all: destruct (picks_cover k (set_iter current_goals) g) as (a & Ha & Hadd);
    [by apply set_iter_elem_of|done|done|].
  all: exists (add_effects a); split; [|done].
  all: by apply list_elem_of_fmap_2, elem_of_reverse.
Qed.

Lemma walk_sound k :
  k ≤ n →
  ∀ chosen current_goals,
    walk_inv k chosen current_goals →
    ∃ chosen' goals',
      for_each (level_step set_iter G) (chosen, current_goals) (range_down k)
      = Ok (chosen', goals') ∧
      walk_inv 0 chosen' goals'.
Proof.
  induction k as [|k IH]; intros Hk chosen current_goals Hinv.
  - exists chosen, current_goals. done.
  - rewrite range_down_S. cbn [for_each].
    rewrite (level_step_eq _ _ _ (A k) (P k)).
    + rewrite bind_Ok. apply IH; [lia|]. by apply walk_inv_step.
    + unfold index. replace (S k - 1) with k by lia.
      by rewrite graph_upto_action_lookup by lia.
    + unfold index. replace (S k - 1) with k by lia.
      by rewrite graph_upto_prop_lookup by lia.
Qed.

Lemma extract_linear_plan_graph_upto :
  names_identify actions →
  ∃ plan,
    extract_linear_plan set_iter G n goals = Ok plan ∧
    executable initial_state plan ∧
    goals ⊆ simulate initial_state plan.
Proof.
  intros Hnames. unfold extract_linear_plan.
  destruct (walk_sound n (le_n n) [] goals walk_inv_start)
    as (chosen & goals' & -> & Hfrom & Hinv).
  rewrite bind_Ok. eexists. split; [done|].
  destruct (Hinv initial_state) as [Hex Hgoal]; [by intros g _ Hg|].
  rewrite remove_duplicates_eq.
  destruct (dedup_from_sound (reverse chosen)) with (seen := (∅ : gset string))
    (state := initial_state) as [Hex' Hsim]; [| |done|].
  - intros a b Ha Hb. rewrite elem_of_reverse in Ha, Hb.
    apply Hnames; by apply Hfrom.
  - intros a _ Ha. by apply not_elem_of_empty in Ha.
  - by rewrite Hsim.
Qed.

End Walk.

(** *** Soundness of the extracted plan *)

Lemma valid_iter_sorted : valid_set_iter iter_sorted.
Proof. by intros s. Qed.

Lemma valid_iter_reversed : valid_set_iter iter_reversed.
Proof. intros s. apply reverse_Permutation. Qed.

Lemma NoDup_names_identify (actions : list Action) :
  NoDup (name <$> actions) → names_identify actions.
Proof.
  induction actions as [|x l IH]; intros Hnd a b Ha Hb Hab.
  - by apply elem_of_nil in Ha.
  - rewrite fmap_cons in Hnd. apply NoDup_cons in Hnd as [Hx Hnd].
    apply elem_of_cons in Ha as [->|Ha], Hb as [->|Hb]; [done| | |by apply IH].
    + destruct Hx. rewrite Hab. by apply list_elem_of_fmap_2.
    + destruct Hx. rewrite <- Hab. by apply list_elem_of_fmap_2.
Qed.

Lemma acc3_names_identify : names_identify acc3_actions.
Proof.
  apply NoDup_names_identify. by_evaluation.
Qed.

Lemma build_domain_for_acc3_eq :
  build_domain_for_acc3 = Ok (acc3_initial_state, acc3_actions, acc3_goals).
Proof. by_evaluation. Qed.

Lemma build_plan_graph_acc3_eq :
  build_plan_graph acc3_initial_state acc3_actions acc3_goals 8
  = Ok (graph_upto acc3_initial_state acc3_actions 3, 3).
Proof. by_evaluation. Qed.

(** C1 (amended): when action names identify the actions, the plan extracted
    from the graph and index returned by [build_plan_graph], whatever the
    iteration order of sets, can be executed from the initial state with
    every precondition satisfied when its action runs, and the state it
    reaches contains the goals. *)
Theorem extract_linear_plan_sound
    (set_iter : PropSet → list Proposition)
    (initial_state : PropSet) (actions : list Action) (goals : PropSet)
    (max_levels : nat) (pg : PlanGraph) (n : nat) :
  valid_set_iter set_iter →
  names_identify actions →
  build_plan_graph initial_state actions goals max_levels = Ok (pg, n) →
  ∃ plan,
    extract_linear_plan set_iter pg n goals = Ok plan ∧
    executable initial_state plan ∧
    goals ⊆ simulate initial_state plan.
Proof.
  intros Hvalid Hnames Hb.
  apply build_plan_graph_ok_inv in Hb as (-> & _ & Hgoals & _).
  by apply extract_linear_plan_graph_upto.
Qed.

Lemma extract_linear_plan_sound_witness :
  ∃ plan,
    extract_linear_plan iter_sorted
      (graph_upto acc3_initial_state acc3_actions 3) 3 acc3_goals = Ok plan ∧
    executable acc3_initial_state plan ∧
    acc3_goals ⊆ simulate acc3_initial_state plan.
Proof.
  apply (extract_linear_plan_sound iter_sorted
           acc3_initial_state acc3_actions acc3_goals 8).
  - intros s. reflexivity.
  - apply NoDup_names_identify. apply (bool_decide_unpack _). vm_compute. exact I.
  - apply (bool_decide_unpack _). vm_compute. exact I.
Defined.

(** C1 as first stated fails when two actions share a name: the graph
    reaches the goal at layer 2 through both actions, the extractor chooses
    both, and the removal of duplicate names then drops the second one, so
    the plan that is left never produces the goal. *)
Lemma extract_linear_plan_shared_names_counterexample :
  ∃ pg plan,
    build_plan_graph ∅ shared_name_actions {[ "g" ]} 8 = Ok (pg, 2) ∧
    extract_linear_plan iter_sorted pg 2 {[ "g" ]} = Ok plan ∧
    name <$> plan = ["Act"] ∧
    ¬ ({[ "g" ]} ⊆ simulate ∅ plan).
Proof.
  eexists _, _. split; [vm_compute; reflexivity|].
  split; [vm_compute; reflexivity|].
  split; [vm_compute; reflexivity|].
  refuted_by_evaluation.
Qed.

End ExtractFacts.

(** ** The strict plan of the canonical scenario *)

Module StrictPlanFacts.
Import PlanningDomain GraphPlan PlanSpec.
Import DomainFacts BuildFacts ExtractFacts.

Lemma picks_set_iter set_iter props acts (s : PropSet) :
  valid_set_iter set_iter →
  picks props acts (set_iter s) ≡ₚ picks props acts (elements s).
Proof. intros Hv. unfold picks. by rewrite (Hv s). Qed.

Lemma subgoals_set_iter set_iter props acts (s : PropSet) :
  valid_set_iter set_iter →
  ⋃ (preconditions <$> picks props acts (set_iter s))
  = ⋃ (preconditions <$> picks props acts (elements s)).
Proof. intros Hv. by rewrite (picks_set_iter _ _ _ _ Hv). Qed.

Local Abbreviation P := (prop_layer acc3_initial_state acc3_actions).
Local Abbreviation A := (action_layer acc3_initial_state acc3_actions).

(** The working goal sets of the three levels of the backward walk. *)
Local Abbreviation goals3 := acc3_goals.
Local Abbreviation goals2 :=
  (goals3 ∪ ⋃ (preconditions <$> picks (P 2) (A 2) (elements goals3))).
Local Abbreviation goals1 :=
  (goals2 ∪ ⋃ (preconditions <$> picks (P 1) (A 1) (elements goals2))).

Lemma picks_level3 :
  picks (P 2) (A 2) (elements goals3)
  = [deliver_patient_to_h1; deliver_patient_to_h1].
Proof. by_evaluation. Qed.

Lemma picks_level2 : picks (P 1) (A 1) (elements goals2) = [start_transport].
Proof. by_evaluation. Qed.

Lemma picks_level1 :
  picks (P 0) (A 0) (elements goals1)
  ≡ₚ [notify_hospital; predeploy_ambulance; request_traffic_diversion;
      trigger_drone_recon].
Proof. by_evaluation. Qed.

(** Whatever the order in which level 1 chooses the four preparatory
    actions, the removal of duplicates leaves them in reverse order of
    choice, followed by the transport and one delivery. *)
Lemma remove_duplicates_all_orders :
  Forall (λ c1,
            remove_duplicates
              (reverse ((([] ++ [deliver_patient_to_h1; deliver_patient_to_h1])
                         ++ [start_transport]) ++ c1))
            = reverse c1 ++ [start_transport; deliver_patient_to_h1])
         (permutations [notify_hospital; predeploy_ambulance;
                        request_traffic_diversion; trigger_drone_recon]).
Proof. by_evaluation. Qed.

Lemma acc3_lookup_actions (k : nat) :
  k < 3 →
  index (action_layers (graph_upto acc3_initial_state acc3_actions 3)) k = Ok (A k).
Proof. intros Hk. unfold index. by rewrite graph_upto_action_lookup. Qed.

Lemma acc3_lookup_props (k : nat) :
  k < 3 →
  index (proposition_layers (graph_upto acc3_initial_state acc3_actions 3)) k = Ok (P k).
Proof. intros Hk. unfold index. by rewrite graph_upto_prop_lookup by lia. Qed.

(** One level of the walk: the chosen actions follow the iteration order,
    the new working goal set does not depend on it. *)
Lemma level_step_any_order set_iter pg level acts props chosen (current_goals : PropSet) :
  valid_set_iter set_iter →
  index (action_layers pg) (level - 1) = Ok acts →
  index (proposition_layers pg) (level - 1) = Ok props →
  ∃ c,
    level_step set_iter pg (chosen, current_goals) level
    = Ok (chosen ++ c,
          current_goals ∪ ⋃ (preconditions <$> picks props acts (elements current_goals))) ∧
    c = picks props acts (set_iter current_goals) ∧
    c ≡ₚ picks props acts (elements current_goals).
Proof.
  intros Hv Ha Hp. exists (picks props acts (set_iter current_goals)).
  split; [|split; [done|by apply picks_set_iter]].
  rewrite (level_step_eq _ _ _ _ _ _ _ Ha Hp).
  by rewrite (subgoals_set_iter _ _ _ _ Hv).
Qed.

(** The strict plan, for an arbitrary iteration order of sets. *)
Lemma strict_plan_shape (set_iter : PropSet → list Proposition) :
  valid_set_iter set_iter →
  ∃ prep,
    compute_strict_plan_for_acc3 set_iter
    = Ok (prep ++ [start_transport; deliver_patient_to_h1]) ∧
    prep = reverse (picks (P 0) (A 0) (set_iter goals1)) ∧
    prep ≡ₚ [notify_hospital; predeploy_ambulance; request_traffic_diversion;
             trigger_drone_recon].
Proof.
  intros Hv. unfold compute_strict_plan_for_acc3.
  rewrite build_domain_for_acc3_eq, bind_Ok. cbv beta iota.
  rewrite build_plan_graph_acc3_eq, bind_Ok. cbv beta iota.
  unfold extract_linear_plan.
  change (range_down 3) with [3; 2; 1]. cbn [for_each].
  destruct (level_step_any_order set_iter
              (graph_upto acc3_initial_state acc3_actions 3) 3 (A 2) (P 2)
              [] goals3 Hv)
    as (c3 & -> & _ & Hc3);
    [by apply acc3_lookup_actions; simpl; lia
    |by apply acc3_lookup_props; simpl; lia|].
  rewrite bind_Ok.
  destruct (level_step_any_order set_iter
              (graph_upto acc3_initial_state acc3_actions 3) 2 (A 1) (P 1)
              ([] ++ c3) goals2 Hv)
    as (c2 & -> & _ & Hc2);
    [by apply acc3_lookup_actions; simpl; lia
    |by apply acc3_lookup_props; simpl; lia|].
  rewrite bind_Ok.
  destruct (level_step_any_order set_iter
              (graph_upto acc3_initial_state acc3_actions 3) 1 (A 0) (P 0)
              (([] ++ c3) ++ c2) goals1 Hv)
    as (c1 & -> & Ec1 & Hc1);
    [by apply acc3_lookup_actions; simpl; lia
    |by apply acc3_lookup_props; simpl; lia|].
  rewrite bind_Ok. cbv beta iota zeta.
  rewrite picks_level3 in Hc3. rewrite picks_level2 in Hc2.
  rewrite picks_level1 in Hc1.
  symmetry in Hc3.
  apply (replicate_Permutation 2 deliver_patient_to_h1) in Hc3 as <-.
  change (replicate 2 deliver_patient_to_h1)
    with [deliver_patient_to_h1; deliver_patient_to_h1].
  apply Permutation_singleton_r in Hc2 as ->.
  exists (reverse c1).
  split; [|split; [by rewrite Ec1|by rewrite reverse_Permutation]].
  rewrite bind_Ok. cbv beta iota zeta. f_equal.
  pose proof remove_duplicates_all_orders as Hall.
  rewrite Forall_forall in Hall. apply Hall.
  by apply permutations_Permutation.
Qed.

Lemma goals1_eq : goals1 = acc3_level1_goals.
Proof. by_evaluation. Qed.

Lemma acc3_action_names :
  name <$> [trigger_drone_recon; request_traffic_diversion; predeploy_ambulance;
            notify_hospital; start_transport; deliver_patient_to_h1; reroute_to_h2]
  = [ "TriggerDroneRecon(ACC3)"; "RequestTrafficDiversion(stadium_corridor)";
      "PreDeployAmbulanceNearHotspot(A1, nayapalli_chowk)"; "NotifyHospital(H1)";
      "StartTransportToAccident(A1, ACC3)"; "DeliverPatientToH1(A1, ACC3, H1)";
      "RerouteMidJourneyToH2(A1, ACC3, H2)" ].
Proof. by_evaluation. Qed.

(** C3: on the canonical scenario, for every iteration order of sets, the
    strict plan ends with DeliverPatientToH1, whose add-effects contain
    AccidentServed(ACC3) and PatientAt(ACC3, H1); TriggerDroneRecon(ACC3) and
    NotifyHospital(H1) occur in the part of the plan before that last action,
    where the delivery itself does not occur; and RerouteMidJourneyToH2 occurs
    nowhere in the plan. *)
Theorem strict_plan_for_acc3_scenario (set_iter : PropSet → list Proposition) :
  valid_set_iter set_iter →
  ∃ before deliver,
    compute_strict_plan_for_acc3 set_iter = Ok (before ++ [deliver]) ∧
    name deliver = "DeliverPatientToH1(A1, ACC3, H1)" ∧
    "AccidentServed(ACC3)" ∈ add_effects deliver ∧
    "PatientAt(ACC3, H1)" ∈ add_effects deliver ∧
    "TriggerDroneRecon(ACC3)" ∈ (name <$> before) ∧
    "NotifyHospital(H1)" ∈ (name <$> before) ∧
    ("DeliverPatientToH1(A1, ACC3, H1)" ∉ (name <$> before)) ∧
    "RerouteMidJourneyToH2(A1, ACC3, H2)" ∉ (name <$> (before ++ [deliver])).
Proof.
  intros Hv. destruct (strict_plan_shape set_iter Hv) as (prep & E & _ & Hperm).
  exists (prep ++ [start_transport]), deliver_patient_to_h1.
  split; [by rewrite E, <- app_assoc|].
  rewrite <- app_assoc, !fmap_app, Hperm.
  repeat split; by_evaluation.
Qed.

Lemma strict_plan_for_acc3_scenario_witness :
  ∃ before deliver,
    compute_strict_plan_for_acc3 iter_sorted = Ok (before ++ [deliver]) ∧
    name deliver = "DeliverPatientToH1(A1, ACC3, H1)" ∧
    "AccidentServed(ACC3)" ∈ add_effects deliver ∧
    "PatientAt(ACC3, H1)" ∈ add_effects deliver ∧
    "TriggerDroneRecon(ACC3)" ∈ (name <$> before) ∧
    "NotifyHospital(H1)" ∈ (name <$> before) ∧
    ("DeliverPatientToH1(A1, ACC3, H1)" ∉ (name <$> before)) ∧
    "RerouteMidJourneyToH2(A1, ACC3, H2)" ∉ (name <$> (before ++ [deliver])).
Proof.
  apply (strict_plan_for_acc3_scenario iter_sorted).
  intros s. reflexivity.
Defined.

(** At level 1 of the canonical walk, a goal of the working goal set is
    given the action of the table, or none. *)
Lemma pick_level1_supporter :
  Forall (λ g, pick (P 0) (A 0) g = level1_supporter g) (elements acc3_level1_goals).
Proof. by_evaluation. Qed.

Lemma picks_level1_supporter (gs : list Proposition) :
  (∀ g, g ∈ gs → g ∈ acc3_level1_goals) →
  picks (P 0) (A 0) gs = omap level1_supporter gs.
Proof.
  pose proof pick_level1_supporter as Hall. rewrite Forall_forall in Hall.
  unfold picks. induction gs as [|g gs IH]; intros Hgs; [done|].
  cbn [omap list_omap].
  rewrite (Hall g) by (apply elem_of_elements, Hgs; left).
  rewrite IH; [done|]. intros g' Hg'. apply Hgs. by right.
Qed.

(** C9 (amended): for every iteration order of sets the strict plan consists
    of the four preparatory actions followed by StartTransportToAccident and
    DeliverPatientToH1; the order of the four preparatory actions is the
    reverse of the order in which the iteration over the level-1 working
    goal set meets their subgoals (AccidentLocationConfirmed(ACC3) for the
    reconnaissance, TrafficDiverted(stadium_corridor) for the diversion,
    AmbulanceAt(A1, nayapalli_chowk) for the pre-deployment and
    HospitalNotified(H1) for the notification), so that two runs return the
    same sequence whenever they iterate that set in the same order, and
    permutations of one another in general. *)
Theorem strict_plan_up_to_iteration_order
    (set_iter1 set_iter2 : PropSet → list Proposition) :
  valid_set_iter set_iter1 →
  valid_set_iter set_iter2 →
  ∃ prep1 prep2,
    compute_strict_plan_for_acc3 set_iter1
    = Ok (prep1 ++ [start_transport; deliver_patient_to_h1]) ∧
    compute_strict_plan_for_acc3 set_iter2
    = Ok (prep2 ++ [start_transport; deliver_patient_to_h1]) ∧
    prep1 = reverse (omap level1_supporter (set_iter1 acc3_level1_goals)) ∧
    prep2 = reverse (omap level1_supporter (set_iter2 acc3_level1_goals)) ∧
    prep1 ≡ₚ [trigger_drone_recon; request_traffic_diversion;
              predeploy_ambulance; notify_hospital] ∧
    prep1 ≡ₚ prep2 ∧
    (set_iter1 acc3_level1_goals = set_iter2 acc3_level1_goals → prep1 = prep2).
Proof.
  intros Hv1 Hv2.
  destruct (strict_plan_shape set_iter1 Hv1) as (prep1 & E1 & Ep1 & Hp1).
  destruct (strict_plan_shape set_iter2 Hv2) as (prep2 & E2 & Ep2 & Hp2).
  rewrite goals1_eq in Ep1, Ep2.
  rewrite picks_level1_supporter in Ep1
    by (intros g Hg; by apply (set_iter_elem_of set_iter1)).
  rewrite picks_level1_supporter in Ep2
    by (intros g Hg; by apply (set_iter_elem_of set_iter2)).
  exists prep1, prep2. split; [done|]. split; [done|].
  split; [done|]. split; [done|].
  split; [rewrite Hp1; by_evaluation|].
  split; [by rewrite Hp1, Hp2|].
  rewrite Ep1, Ep2. intros ->. reflexivity.
Qed.

Lemma strict_plan_up_to_iteration_order_witness :
  ∃ prep1 prep2,
    compute_strict_plan_for_acc3 iter_sorted
    = Ok (prep1 ++ [start_transport; deliver_patient_to_h1]) ∧
    compute_strict_plan_for_acc3 iter_reversed
    = Ok (prep2 ++ [start_transport; deliver_patient_to_h1]) ∧
    prep1 = reverse (omap level1_supporter (iter_sorted acc3_level1_goals)) ∧
    prep2 = reverse (omap level1_supporter (iter_reversed acc3_level1_goals)) ∧
    prep1 ≡ₚ [trigger_drone_recon; request_traffic_diversion;
              predeploy_ambulance; notify_hospital] ∧
    prep1 ≡ₚ prep2 ∧
    (iter_sorted acc3_level1_goals = iter_reversed acc3_level1_goals → prep1 = prep2).
Proof.
  apply (strict_plan_up_to_iteration_order iter_sorted iter_reversed).
  - intros s. reflexivity.
  - intros s. apply reverse_Permutation.
Defined.

(** C9 as first stated fails: two iteration orders of the working goal set
    give two different action sequences. *)
Lemma strict_plan_iteration_order_counterexample :
  valid_set_iter iter_sorted ∧ valid_set_iter iter_reversed ∧
  ∃ plan1 plan2,
    compute_strict_plan_for_acc3 iter_sorted = Ok plan1 ∧
    compute_strict_plan_for_acc3 iter_reversed = Ok plan2 ∧
    name <$> plan1
    = [ "NotifyHospital(H1)"; "RequestTrafficDiversion(stadium_corridor)";
        "PreDeployAmbulanceNearHotspot(A1, nayapalli_chowk)";
        "TriggerDroneRecon(ACC3)"; "StartTransportToAccident(A1, ACC3)";
        "DeliverPatientToH1(A1, ACC3, H1)" ] ∧
    name <$> plan2
    = [ "TriggerDroneRecon(ACC3)";
        "PreDeployAmbulanceNearHotspot(A1, nayapalli_chowk)";
        "RequestTrafficDiversion(stadium_corridor)"; "NotifyHospital(H1)";
        "StartTransportToAccident(A1, ACC3)";
        "DeliverPatientToH1(A1, ACC3, H1)" ] ∧
    plan1 ≠ plan2.
Proof.
  split; [apply valid_iter_sorted|]. split; [apply valid_iter_reversed|].
  exists [notify_hospital; request_traffic_diversion; predeploy_ambulance;
          trigger_drone_recon; start_transport; deliver_patient_to_h1],
         [trigger_drone_recon; predeploy_ambulance; request_traffic_diversion;
          notify_hospital; start_transport; deliver_patient_to_h1].
  repeat split; [by_evaluation..|refuted_by_evaluation].
Qed.

End StrictPlanFacts.

(** ** The partial-order plan *)

Module PopFacts.
Import PopPlanner PopSpec.
Import DomainFacts ExtractFacts.

#[local] Instance before_dec plan a b : Decision (before plan a b).
Proof. unfold before. apply _. Defined.

Lemma list_to_set_set_iter set_iter (s : PropSet) :
  valid_set_iter set_iter → list_to_set (set_iter s) = s.
Proof. intros Hv. rewrite (Hv s). apply list_to_set_elements_L. Qed.

Lemma links_where_set_iter set_iter cond producer consumer :
  valid_set_iter set_iter →
  links_where set_iter cond producer consumer
  ≡ₚ links_where iter_sorted cond producer consumer.
Proof. intros Hv. unfold links_where, iter_sorted. by rewrite (Hv _). Qed.

Lemma find_da_acc3 :
  find_da PlanSpec.acc3_actions "TriggerDroneRecon" = Ok PlanSpec.trigger_drone_recon ∧
  find_da PlanSpec.acc3_actions "PreDeployAmbulanceNearHotspot" = Ok PlanSpec.predeploy_ambulance ∧
  find_da PlanSpec.acc3_actions "NotifyHospital" = Ok PlanSpec.notify_hospital ∧
  find_da PlanSpec.acc3_actions "RequestTrafficDiversion" = Ok PlanSpec.request_traffic_diversion ∧
  find_da PlanSpec.acc3_actions "StartTransportToAccident" = Ok PlanSpec.start_transport ∧
  find_da PlanSpec.acc3_actions "DeliverPatientToH1" = Ok PlanSpec.deliver_patient_to_h1 ∧
  find_da PlanSpec.acc3_actions "RerouteMidJourneyToH2" = Ok PlanSpec.reroute_to_h2.
Proof. repeat split; by_evaluation. Qed.

Lemma bind_nil {A B} (f : A → list B) : ([] ≫= f) = [].
Proof. done. Qed.

Lemma POPPlan_Ok_eq a o l b a' o' b' :
  a = a' → o = o' → b = b' →
  Ok (mkPOPPlan a o l b) = Ok (mkPOPPlan a' o' l b').
Proof. by intros -> -> ->. Qed.

Lemma build_pop_plan_iter_sorted : build_pop_plan_for_acc3 iter_sorted = Ok acc3_pop_plan.
Proof. by_evaluation. Qed.

Lemma derive_causal_links_set_iter set_iter start a1 a2 a3 a4 a5 a6 a7 :
  valid_set_iter set_iter →
  derive_causal_links set_iter start a1 a2 a3 a4 a5 a6 a7
  ≡ₚ derive_causal_links iter_sorted start a1 a2 a3 a4 a5 a6 a7.
Proof.
  intros Hv. unfold derive_causal_links.
  rewrite !bind_cons, !bind_nil.
  apply Permutation_app.
  { repeat (apply Permutation_app; [by apply links_where_set_iter|]). done. }
  repeat (apply Permutation_app; [by apply links_where_set_iter|]).
  by apply links_where_set_iter.
Qed.

(** The iteration order of sets only permutes the causal links. *)
Lemma build_pop_plan_shape (set_iter : PropSet → list Proposition) :
  valid_set_iter set_iter →
  ∃ links,
    build_pop_plan_for_acc3 set_iter
    = Ok {| actions := actions acc3_pop_plan;
            orderings := orderings acc3_pop_plan;
            causal_links := links;
            branches := branches acc3_pop_plan |} ∧
    links ≡ₚ causal_links acc3_pop_plan.
Proof.
  intros Hv. unfold build_pop_plan_for_acc3.
  rewrite build_domain_for_acc3_eq, bind_Ok. cbv beta iota.
  destruct find_da_acc3 as (-> & -> & -> & -> & -> & -> & ->).
  rewrite !bind_Ok. cbv beta zeta.
  rewrite (list_to_set_set_iter _ _ Hv).
  eexists. split; [apply POPPlan_Ok_eq; by_evaluation|].
  etrans; [by apply derive_causal_links_set_iter|].
  by_evaluation.
Qed.

(** *** Facts that hold for every order of the causal links *)

Lemma effects_of_Some plan aid p :
  p ∈ effects_of plan aid →
  ∃ a, dict_get aid (actions plan) = Some a ∧ p ∈ effects a.
Proof.
  unfold effects_of. destruct (dict_get aid (actions plan)) as [a|]; [eauto|].
  by intros ?%not_elem_of_empty.
Qed.

Lemma preconditions_of_Some plan aid p :
  p ∈ preconditions_of plan aid →
  ∃ a, dict_get aid (actions plan) = Some a ∧ p ∈ preconditions a.
Proof.
  unfold preconditions_of. destruct (dict_get aid (actions plan)) as [a|]; [eauto|].
  by intros ?%not_elem_of_empty.
Qed.

Lemma dict_get_Some_elem_of {V} (d : dict V) k v :
  dict_get k d = Some v → (k, v) ∈ d.
Proof.
  induction d as [|[k' v'] d IH]; simpl; [done|].
  case_decide as Hk.
  - intros [= ->]. subst. left.
  - intros ?. right. by apply IH.
Qed.

(** Edges that go up along a numbering cannot close a cycle. *)
Lemma tc_rank {A} (R : relation A) (rank : A → nat) :
  (∀ a b, R a b → rank a < rank b) →
  ∀ a b, tc R a b → rank a < rank b.
Proof.
  intros Hup a b Htc.
  induction Htc as [a b Hab|a b c Hab _ IH].
  - by apply Hup.
  - etrans; [by apply Hup|done].
Qed.

Lemma acc3_links_checked :
  Forall (λ link : CausalLink,
            link.1.2 ∈ effects_of acc3_pop_plan link.1.1 ∧
            link.1.2 ∈ preconditions_of acc3_pop_plan link.2 ∧
            before acc3_pop_plan link.1.1 link.2)
         (causal_links acc3_pop_plan).
Proof. by_evaluation. Qed.

Lemma acc3_orderings_go_up :
  Forall (λ e : Ordering, ordering_rank e.1 < ordering_rank e.2)
         (orderings acc3_pop_plan).
Proof. by_evaluation. Qed.

Lemma acc3_orderings_ends :
  Forall (λ e : Ordering, e.2 ≠ "Start" ∧ e.1 ≠ "Finish") (orderings acc3_pop_plan).
Proof. by_evaluation. Qed.

Lemma acc3_start_finish :
  (∃ start, dict_get "Start" (actions acc3_pop_plan) = Some start ∧
            preconditions start = ∅) ∧
  (∃ finish, dict_get "Finish" (actions acc3_pop_plan) = Some finish ∧
             preconditions finish = PlanSpec.acc3_goals).
Proof.
  split.
  - exists (mkPOPAction "Start" "Start" ∅ PlanSpec.acc3_initial_state).
    split; by_evaluation.
  - exists (mkPOPAction "Finish" "Finish" PlanSpec.acc3_goals ∅).
    split; by_evaluation.
Qed.

(** Every precondition of every step other than the two excepted ones either
    has a causal link from a direct predecessor that produces it, or is
    produced by no step at all. *)
Lemma acc3_links_coverage :
  Forall (λ A : string,
    Forall (λ p : Proposition,
       A = "Finish" ∨
       (A, p) = ("StartTransport", "AmbulanceFree(A1)") ∨
       Exists (λ link : CausalLink,
                 link.1.2 = p ∧ link.2 = A ∧
                 before acc3_pop_plan link.1.1 A ∧
                 p ∈ effects_of acc3_pop_plan link.1.1)
              (causal_links acc3_pop_plan) ∨
       Forall (λ kv : string * POPAction, p ∉ effects kv.2) (actions acc3_pop_plan))
      (elements (preconditions_of acc3_pop_plan A)))
    (dict_keys (actions acc3_pop_plan)).
Proof. by_evaluation. Qed.

Lemma acc3_links_absent :
  Forall (λ link : CausalLink,
            link.2 ≠ "Finish" ∧
            (link.1.2, link.2) ≠ ("AmbulanceFree(A1)", "StartTransport"))
         (causal_links acc3_pop_plan).
Proof. by_evaluation. Qed.

Section AnyLinkOrder.
Context (plan : POPPlan).
Context (Hactions : actions plan = actions acc3_pop_plan).
Context (Horderings : orderings plan = orderings acc3_pop_plan).
Context (Hlinks : causal_links plan ≡ₚ causal_links acc3_pop_plan).

Lemma before_acc3 a b : before plan a b ↔ before acc3_pop_plan a b.
Proof. unfold before. by rewrite Horderings. Qed.

Lemma effects_of_acc3 aid : effects_of plan aid = effects_of acc3_pop_plan aid.
Proof. unfold effects_of. by rewrite Hactions. Qed.

Lemma preconditions_of_acc3 aid :
  preconditions_of plan aid = preconditions_of acc3_pop_plan aid.
Proof. unfold preconditions_of. by rewrite Hactions. Qed.

Lemma link_acc3 link : link ∈ causal_links plan ↔ link ∈ causal_links acc3_pop_plan.
Proof. by rewrite Hlinks. Qed.

Lemma before_goes_up a b : before plan a b → ordering_rank a < ordering_rank b.
Proof.
  intros Hab%before_acc3. pose proof acc3_orderings_go_up as Hup.
  rewrite Forall_forall in Hup. apply (Hup (a, b) Hab).
Qed.

Lemma plan_acyclic a : ¬ tc (before plan) a a.
Proof.
  intros Hcycle. apply (tc_rank _ ordering_rank before_goes_up) in Hcycle. lia.
Qed.

Lemma plan_links_valid link : link ∈ causal_links plan → causal_link_valid plan link.
Proof.
  intros Hl%link_acc3. pose proof acc3_links_checked as Hall.
  rewrite Forall_forall in Hall. destruct (Hall link Hl) as (He & Hp & Hb).
  destruct link as [[producer prop] consumer]. simpl in *.
  rewrite <- effects_of_acc3 in He. rewrite <- preconditions_of_acc3 in Hp.
  split; [by apply effects_of_Some|]. split; [by apply preconditions_of_Some|].
  apply rtc_once. by apply before_acc3.
Qed.

Lemma plan_never_produced p B :
  Forall (λ kv : string * POPAction, p ∉ effects kv.2) (actions acc3_pop_plan) →
  p ∉ effects_of plan B.
Proof.
  intros Hall (a & Ha & Hp)%effects_of_Some.
  rewrite Hactions in Ha. apply dict_get_Some_elem_of in Ha.
  rewrite Forall_forall in Hall. by apply (Hall _ Ha).
Qed.

Lemma plan_links_coverage A p :
  A ∈ dict_keys (actions plan) →
  A ≠ "Finish" →
  (A, p) ≠ ("StartTransport", "AmbulanceFree(A1)") →
  p ∈ preconditions_of plan A →
  producible plan A p →
  supported plan A p.
Proof.
  intros HA HF Hex Hp (B & HB & HpB).
  rewrite Hactions in HA. rewrite preconditions_of_acc3 in Hp.
  pose proof acc3_links_coverage as Hall.
  rewrite Forall_forall in Hall. specialize (Hall A HA).
  rewrite Forall_forall in Hall. apply elem_of_elements in Hp.
  destruct (Hall p Hp) as [?|[?|[Hlink|Hnone]]]; [done|done| |].
  - apply Exists_exists in Hlink as ([[producer p'] A'] & Hin & E1 & E2 & Hb & Hpe).
    simpl in *. subst p' A'. exists producer.
    split; [by apply link_acc3|].
    split; [by apply tc_once, before_acc3|by rewrite effects_of_acc3].
  - by destruct (plan_never_produced p B Hnone).
Qed.

Lemma plan_links_absent producer p :
  ((producer, p, "Finish") ∉ causal_links plan) ∧
  ((producer, "AmbulanceFree(A1)", "StartTransport") ∉ causal_links plan).
Proof.
  pose proof acc3_links_absent as Hall. rewrite Forall_forall in Hall.
  split; intros Hl%link_acc3; destruct (Hall _ Hl) as [H1 H2]; simpl in *; done.
Qed.

End AnyLinkOrder.

(** *** The plan returned by [build_pop_plan_for_acc3] *)

Local Abbreviation with_links links :=
  (mkPOPPlan (actions acc3_pop_plan) (orderings acc3_pop_plan) links
             (branches acc3_pop_plan)).

(** C6: every causal link [(producer, prop, consumer)] of the plan has
    [prop] among the effects of the action with id [producer] and among the
    preconditions of the action with id [consumer], and [consumer] is
    reachable from [producer] along the ordering edges. *)
Theorem pop_causal_links_valid (set_iter : PropSet → list Proposition) :
  valid_set_iter set_iter →
  ∃ plan,
    build_pop_plan_for_acc3 set_iter = Ok plan ∧
    ∀ producer prop consumer,
      (producer, prop, consumer) ∈ causal_links plan →
      (∃ P, dict_get producer (actions plan) = Some P ∧ prop ∈ effects P) ∧
      (∃ C, dict_get consumer (actions plan) = Some C ∧ prop ∈ preconditions C) ∧
      rtc (before plan) producer consumer.
Proof.
  intros Hv. destruct (build_pop_plan_shape set_iter Hv) as (links & -> & Hperm).
  eexists. split; [done|].
  intros producer prop consumer Hl.
  by apply (plan_links_valid (with_links links) eq_refl eq_refl Hperm) in Hl.
Qed.

Lemma pop_causal_links_valid_witness :
  ∃ plan,
    build_pop_plan_for_acc3 iter_sorted = Ok plan ∧
    ∀ producer prop consumer,
      (producer, prop, consumer) ∈ causal_links plan →
      (∃ P, dict_get producer (actions plan) = Some P ∧ prop ∈ effects P) ∧
      (∃ C, dict_get consumer (actions plan) = Some C ∧ prop ∈ preconditions C) ∧
      rtc (before plan) producer consumer.
Proof.
  apply (pop_causal_links_valid iter_sorted).
  intros s. reflexivity.
Defined.

(** C7: the ordering edges of the plan form no cycle; no edge enters Start,
    whose precondition set is empty; no edge leaves Finish, whose
    precondition set is the goal set of the domain. *)
Theorem pop_orderings_acyclic (set_iter : PropSet → list Proposition) :
  valid_set_iter set_iter →
  ∃ plan initial_state domain_actions goals,
    build_pop_plan_for_acc3 set_iter = Ok plan ∧
    PlanningDomain.build_domain_for_acc3 = Ok (initial_state, domain_actions, goals) ∧
    (∀ a, ¬ tc (before plan) a a) ∧
    (∀ a, ¬ before plan a "Start") ∧
    (∃ start, dict_get "Start" (actions plan) = Some start ∧
              preconditions start = ∅) ∧
    (∀ b, ¬ before plan "Finish" b) ∧
    (∃ finish, dict_get "Finish" (actions plan) = Some finish ∧
               preconditions finish = goals).
Proof.
  intros Hv. destruct (build_pop_plan_shape set_iter Hv) as (links & -> & Hperm).
  eexists _, _, _, _. split; [done|].
  split; [apply build_domain_for_acc3_eq|].
  pose proof acc3_orderings_ends as Hends. rewrite Forall_forall in Hends.
  split; [intros a; by apply (plan_acyclic (with_links links) eq_refl)|].
  split; [intros a Ha; by destruct (Hends _ Ha)|].
  split; [apply acc3_start_finish|].
  split; [intros b Hb; by destruct (Hends _ Hb)|].
  apply acc3_start_finish.
Qed.

Lemma pop_orderings_acyclic_witness :
  ∃ plan initial_state domain_actions goals,
    build_pop_plan_for_acc3 iter_sorted = Ok plan ∧
    PlanningDomain.build_domain_for_acc3 = Ok (initial_state, domain_actions, goals) ∧
    (∀ a, ¬ tc (before plan) a a) ∧
    (∀ a, ¬ before plan a "Start") ∧
    (∃ start, dict_get "Start" (actions plan) = Some start ∧
              preconditions start = ∅) ∧
    (∀ b, ¬ before plan "Finish" b) ∧
    (∃ finish, dict_get "Finish" (actions plan) = Some finish ∧
               preconditions finish = goals).
Proof.
  apply (pop_orderings_acyclic iter_sorted).
  intros s. reflexivity.
Defined.

(** C2 (amended): for every action [A] of the plan other than Finish and
    every precondition [p] of [A], other than the precondition
    AmbulanceFree(A1) of StartTransport: if some action ordered before [A]
    has [p] among its effects, then the causal links contain a triple
    [(producer, p, A)] whose producer is ordered before [A] and has [p]
    among its effects.  No causal link has Finish as its consumer, and none
    supplies AmbulanceFree(A1) to StartTransport. *)
Theorem pop_causal_links_coverage (set_iter : PropSet → list Proposition) :
  valid_set_iter set_iter →
  ∃ plan,
    build_pop_plan_for_acc3 set_iter = Ok plan ∧
    (∀ A p,
       A ∈ dict_keys (actions plan) →
       A ≠ "Finish" →
       (A, p) ≠ ("StartTransport", "AmbulanceFree(A1)") →
       p ∈ preconditions_of plan A →
       (∃ B, tc (before plan) B A ∧ p ∈ effects_of plan B) →
       ∃ producer,
         (producer, p, A) ∈ causal_links plan ∧
         tc (before plan) producer A ∧
         p ∈ effects_of plan producer) ∧
    (∀ producer p, (producer, p, "Finish") ∉ causal_links plan) ∧
    (∀ producer,
       (producer, "AmbulanceFree(A1)", "StartTransport") ∉ causal_links plan).
Proof.
  intros Hv. destruct (build_pop_plan_shape set_iter Hv) as (links & -> & Hperm).
  eexists. split; [done|]. split; [|split].
  - intros A p HA HF Hex Hp Hprod.
    by apply (plan_links_coverage (with_links links) eq_refl eq_refl Hperm).
  - intros producer p.
    by destruct (plan_links_absent (with_links links) Hperm producer p).
  - intros producer.
    by destruct (plan_links_absent (with_links links) Hperm producer "").
Qed.

Lemma pop_causal_links_coverage_witness :
  ∃ plan,
    build_pop_plan_for_acc3 iter_sorted = Ok plan ∧
    (∀ A p,
       A ∈ dict_keys (actions plan) →
       A ≠ "Finish" →
       (A, p) ≠ ("StartTransport", "AmbulanceFree(A1)") →
       p ∈ preconditions_of plan A →
       (∃ B, tc (before plan) B A ∧ p ∈ effects_of plan B) →
       ∃ producer,
         (producer, p, A) ∈ causal_links plan ∧
         tc (before plan) producer A ∧
         p ∈ effects_of plan producer) ∧
    (∀ producer p, (producer, p, "Finish") ∉ causal_links plan) ∧
    (∀ producer,
       (producer, "AmbulanceFree(A1)", "StartTransport") ∉ causal_links plan).
Proof.
  apply (pop_causal_links_coverage iter_sorted).
  intros s. reflexivity.
Defined.

(** C2 as first stated fails on the returned plan: DeliverH1 is ordered
    before Finish and has the goal AccidentServed(ACC3) among its effects,
    yet no causal link supplies that precondition to Finish; likewise Start
    is ordered before StartTransport and has AmbulanceFree(A1) among its
    effects, and no causal link supplies it. *)
Lemma pop_causal_links_counterexample :
  ∃ plan,
    build_pop_plan_for_acc3 iter_sorted = Ok plan ∧
    "Finish" ∈ dict_keys (actions plan) ∧
    "AccidentServed(ACC3)" ∈ preconditions_of plan "Finish" ∧
    before plan "DeliverH1" "Finish" ∧
    "AccidentServed(ACC3)" ∈ effects_of plan "DeliverH1" ∧
    (∀ producer, (producer, "AccidentServed(ACC3)", "Finish") ∉ causal_links plan) ∧
    "StartTransport" ∈ dict_keys (actions plan) ∧
    "AmbulanceFree(A1)" ∈ preconditions_of plan "StartTransport" ∧
    before plan "Start" "StartTransport" ∧
    "AmbulanceFree(A1)" ∈ effects_of plan "Start" ∧
    (∀ producer,
       (producer, "AmbulanceFree(A1)", "StartTransport") ∉ causal_links plan) ∧
    ¬ causal_links_complete plan.
Proof.
  exists acc3_pop_plan.
  assert (∀ producer p, (producer, p, "Finish") ∉ causal_links acc3_pop_plan) as HF.
  { intros producer p.
    by destruct (plan_links_absent acc3_pop_plan (reflexivity _) producer p). }
  split; [apply build_pop_plan_iter_sorted|].
  do 4 (split; [by_evaluation|]).
  split; [intros producer; apply HF|].
  do 4 (split; [by_evaluation|]).
  split.
  { intros producer.
    by destruct (plan_links_absent acc3_pop_plan (reflexivity _) producer ""). }
  intros Hcomplete.
  destruct (Hcomplete "Finish" "AccidentServed(ACC3)") as (producer & Hl & _).
  - by_evaluation.
  - by_evaluation.
  - exists "DeliverH1". split; [apply tc_once|]; by_evaluation.
  - by apply HF in Hl.
Qed.

End PopFacts.

(** ** More on the planning-graph builder *)

Module BuildMore.
Import PlanningDomain GraphPlan.
Import BuildFacts.

Section Layers.
Context (initial_state : PropSet) (actions : list Action) (goals : PropSet).

Local Abbreviation P := (prop_layer initial_state actions).
Local Abbreviation A := (action_layer initial_state actions).

Lemma applicable_actions_elem_of (props : PropSet) (a : Action) :
  a ∈ applicable_actions actions props ↔ preconditions a ⊆ props ∧ a ∈ actions.
Proof. unfold applicable_actions. by rewrite list_elem_of_filter. Qed.

(** Nothing enters a layer but the initial facts and add-effects. *)
Lemma prop_layer_bounded (k : nat) :
  P k ⊆ initial_state ∪ ⋃ (add_effects <$> actions).
Proof.
  induction k as [|k IH]; [apply union_subseteq_l|].
  cbn [prop_layer]. apply union_least; [done|].
  intros p (X & (a & -> & Ha)%list_elem_of_fmap & Hp)%elem_of_union_list.
  apply applicable_actions_elem_of in Ha as [_ Ha].
  apply elem_of_union_r, elem_of_union_list.
  exists (add_effects a). split; [by apply list_elem_of_fmap_2|done].
Qed.

Lemma prop_layer_initial (k : nat) : initial_state ⊆ P k.
Proof. apply (prop_layer_mono_le initial_state actions 0 k). lia. Qed.

(** Once a layer repeats, all later layers repeat. *)
Lemma prop_layer_saturated (k : nat) :
  P (S k) = P k → ∀ j, k ≤ j → P j = P k.
Proof.
  intros Hsat j Hj. induction Hj as [|j Hj IH]; [done|].
  cbn [prop_layer]. rewrite IH. exact Hsat.
Qed.

Lemma build_fails_iff (max_levels : nat) :
  build_plan_graph initial_state actions goals max_levels = Err PlanNotFound ↔
  ∀ j, 1 ≤ j ≤ max_levels → ¬ goals ⊆ P j.
Proof.
  rewrite <- build_plan_graph_steps_fst.
  destruct (build_plan_graph_spec initial_state actions goals max_levels)
    as [(k & Hk & Hgk & Hmin & ->)|[Hnone ->]]; simpl.
  - split; [done|]. intros Hnone. exfalso. by apply (Hnone k).
  - done.
Qed.

Lemma build_error_is_PlanNotFound (max_levels : nat) (e : error) :
  build_plan_graph initial_state actions goals max_levels = Err e → e = PlanNotFound.
Proof.
  rewrite <- build_plan_graph_steps_fst.
  destruct (build_plan_graph_spec initial_state actions goals max_levels)
    as [(k & Hk & Hgk & Hmin & ->)|[Hnone ->]]; simpl; congruence.
Qed.

Lemma build_succeeds_at (max_levels k : nat) :
  1 ≤ k ≤ max_levels → goals ⊆ P k → (∀ j, 1 ≤ j < k → ¬ goals ⊆ P j) →
  build_plan_graph initial_state actions goals max_levels
  = Ok (graph_upto initial_state actions k, k).
Proof.
  intros Hk Hgk Hmin. rewrite <- build_plan_graph_steps_fst.
  destruct (build_plan_graph_spec initial_state actions goals max_levels)
    as [(k' & Hk' & Hgk' & Hmin' & ->)|[Hnone ->]]; simpl.
  - assert (k' = k) as ->; [|done].
    destruct (decide (k' < k)); [exfalso; apply (Hmin k'); [lia|done]|].
    destruct (decide (k < k')); [exfalso; apply (Hmin' k); [lia|done]|]. lia.
  - exfalso. by apply (Hnone k).
Qed.

Lemma build_succeeds_when_covered (max_levels k : nat) :
  1 ≤ k ≤ max_levels → goals ⊆ P k →
  ∃ n, 1 ≤ n ≤ k ∧ goals ⊆ P n ∧
       build_plan_graph initial_state actions goals max_levels
       = Ok (graph_upto initial_state actions n, n).
Proof.
  intros Hk Hgk. rewrite <- build_plan_graph_steps_fst.
  destruct (build_plan_graph_spec initial_state actions goals max_levels)
    as [(n & Hn & Hgn & Hmin & ->)|[Hnone ->]]; simpl.
  - exists n. split; [|done].
    destruct (decide (n ≤ k)); [lia|].
    exfalso. apply (Hmin k); [lia|done].
  - exfalso. by apply (Hnone k).
Qed.

End Layers.

(** X1: a goal proposition that is neither in the initial state nor among
    the add-effects of any action makes [build_plan_graph] raise
    [PlanNotFound], whatever the level budget. *)
Theorem build_plan_graph_unreachable_goal
    (initial_state : PropSet) (actions : list Action) (goals : PropSet)
    (g : Proposition) (max_levels : nat) :
  g ∈ goals →
  g ∉ initial_state →
  (∀ a, a ∈ actions → g ∉ add_effects a) →
  build_plan_graph initial_state actions goals max_levels = Err PlanNotFound.
Proof.
  intros Hg Hinit Hadd. apply build_fails_iff. intros j _ Hcover.
  apply Hcover, (prop_layer_bounded initial_state actions j) in Hg.
  apply elem_of_union in Hg as [?|Hg]; [done|].
  apply elem_of_union_list in Hg as (X & (a & -> & Ha)%list_elem_of_fmap & Hp).
  by apply (Hadd a).
Qed.

Lemma build_plan_graph_unreachable_goal_witness :
  build_plan_graph PlanSpec.acc3_initial_state PlanSpec.acc3_actions
    {[ "PatientAt(ACC3, H3)" ]} 100
  = Err PlanNotFound.
Proof.
  apply (build_plan_graph_unreachable_goal _ _ _ "PatientAt(ACC3, H3)").
  - apply (bool_decide_unpack _). vm_compute. exact I.
  - apply (bool_decide_unpack _). vm_compute. exact I.
  - apply Forall_forall. apply (bool_decide_unpack _). vm_compute. exact I.
Defined.

(** X2: a larger level budget never changes a successful result, and a
    failure under a budget is a failure under every smaller one. *)
Theorem build_plan_graph_budget_monotone
    (initial_state : PropSet) (actions : list Action) (goals : PropSet)
    (m m' : nat) :
  m ≤ m' →
  (∀ r, build_plan_graph initial_state actions goals m = Ok r →
        build_plan_graph initial_state actions goals m' = Ok r) ∧
  (∀ e, build_plan_graph initial_state actions goals m' = Err e →
        build_plan_graph initial_state actions goals m = Err PlanNotFound).
Proof.
  intros Hm. split.
  - intros [pg n] Hb. apply build_plan_graph_ok_inv in Hb as (-> & Hn & Hg & Hmin).
    apply build_succeeds_at; [lia|done|done].
  - intros e He. pose proof (build_error_is_PlanNotFound _ _ _ _ _ He) as ->.
    apply build_fails_iff. intros j Hj.
    apply (proj1 (build_fails_iff _ _ _ _) He). lia.
Qed.

Lemma build_plan_graph_budget_monotone_witness :
  (∀ r, build_plan_graph PlanSpec.acc3_initial_state PlanSpec.acc3_actions
          PlanSpec.acc3_goals 3 = Ok r →
        build_plan_graph PlanSpec.acc3_initial_state PlanSpec.acc3_actions
          PlanSpec.acc3_goals 8 = Ok r) ∧
  (∀ e, build_plan_graph PlanSpec.acc3_initial_state PlanSpec.acc3_actions
          PlanSpec.acc3_goals 8 = Err e →
        build_plan_graph PlanSpec.acc3_initial_state PlanSpec.acc3_actions
          PlanSpec.acc3_goals 3 = Err PlanNotFound).
Proof.
  apply (build_plan_graph_budget_monotone
           PlanSpec.acc3_initial_state PlanSpec.acc3_actions PlanSpec.acc3_goals 3 8).
  lia.
Defined.

(** X3: when the expansion stops adding propositions (two consecutive
    layers are equal) and the builder has failed with a budget that reaches
    that point, it fails with every budget. *)
Theorem build_plan_graph_saturation
    (initial_state : PropSet) (actions : list Action) (goals : PropSet)
    (k : nat) (e : error) :
  prop_layer initial_state actions (S k) = prop_layer initial_state actions k →
  build_plan_graph initial_state actions goals (S k) = Err e →
  ∀ max_levels,
    build_plan_graph initial_state actions goals max_levels = Err PlanNotFound.
Proof.
  intros Hsat He max_levels.
  pose proof (build_error_is_PlanNotFound _ _ _ _ _ He) as ->.
  apply build_fails_iff. intros j Hj Hcover.
  destruct (decide (j ≤ S k)) as [Hle|Hgt].
  - apply (proj1 (build_fails_iff _ _ _ _) He j); [lia|done].
  - rewrite (prop_layer_saturated _ _ k Hsat j) in Hcover by lia.
    rewrite <- Hsat in Hcover.
    apply (proj1 (build_fails_iff _ _ _ _) He (S k)); [lia|done].
Qed.

Lemma build_plan_graph_saturation_witness :
  build_plan_graph {[ "p" ]} [] {[ "q" ]} 100 = Err PlanNotFound.
Proof.
  apply (build_plan_graph_saturation {[ "p" ]} [] {[ "q" ]} 0 PlanNotFound).
  - apply (bool_decide_unpack _). vm_compute. exact I.
  - apply (bool_decide_unpack _). vm_compute. exact I.
Defined.

Lemma filter_sublist_impl {X} (Q1 Q2 : X → Prop)
    `{∀ x, Decision (Q1 x)} `{∀ x, Decision (Q2 x)} (l : list X) :
  (∀ x, Q1 x → Q2 x) → filter Q1 l `sublist_of` filter Q2 l.
Proof.
  intros Himpl. induction l as [|x l IH]; [done|].
  rewrite !filter_cons. destruct (decide (Q1 x)) as [H1|H1].
  - rewrite decide_True by auto. by apply sublist_skip.
  - destruct (decide (Q2 x)); [by apply sublist_cons|done].
Qed.

(** X4: in the graph of a successful call the action layers grow: each is
    a sublist of the next, and all are sublists of the input action list. *)
Theorem build_plan_graph_action_layers_grow
    (initial_state : PropSet) (actions : list Action) (goals : PropSet)
    (max_levels : nat) (pg : PlanGraph) (n : nat) :
  build_plan_graph initial_state actions goals max_levels = Ok (pg, n) →
  (∀ i Ai, action_layers pg !! i = Some Ai → Ai `sublist_of` actions) ∧
  (∀ i Ai Aj, action_layers pg !! i = Some Ai →
              action_layers pg !! S i = Some Aj → Ai `sublist_of` Aj).
Proof.
  intros Hb. apply build_plan_graph_ok_inv in Hb as (-> & _).
  split.
  - intros i Ai Hi.
    assert (i < n) as Hlt.
    { apply lookup_lt_Some in Hi. simpl in Hi.
      by rewrite length_fmap, length_seq in Hi. }
    rewrite graph_upto_action_lookup in Hi by done. injection Hi as <-.
    apply sublist_filter.
  - intros i Ai Aj Hi Hj.
    assert (S i < n) as Hlt.
    { apply lookup_lt_Some in Hj. simpl in Hj.
      by rewrite length_fmap, length_seq in Hj. }
    rewrite graph_upto_action_lookup in Hi by lia.
    rewrite graph_upto_action_lookup in Hj by lia.
    injection Hi as <-. injection Hj as <-.
    unfold action_layer, applicable_actions.
    apply filter_sublist_impl. intros a Ha. etrans; [exact Ha|].
    apply prop_layer_mono.
Qed.

Lemma build_plan_graph_action_layers_grow_witness :
  (∀ i Ai,
     action_layers (graph_upto PlanSpec.acc3_initial_state PlanSpec.acc3_actions 3) !! i
     = Some Ai → Ai `sublist_of` PlanSpec.acc3_actions) ∧
  (∀ i Ai Aj,
     action_layers (graph_upto PlanSpec.acc3_initial_state PlanSpec.acc3_actions 3) !! i
     = Some Ai →
     action_layers (graph_upto PlanSpec.acc3_initial_state PlanSpec.acc3_actions 3) !! S i
     = Some Aj → Ai `sublist_of` Aj).
Proof.
  apply (build_plan_graph_action_layers_grow PlanSpec.acc3_initial_state
           PlanSpec.acc3_actions PlanSpec.acc3_goals 8
           (graph_upto PlanSpec.acc3_initial_state PlanSpec.acc3_actions 3) 3).
  apply (bool_decide_unpack _). vm_compute. exact I.
Defined.

(** X5: every proposition layer of a returned graph contains the initial
    state and holds nothing but initial facts and add-effects of the input
    actions; in particular delete effects and preconditions add nothing. *)
Theorem build_plan_graph_layers_bounded
    (initial_state : PropSet) (actions : list Action) (goals : PropSet)
    (max_levels : nat) (pg : PlanGraph) (n : nat) :
  build_plan_graph initial_state actions goals max_levels = Ok (pg, n) →
  ∀ i Pi, proposition_layers pg !! i = Some Pi →
    initial_state ⊆ Pi ∧ Pi ⊆ initial_state ∪ ⋃ (add_effects <$> actions).
Proof.
  intros Hb i Pi Hi. apply build_plan_graph_ok_inv in Hb as (-> & _).
  assert (i ≤ n) as Hle.
  { apply lookup_lt_Some in Hi. simpl in Hi.
    rewrite length_fmap, length_seq in Hi. lia. }
  rewrite graph_upto_prop_lookup in Hi by done. injection Hi as <-.
  split; [apply prop_layer_initial|apply prop_layer_bounded].
Qed.

Lemma build_plan_graph_layers_bounded_witness :
  PlanSpec.acc3_initial_state
    ⊆ prop_layer PlanSpec.acc3_initial_state PlanSpec.acc3_actions 3 ∧
  prop_layer PlanSpec.acc3_initial_state PlanSpec.acc3_actions 3
    ⊆ PlanSpec.acc3_initial_state ∪ ⋃ (add_effects <$> PlanSpec.acc3_actions).
Proof.
  apply (build_plan_graph_layers_bounded PlanSpec.acc3_initial_state
           PlanSpec.acc3_actions PlanSpec.acc3_goals 8
           (graph_upto PlanSpec.acc3_initial_state PlanSpec.acc3_actions 3) 3)
    with (i := 3).
  - apply (bool_decide_unpack _). vm_compute. exact I.
  - apply (bool_decide_unpack _). vm_compute. exact I.
Defined.

(** X6: when no action is applicable in the initial state the graph cannot
    grow: the builder succeeds, at index 1, exactly when the goals already
    hold initially and the budget is at least 1, and raises otherwise. *)
Theorem build_plan_graph_nothing_applicable
    (initial_state : PropSet) (actions : list Action) (goals : PropSet)
    (max_levels : nat) :
  (∀ a, a ∈ actions → ¬ preconditions a ⊆ initial_state) →
  (goals ⊆ initial_state → 1 ≤ max_levels →
   build_plan_graph initial_state actions goals max_levels
   = Ok ({| proposition_layers := [initial_state; initial_state];
            action_layers := [[]] |}, 1)) ∧
  (¬ (goals ⊆ initial_state ∧ 1 ≤ max_levels) →
   build_plan_graph initial_state actions goals max_levels = Err PlanNotFound).
Proof.
  intros Hnone.
  assert (applicable_actions actions initial_state = []) as Hnil.
  { apply elem_of_nil_inv. intros a [Hpre Ha]%applicable_actions_elem_of.
    by apply (Hnone a). }
  assert (prop_layer initial_state actions 1 = initial_state) as H1.
  { cbn [prop_layer]. rewrite Hnil. simpl. apply (right_id_L ∅ (∪)). }
  split.
  - intros Hg Hm. rewrite (build_succeeds_at _ _ _ max_levels 1); [| lia | by rewrite H1 | intros j Hj; lia].
    unfold graph_upto. simpl seq. rewrite !fmap_cons, !fmap_nil.
    unfold action_layer. cbn [prop_layer]. rewrite Hnil. simpl.
    by rewrite (right_id_L ∅ (∪)).
  - intros Hno. apply build_fails_iff. intros j Hj Hcover.
    rewrite (prop_layer_saturated initial_state actions 0) in Hcover by (done || lia).
    apply Hno. simpl in Hcover. split; [done|lia].
Qed.

Lemma build_plan_graph_nothing_applicable_witness :
  build_plan_graph {[ "p" ]} [] {[ "p" ]} 2
  = Ok ({| proposition_layers := [{[ "p" ]}; {[ "p" ]}]; action_layers := [[]] |}, 1) ∧
  build_plan_graph {[ "p" ]} [] {[ "q" ]} 2 = Err PlanNotFound.
Proof.
  split.
  - apply (build_plan_graph_nothing_applicable {[ "p" ]} [] {[ "p" ]} 2);
      [intros a Ha; apply elem_of_nil in Ha; destruct Ha|reflexivity|lia].
  - apply (build_plan_graph_nothing_applicable {[ "p" ]} [] {[ "q" ]} 2);
      [intros a Ha; apply elem_of_nil in Ha; destruct Ha|].
    intros [Hsub _]. revert Hsub.
    apply (bool_decide_eq_false_1 _). vm_compute. reflexivity.
Defined.

Lemma prop_layer_monotone_inputs
    (init init' : PropSet) (actions actions' : list Action) (k : nat) :
  init ⊆ init' →
  (∀ a, a ∈ actions → a ∈ actions') →
  prop_layer init actions k ⊆ prop_layer init' actions' k.
Proof.
  intros Hinit Hacts. induction k as [|k IH]; [done|].
  cbn [prop_layer]. apply union_least.
  - etrans; [exact IH|]. apply union_subseteq_l.
  - intros p (X & (a & -> & Ha)%list_elem_of_fmap & Hp)%elem_of_union_list.
    apply applicable_actions_elem_of in Ha as [Hpre Ha].
    apply elem_of_union_r, elem_of_union_list. exists (add_effects a).
    split; [|done]. apply list_elem_of_fmap_2, applicable_actions_elem_of.
    split; [by etrans|by apply Hacts].
Qed.

(** X22: the relaxed expansion is monotone in its inputs: with more initial
    facts, more actions and fewer goals, a call that succeeded still
    succeeds, and reports an index that is no larger. *)
Theorem build_plan_graph_monotone
    (init init' : PropSet) (actions actions' : list Action) (goals goals' : PropSet)
    (max_levels : nat) (pg : PlanGraph) (n : nat) :
  init ⊆ init' →
  (∀ a, a ∈ actions → a ∈ actions') →
  goals' ⊆ goals →
  build_plan_graph init actions goals max_levels = Ok (pg, n) →
  ∃ pg' n',
    build_plan_graph init' actions' goals' max_levels = Ok (pg', n') ∧ n' ≤ n.
Proof.
  intros Hinit Hacts Hgoals Hb.
  apply build_plan_graph_ok_inv in Hb as (_ & Hn & Hg & _).
  destruct (build_succeeds_when_covered init' actions' goals' max_levels n)
    as (n' & Hn' & _ & Hb'); [done| |].
  - etrans; [exact Hgoals|]. etrans; [exact Hg|].
    by apply prop_layer_monotone_inputs.
  - exists (graph_upto init' actions' n'), n'. split; [done|lia].
Qed.

Lemma build_plan_graph_monotone_witness :
  ∃ pg' n',
    build_plan_graph (PlanSpec.acc3_initial_state ∪ {[ "HospitalNotified(H1)" ]})
      PlanSpec.acc3_actions {[ "AccidentServed(ACC3)" ]} 8 = Ok (pg', n') ∧
    n' ≤ 3.
Proof.
  apply (build_plan_graph_monotone PlanSpec.acc3_initial_state _
           PlanSpec.acc3_actions _ PlanSpec.acc3_goals _ 8
           (graph_upto PlanSpec.acc3_initial_state PlanSpec.acc3_actions 3) 3).
  - apply union_subseteq_l.
  - intros a Ha. exact Ha.
  - apply (bool_decide_unpack _). vm_compute. exact I.
  - apply (bool_decide_unpack _). vm_compute. exact I.
Defined.

End BuildMore.

(** ** More on the linear-plan extractor *)

Module ExtractMore.
Import PlanningDomain GraphPlan PlanSpec.
Import DomainFacts BuildFacts ExtractFacts StrictPlanFacts.

(** *** The removal of duplicates *)

Lemma dedup_from_elem_of seen l a :
  a ∈ dedup_from seen l → (name a ∉ seen) ∧ a ∈ l.
Proof.
  revert seen. induction l as [|x l IH]; intros seen; cbn [dedup_from].
  - by intros ?%elem_of_nil.
  - case_decide as Hx.
    + intros [? ?]%IH. split; [done|by right].
    + intros [->|[Hs ?]%IH]%elem_of_cons; [split; [done|left]|].
      split; [|by right]. intros ?. apply Hs. by apply elem_of_union_l.
Qed.

Lemma dedup_from_NoDup seen l : NoDup (name <$> dedup_from seen l).
Proof.
  revert seen. induction l as [|x l IH]; intros seen; cbn [dedup_from].
  - constructor.
  - case_decide as Hx; [apply IH|].
    rewrite fmap_cons. apply NoDup_cons. split; [|apply IH].
    intros (b & Hb & [Hs _]%dedup_from_elem_of)%list_elem_of_fmap.
    apply Hs. rewrite Hb. apply elem_of_union_r. by apply elem_of_singleton.
Qed.

Lemma dedup_from_sublist seen l : dedup_from seen l `sublist_of` l.
Proof.
  revert seen. induction l as [|x l IH]; intros seen; cbn [dedup_from]; [done|].
  case_decide; [by apply sublist_cons|by apply sublist_skip].
Qed.

Lemma dedup_from_names seen l a :
  a ∈ l → name a ∈ seen ∨ name a ∈ name <$> dedup_from seen l.
Proof.
  revert seen. induction l as [|x l IH]; intros seen; cbn [dedup_from].
  - by intros ?%elem_of_nil.
  - intros [->|Ha]%elem_of_cons.
    + case_decide; [by left|]. right. rewrite fmap_cons. left.
    + case_decide as Hx; [by apply IH|].
      destruct (IH (seen ∪ {[name x]}) Ha) as [[?| ->%elem_of_singleton]%elem_of_union|?].
      * by left.
      * right. rewrite fmap_cons. left.
      * right. rewrite fmap_cons. by right.
Qed.

Lemma dedup_from_first seen l a :
  a ∈ dedup_from seen l →
  ∃ l1 l2, l = l1 ++ a :: l2 ∧ name a ∉ name <$> l1.
Proof.
  revert seen. induction l as [|x l IH]; intros seen; cbn [dedup_from].
  - by intros ?%elem_of_nil.
  - case_decide as Hx.
    + intros Ha. pose proof Ha as [Hs _]%dedup_from_elem_of.
      destruct (IH _ Ha) as (l1 & l2 & -> & Hl1).
      exists (x :: l1), l2. split; [done|].
      rewrite fmap_cons. intros [E|?]%elem_of_cons; [|done].
      apply Hs. by rewrite E.
    + intros [->|Ha]%elem_of_cons.
      * exists [], l. split; [done|]. by intros ?%elem_of_nil.
      * pose proof Ha as [Hs _]%dedup_from_elem_of.
        destruct (IH _ Ha) as (l1 & l2 & -> & Hl1).
        exists (x :: l1), l2. split; [done|].
        rewrite fmap_cons. intros [E|?]%elem_of_cons; [|done].
        apply Hs. rewrite E. apply elem_of_union_r. by apply elem_of_singleton.
Qed.

Lemma dedup_from_fresh seen l :
  NoDup (name <$> l) → (∀ a, a ∈ l → name a ∉ seen) → dedup_from seen l = l.
Proof.
  revert seen. induction l as [|x l IH]; intros seen Hnd Hseen; [done|].
  rewrite fmap_cons in Hnd. apply NoDup_cons in Hnd as [Hx Hnd].
  cbn [dedup_from]. rewrite decide_False by (apply Hseen; left).
  f_equal. apply IH; [done|].
  intros a Ha [Hs|Hs%elem_of_singleton]%elem_of_union.
  - by apply (Hseen a); [right|].
  - apply Hx. rewrite <- Hs. by apply list_elem_of_fmap_2.
Qed.

(** X7: the final loop of [extract_linear_plan] returns a sublist of its
    input in which no name repeats, every name of the input still occurs,
    and each action kept is the first of the input with its name; a list
    without repeated names is returned unchanged. *)
Theorem remove_duplicates_keeps_first (chosen_actions : list Action) :
  remove_duplicates chosen_actions `sublist_of` chosen_actions ∧
  NoDup (name <$> remove_duplicates chosen_actions) ∧
  (∀ a, a ∈ chosen_actions → name a ∈ name <$> remove_duplicates chosen_actions) ∧
  (∀ a, a ∈ remove_duplicates chosen_actions →
        ∃ l1 l2, chosen_actions = l1 ++ a :: l2 ∧ name a ∉ name <$> l1) ∧
  (NoDup (name <$> chosen_actions) → remove_duplicates chosen_actions = chosen_actions).
Proof.
  rewrite remove_duplicates_eq.
  split; [apply dedup_from_sublist|]. split; [apply dedup_from_NoDup|].
  split.
  { intros a Ha. by destruct (dedup_from_names ∅ _ _ Ha) as [?%not_elem_of_empty|?]. }
  split; [intros a; apply dedup_from_first|].
  intros Hnd. apply dedup_from_fresh; [done|]. intros a _. apply not_elem_of_empty.
Qed.

(** *** The walk on an arbitrary graph *)

Lemma for_each_invariant {S X} (body : S → X → result S) (I : S → Prop) xs :
  (∀ st x st', I st → body st x = Ok st' → I st') →
  ∀ st st', I st → for_each body st xs = Ok st' → I st'.
Proof.
  intros Hbody. induction xs as [|x xs IH]; intros st st' HI; simpl.
  - by intros [= <-].
  - destruct (body st x) as [st1|e] eqn:E; [|done]. simpl.
    apply IH. by eapply Hbody.
Qed.

Lemma extract_linear_plan_inv set_iter pg idx goals plan :
  extract_linear_plan set_iter pg idx goals = Ok plan →
  ∃ chosen current_goals,
    for_each (level_step set_iter pg) ([], goals) (range_down idx)
    = Ok (chosen, current_goals) ∧
    plan = remove_duplicates (reverse chosen).
Proof.
  unfold extract_linear_plan.
  destruct (for_each _ _ _) as [[chosen G]|e]; [|done].
  simpl. intros [= <-]. eauto.
Qed.

(** X8: a plan returned by [extract_linear_plan], for any graph, index,
    goal set and iteration order, repeats no action name. *)
Theorem extract_linear_plan_no_duplicate_names
    (set_iter : PropSet → list Proposition)
    (pg : PlanGraph) (goal_layer_index : nat) (goals : PropSet) (plan : list Action) :
  extract_linear_plan set_iter pg goal_layer_index goals = Ok plan →
  NoDup (name <$> plan).
Proof.
  intros (chosen & G & _ & ->)%extract_linear_plan_inv.
  rewrite remove_duplicates_eq. apply dedup_from_NoDup.
Qed.

Lemma extract_linear_plan_no_duplicate_names_witness :
  NoDup (name <$> [ {| name := "Act"; preconditions := ∅;
                       add_effects := {[ "p" ]}; del_effects := ∅ |} ]).
Proof.
  apply (extract_linear_plan_no_duplicate_names iter_sorted
           (graph_upto ∅ shared_name_actions 2) 2 {[ "g" ]}).
  apply (bool_decide_unpack _). vm_compute. exact I.
Defined.

Lemma range_down_elem_of idx level : level ∈ range_down idx → 1 ≤ level ≤ idx.
Proof.
  unfold range_down. rewrite elem_of_reverse, elem_of_seq. lia.
Qed.

Lemma goal_step_inv pl level acts chosen sub g chosen' sub' :
  goal_step pl level acts (chosen, sub) g = Ok (chosen', sub') →
  ∃ props, pl !! (level - 1) = Some props ∧
    (chosen' = chosen ∨
     ∃ a, chosen' = chosen ++ [a] ∧ a ∈ acts ∧ g ∈ add_effects a ∧ g ∉ props).
Proof.
  unfold goal_step, index.
  destruct (pl !! (level - 1)) as [props|]; [|done]. simpl.
  intros H. exists props. split; [done|]. revert H.
  case_decide as Hg; [intros [= <- <-]; by left|].
  destruct (find_supporter acts g) as [a|] eqn:Ea; intros [= <- <-]; [|by left].
  right. exists a. apply find_supporter_Some in Ea as [? ?]. done.
Qed.

(** What one level adds to the chosen actions. *)
Lemma level_step_inv set_iter pg chosen current_goals level chosen' goals' :
  level_step set_iter pg (chosen, current_goals) level = Ok (chosen', goals') →
  ∃ acts, action_layers pg !! (level - 1) = Some acts ∧
    ∀ a, a ∈ chosen' →
      a ∈ chosen ∨
      (a ∈ acts ∧
       ∃ g props, proposition_layers pg !! (level - 1) = Some props ∧
                  g ∈ add_effects a ∧ g ∉ props).
Proof.
  unfold level_step, index.
  destruct (action_layers pg !! (level - 1)) as [acts|]; [|done]. simpl.
  destruct (for_each _ _ _) as [[c s]|e] eqn:E; [|done]. simpl.
  intros [= <- <-]. exists acts. split; [done|].
  revert E.
  apply (for_each_invariant _
           (λ st, ∀ a, a ∈ st.1 → a ∈ chosen ∨
              (a ∈ acts ∧ ∃ g props, proposition_layers pg !! (level - 1) = Some props ∧
                                     g ∈ add_effects a ∧ g ∉ props))
           (set_iter current_goals)); [|by left].
  intros [c1 s1] g [c2 s2] HI (props & Hp & [->|(a & -> & Ha & Hg & Hn)])%goal_step_inv;
    [done|].
  simpl. intros b [Hb| ->%list_elem_of_singleton]%elem_of_app; [by apply HI|].
  right. split; [done|]. eauto.
Qed.

(** X9: every action of an extracted plan was taken from an action layer of
    the graph below the goal index, and adds a proposition that is absent
    from the proposition layer of that level. *)
Theorem extract_linear_plan_provenance
    (set_iter : PropSet → list Proposition)
    (pg : PlanGraph) (goal_layer_index : nat) (goals : PropSet) (plan : list Action) :
  extract_linear_plan set_iter pg goal_layer_index goals = Ok plan →
  ∀ a, a ∈ plan →
    ∃ i layer props g,
      i < goal_layer_index ∧
      action_layers pg !! i = Some layer ∧ a ∈ layer ∧
      proposition_layers pg !! i = Some props ∧
      g ∈ add_effects a ∧ g ∉ props.
Proof.
  intros (chosen & G & Hwalk & ->)%extract_linear_plan_inv a Ha.
  assert (a ∈ chosen) as Hc.
  { rewrite remove_duplicates_eq in Ha.
    apply dedup_from_elem_of in Ha as [_ Ha]. by rewrite elem_of_reverse in Ha. }
  clear Ha. revert a Hc.
  change chosen with (chosen, G).1.
  revert Hwalk. generalize (chosen, G). intros st Hwalk.
  assert (∀ a, a ∈ ([], goals).1 →
            ∃ i layer props g,
              i < goal_layer_index ∧
              action_layers pg !! i = Some layer ∧ a ∈ layer ∧
              proposition_layers pg !! i = Some props ∧
              g ∈ add_effects a ∧ g ∉ props) as Hstart.
  { by intros a ?%elem_of_nil. }
  revert Hstart Hwalk. generalize ([] : list Action, goals).
  pose proof (range_down_elem_of goal_layer_index) as Hrange.
  revert Hrange. generalize (range_down goal_layer_index). intros levels.
  induction levels as [|level levels IH]; intros Hrange st0 Hstart; simpl.
  - by intros [= <-].
  - destruct (level_step set_iter pg st0 level) as [[c1 G1]|e] eqn:E; [|done].
    simpl. apply IH; [intros l Hl; apply Hrange; by right|].
    destruct st0 as [c0 G0].
    apply level_step_inv in E as (acts & Hacts & Hall).
    intros a [?|(Ha & g & props & Hp & Hg & Hn)]%Hall; [by apply Hstart|].
    exists (level - 1), acts, props, g.
    pose proof (Hrange level ltac:(left)). split; [lia|done].
Qed.

Lemma extract_linear_plan_provenance_witness :
  ∃ i layer props g,
    i < 2 ∧
    action_layers (graph_upto ∅ shared_name_actions 2) !! i = Some layer ∧
    mkAction "Act" ∅ {[ "p" ]} ∅ ∈ layer ∧
    proposition_layers (graph_upto ∅ shared_name_actions 2) !! i = Some props ∧
    g ∈ add_effects (mkAction "Act" ∅ {[ "p" ]} ∅) ∧ (g ∉ props).
Proof.
  apply (extract_linear_plan_provenance iter_sorted
           (graph_upto ∅ shared_name_actions 2) 2 {[ "g" ]}
           [mkAction "Act" ∅ {[ "p" ]} ∅]).
  - apply (bool_decide_unpack _). vm_compute. exact I.
  - apply (bool_decide_unpack _). vm_compute. exact I.
Defined.

Lemma level_step_no_layer set_iter pg st level :
  action_layers pg !! (level - 1) = None →
  level_step set_iter pg st level = Err IndexError.
Proof.
  intros Hnone. destruct st as [c G]. unfold level_step, index.
  by rewrite Hnone.
Qed.

Lemma level_step_empty_goals set_iter pg chosen level :
  valid_set_iter set_iter →
  is_Some (action_layers pg !! (level - 1)) →
  level_step set_iter pg (chosen, ∅) level = Ok (chosen, ∅).
Proof.
  intros Hv [acts Hacts]. unfold level_step, index. rewrite Hacts, bind_Ok.
  assert (set_iter ∅ = []) as ->.
  { apply Permutation_nil_r. rewrite (Hv ∅). by rewrite elements_empty. }
  cbn [for_each]. rewrite bind_Ok. by rewrite (left_id_L ∅ (∪)).
Qed.

(** X10: edge cases of the index.  With goal index 0 the loop over levels
    is empty and the plan is empty; with a goal index beyond the number of
    action layers the first lookup raises [IndexError]; with an empty goal
    set the plan is empty on any graph that has enough action layers, without
    a single proposition layer being read. *)
Theorem extract_linear_plan_edge_cases
    (set_iter : PropSet → list Proposition)
    (pg : PlanGraph) (goal_layer_index : nat) (goals : PropSet) :
  extract_linear_plan set_iter pg 0 goals = Ok [] ∧
  (length (action_layers pg) < goal_layer_index →
   extract_linear_plan set_iter pg goal_layer_index goals = Err IndexError) ∧
  (valid_set_iter set_iter →
   goal_layer_index ≤ length (action_layers pg) →
   extract_linear_plan set_iter
     {| proposition_layers := []; action_layers := action_layers pg |}
     goal_layer_index ∅ = Ok []).
Proof.
  split; [done|]. split.
  - intros Hlen. destruct goal_layer_index as [|k]; [lia|].
    unfold extract_linear_plan. rewrite range_down_S. cbn [for_each].
    rewrite level_step_no_layer; [done|].
    apply lookup_ge_None_2. lia.
  - intros Hv Hlen. unfold extract_linear_plan.
    assert (for_each
              (level_step set_iter
                 {| proposition_layers := []; action_layers := action_layers pg |})
              ([], ∅) (range_down goal_layer_index) = Ok ([], ∅)) as ->; [|done].
    induction goal_layer_index as [|k IH]; [done|].
    rewrite range_down_S. cbn [for_each].
    rewrite level_step_empty_goals; [|done|].
    + rewrite bind_Ok. apply IH. lia.
    + apply lookup_lt_is_Some_2. cbn [action_layers]. lia.
Qed.

Lemma extract_linear_plan_edge_cases_witness :
  extract_linear_plan iter_sorted
    (graph_upto PlanSpec.acc3_initial_state PlanSpec.acc3_actions 3) 4 PlanSpec.acc3_goals
  = Err IndexError ∧
  extract_linear_plan iter_sorted
    {| proposition_layers := [];
       action_layers :=
         action_layers (graph_upto PlanSpec.acc3_initial_state PlanSpec.acc3_actions 3) |}
    3 ∅ = Ok [].
Proof.
  destruct (extract_linear_plan_edge_cases iter_sorted
              (graph_upto PlanSpec.acc3_initial_state PlanSpec.acc3_actions 3)
              4 PlanSpec.acc3_goals) as (_ & Hbeyond & _).
  destruct (extract_linear_plan_edge_cases iter_sorted
              (graph_upto PlanSpec.acc3_initial_state PlanSpec.acc3_actions 3)
              3 PlanSpec.acc3_goals) as (_ & _ & Hempty).
  split.
  - apply Hbeyond. vm_compute. lia.
  - apply Hempty; [intros s; reflexivity|vm_compute; lia].
Defined.

(** *** Plans from graphs built by [build_plan_graph] *)

Lemma picks_nil props acts gs :
  (∀ g, g ∈ gs → g ∈ props) → picks props acts gs = [].
Proof.
  intros Hall. induction gs as [|g gs IH]; [done|].
  unfold picks. cbn [omap list_omap]. unfold pick at 1.
  rewrite decide_True by (apply Hall; left).
  apply IH. intros g' Hg'. apply Hall. by right.
Qed.

(** X11: goals that already hold in the initial state cost nothing: the
    builder reports index 1 and the extractor returns the empty plan. *)
Theorem extract_linear_plan_goals_already_hold
    (set_iter : PropSet → list Proposition)
    (initial_state : PropSet) (actions : list Action) (goals : PropSet)
    (max_levels : nat) :
  valid_set_iter set_iter →
  goals ⊆ initial_state →
  1 ≤ max_levels →
  ∃ pg,
    build_plan_graph initial_state actions goals max_levels = Ok (pg, 1) ∧
    extract_linear_plan set_iter pg 1 goals = Ok [].
Proof.
  intros Hv Hg Hm. exists (graph_upto initial_state actions 1).
  split.
  - apply BuildMore.build_succeeds_at; [lia| |intros j Hj; lia].
    etrans; [exact Hg|]. apply (prop_layer_mono initial_state actions 0).
  - unfold extract_linear_plan. change (range_down 1) with [1]. cbn [for_each].
    rewrite (level_step_eq _ _ 1 (action_layer initial_state actions 0)
               (prop_layer initial_state actions 0)).
    + rewrite !bind_Ok. cbv beta iota zeta.
      rewrite picks_nil; [done|].
      intros g Hgi. apply Hg. by apply (set_iter_elem_of set_iter) in Hgi.
    + unfold index. by rewrite graph_upto_action_lookup by lia.
    + unfold index. by rewrite graph_upto_prop_lookup by lia.
Qed.

Lemma extract_linear_plan_goals_already_hold_witness :
  ∃ pg,
    build_plan_graph acc3_initial_state acc3_actions
      {[ "AmbulanceFree(A1)"; "Hospital(H1)" ]} 8 = Ok (pg, 1) ∧
    extract_linear_plan iter_sorted pg 1 {[ "AmbulanceFree(A1)"; "Hospital(H1)" ]}
    = Ok [].
Proof.
  apply (extract_linear_plan_goals_already_hold iter_sorted).
  - intros s. reflexivity.
  - apply (bool_decide_unpack _). vm_compute. exact I.
  - lia.
Defined.

Lemma dedup_from_elem_of_iff l x :
  names_identify l → x ∈ dedup_from ∅ l ↔ x ∈ l.
Proof.
  intros Hnames. split; [by intros [_ ?]%dedup_from_elem_of|].
  intros Hx.
  destruct (dedup_from_names ∅ _ _ Hx) as [?%not_elem_of_empty|Hn]; [done|].
  apply list_elem_of_fmap in Hn as (y & Hxy & Hy).
  pose proof Hy as [_ Hyl]%dedup_from_elem_of.
  by rewrite (Hnames x y Hx Hyl Hxy).
Qed.

Lemma remove_duplicates_Permutation l1 l2 :
  names_identify l1 → l1 ≡ₚ l2 → remove_duplicates l1 ≡ₚ remove_duplicates l2.
Proof.
  intros Hnames Hperm. rewrite !remove_duplicates_eq.
  assert (names_identify l2) as Hnames2.
  { intros a b Ha Hb. apply Hnames; by rewrite Hperm. }
  apply NoDup_Permutation.
  - eapply NoDup_fmap_1, dedup_from_NoDup.
  - eapply NoDup_fmap_1, dedup_from_NoDup.
  - intros x. rewrite !dedup_from_elem_of_iff by done. by rewrite Hperm.
Qed.

Section TwoOrders.
Context (set_iter1 set_iter2 : PropSet → list Proposition).
Context (Hvalid1 : valid_set_iter set_iter1) (Hvalid2 : valid_set_iter set_iter2).
Context (initial_state : PropSet) (actions : list Action) (n : nat).

Local Abbreviation P := (prop_layer initial_state actions).
Local Abbreviation A := (action_layer initial_state actions).
Local Abbreviation G := (graph_upto initial_state actions n).

Lemma picks_from_actions k gs a : a ∈ picks (P k) (A k) gs → a ∈ actions.
Proof.
  unfold picks. intros (g & Hg & Hpick)%list_elem_of_omap.
  unfold pick in Hpick. case_decide; [done|].
  apply find_supporter_Some in Hpick as [Hin _].
  unfold action_layer, applicable_actions in Hin.
  by apply list_elem_of_filter in Hin as [_ ?].
Qed.

Lemma walk_two_orders k :
  k ≤ n →
  ∀ c1 c2 current_goals,
    c1 ≡ₚ c2 → (∀ a, a ∈ c1 → a ∈ actions) →
    ∃ c1' c2' goals',
      for_each (level_step set_iter1 G) (c1, current_goals) (range_down k)
      = Ok (c1', goals') ∧
      for_each (level_step set_iter2 G) (c2, current_goals) (range_down k)
      = Ok (c2', goals') ∧
      c1' ≡ₚ c2' ∧ (∀ a, a ∈ c1' → a ∈ actions).
Proof.
  induction k as [|k IH]; intros Hk c1 c2 current_goals Hperm Hfrom.
  - exists c1, c2, current_goals. done.
  - rewrite range_down_S. cbn [for_each].
    assert (index (action_layers G) (S k - 1) = Ok (A k)) as Ha.
    { unfold index. replace (S k - 1) with k by lia.
      by rewrite graph_upto_action_lookup by lia. }
    assert (index (proposition_layers G) (S k - 1) = Ok (P k)) as Hp.
    { unfold index. replace (S k - 1) with k by lia.
      by rewrite graph_upto_prop_lookup by lia. }
    destruct (level_step_any_order set_iter1 G (S k) (A k) (P k) c1 current_goals
                Hvalid1 Ha Hp) as (d1 & -> & E1 & Hd1).
    destruct (level_step_any_order set_iter2 G (S k) (A k) (P k) c2 current_goals
                Hvalid2 Ha Hp) as (d2 & -> & E2 & Hd2).
    rewrite !bind_Ok. apply IH; [lia| |].
    + by rewrite Hperm, Hd1, Hd2.
    + intros a [?|Ha']%elem_of_app; [by apply Hfrom|].
      rewrite E1 in Ha'. by apply picks_from_actions in Ha'.
Qed.

End TwoOrders.

(** X12: when action names identify actions, two iteration orders of the
    working goal set give plans that are permutations of one another, made
    of input actions: the order of iteration changes the sequence, never
    the set of actions chosen. *)
Theorem extract_linear_plan_order_changes_sequence_only
    (set_iter1 set_iter2 : PropSet → list Proposition)
    (initial_state : PropSet) (actions : list Action) (goals : PropSet)
    (max_levels : nat) (pg : PlanGraph) (n : nat) :
  valid_set_iter set_iter1 →
  valid_set_iter set_iter2 →
  names_identify actions →
  build_plan_graph initial_state actions goals max_levels = Ok (pg, n) →
  ∃ plan1 plan2,
    extract_linear_plan set_iter1 pg n goals = Ok plan1 ∧
    extract_linear_plan set_iter2 pg n goals = Ok plan2 ∧
    plan1 ≡ₚ plan2 ∧
    (∀ a, a ∈ plan1 → a ∈ actions).
Proof.
  intros Hv1 Hv2 Hnames Hb.
  apply build_plan_graph_ok_inv in Hb as (-> & _).
  destruct (walk_two_orders set_iter1 set_iter2 Hv1 Hv2 initial_state actions n n
              (le_n n) [] [] goals) as (c1 & c2 & G' & E1 & E2 & Hperm & Hfrom);
    [done|by intros a ?%elem_of_nil|].
  unfold extract_linear_plan. rewrite E1, E2, !bind_Ok. cbv beta iota zeta.
  eexists _, _. split; [done|]. split; [done|]. split.
  - apply remove_duplicates_Permutation.
    + intros a b Ha Hb. rewrite elem_of_reverse in Ha, Hb.
      apply Hnames; by apply Hfrom.
    + by rewrite !reverse_Permutation.
  - intros a Ha. rewrite remove_duplicates_eq in Ha.
    apply dedup_from_elem_of in Ha as [_ Ha]. rewrite elem_of_reverse in Ha.
    by apply Hfrom.
Qed.

Lemma extract_linear_plan_order_changes_sequence_only_witness :
  ∃ plan1 plan2,
    extract_linear_plan iter_sorted
      (graph_upto acc3_initial_state acc3_actions 3) 3 acc3_goals = Ok plan1 ∧
    extract_linear_plan iter_reversed
      (graph_upto acc3_initial_state acc3_actions 3) 3 acc3_goals = Ok plan2 ∧
    plan1 ≡ₚ plan2 ∧
    (∀ a, a ∈ plan1 → a ∈ acc3_actions).
Proof.
  apply (extract_linear_plan_order_changes_sequence_only iter_sorted iter_reversed
           acc3_initial_state acc3_actions acc3_goals 8).
  - intros s. reflexivity.
  - intros s. apply reverse_Permutation.
  - apply NoDup_names_identify. apply (bool_decide_unpack _). vm_compute. exact I.
  - apply (bool_decide_unpack _). vm_compute. exact I.
Defined.

End ExtractMore.

(** ** More on the domain builder, and the strict planner on every scenario *)

Module DomainMore.
Import PlanningDomain GraphPlan PlanSpec Pipeline.
Import DomainFacts BuildFacts ExtractFacts.

Lemma find_by_id_has_id {A} `{HasId A} (objects : list A) (obj_id : string) (o : A) :
  _find_by_id objects obj_id = Ok o → getattr_id o = Some obj_id.
Proof. intros (l1 & l2 & _ & Ho & _)%find_by_id_Ok. exact Ho. Qed.

Lemma build_domain_from_lookups scenario :
  match build_domain_from scenario with
  | Ok _ =>
      ∃ h1 h2 a1 acc3,
        _find_by_id (Scenario.hospitals scenario) "H1" = Ok h1 ∧
        _find_by_id (Scenario.hospitals scenario) "H2" = Ok h2 ∧
        _find_by_id (Scenario.ambulances scenario) "A1" = Ok a1 ∧
        _find_by_id (Scenario.accidents scenario) "ACC3" = Ok acc3
  | Err e =>
      ∃ missing, missing ∈ ["H1"; "H2"; "A1"; "ACC3"] ∧ e = NotFound missing
  end.
Proof.
  unfold build_domain_from.
  destruct (_find_by_id (Scenario.hospitals scenario) "H1") as [h1|e1] eqn:E1.
  2:{ apply find_by_id_Err in E1 as [-> _]. exists "H1". split; [set_solver|done]. }
  destruct (_find_by_id (Scenario.hospitals scenario) "H2") as [h2|e2] eqn:E2.
  2:{ apply find_by_id_Err in E2 as [-> _]. exists "H2". split; [set_solver|done]. }
  destruct (_find_by_id (Scenario.ambulances scenario) "A1") as [a1|e3] eqn:E3.
  2:{ apply find_by_id_Err in E3 as [-> _]. exists "A1". split; [set_solver|done]. }
  destruct (_find_by_id (Scenario.accidents scenario) "ACC3") as [acc3|e4] eqn:E4.
  2:{ apply find_by_id_Err in E4 as [-> _]. exists "ACC3". split; [set_solver|done]. }
  rewrite !bind_Ok. cbv beta zeta. eauto 10.
Qed.

Lemma reduced_scenario_lookups a1_node h1_node h2_ct :
  _find_by_id (Scenario.hospitals (reduced_scenario a1_node h1_node h2_ct)) "H1"
  = Ok (Hospital.mk "H1" "" h1_node false Constants.AVAILABLE 0 0) ∧
  _find_by_id (Scenario.hospitals (reduced_scenario a1_node h1_node h2_ct)) "H2"
  = Ok (Hospital.mk "H2" "" "" false h2_ct 0 0) ∧
  _find_by_id (Scenario.ambulances (reduced_scenario a1_node h1_node h2_ct)) "A1"
  = Ok (Ambulance.mk "A1" a1_node true) ∧
  _find_by_id (Scenario.accidents (reduced_scenario a1_node h1_node h2_ct)) "ACC3"
  = Ok (Accident.mk "ACC3" "" "" None).
Proof. repeat split; vm_compute; reflexivity. Qed.

(** A scenario and the reduced scenario made of the three fields read give
    the same domain. *)
Lemma build_domain_from_reduced
    (scenario : Scenario.t) (h1 h2 : Hospital.t) (a1 : Ambulance.t) (acc3 : Accident.t) :
  _find_by_id (Scenario.hospitals scenario) "H1" = Ok h1 →
  _find_by_id (Scenario.hospitals scenario) "H2" = Ok h2 →
  _find_by_id (Scenario.ambulances scenario) "A1" = Ok a1 →
  _find_by_id (Scenario.accidents scenario) "ACC3" = Ok acc3 →
  build_domain_from scenario
  = build_domain_from
      (reduced_scenario (Ambulance.current_node a1) (Hospital.node h1)
                        (Hospital.ct_status h2)).
Proof.
  intros E1 E2 E3 E4.
  pose proof (find_by_id_has_id _ _ _ E1) as [= I1].
  pose proof (find_by_id_has_id _ _ _ E2) as [= I2].
  pose proof (find_by_id_has_id _ _ _ E3) as [= I3].
  pose proof (find_by_id_has_id _ _ _ E4) as [= I4].
  unfold build_domain_from.
  destruct (reduced_scenario_lookups (Ambulance.current_node a1) (Hospital.node h1)
              (Hospital.ct_status h2)) as (-> & -> & -> & ->).
  rewrite E1, E2, E3, E4, !bind_Ok. cbv beta zeta.
  cbn [Hospital.id Hospital.node Hospital.ct_status
       Ambulance.id Ambulance.current_node Accident.id].
  rewrite I1, I2, I3, I4. reflexivity.
Qed.

(** X13: the domain depends on the scenario only through the current node
    of the first ambulance with id A1, the node of the first hospital with id
    H1 and the CT status of the first hospital with id H2: two scenarios in
    which the four lookups succeed and that agree on these three fields give
    the same domain, whatever else they hold (other objects, the CT status
    of H1, the accident's fields). *)
Theorem build_domain_reads_three_fields
    (scenario scenario' : Scenario.t) (h1 h1' h2 h2' : Hospital.t)
    (a1 a1' : Ambulance.t) (acc3 acc3' : Accident.t) :
  _find_by_id (Scenario.hospitals scenario) "H1" = Ok h1 →
  _find_by_id (Scenario.hospitals scenario) "H2" = Ok h2 →
  _find_by_id (Scenario.ambulances scenario) "A1" = Ok a1 →
  _find_by_id (Scenario.accidents scenario) "ACC3" = Ok acc3 →
  _find_by_id (Scenario.hospitals scenario') "H1" = Ok h1' →
  _find_by_id (Scenario.hospitals scenario') "H2" = Ok h2' →
  _find_by_id (Scenario.ambulances scenario') "A1" = Ok a1' →
  _find_by_id (Scenario.accidents scenario') "ACC3" = Ok acc3' →
  Ambulance.current_node a1 = Ambulance.current_node a1' →
  Hospital.node h1 = Hospital.node h1' →
  Hospital.ct_status h2 = Hospital.ct_status h2' →
  build_domain_from scenario = build_domain_from scenario'.
Proof.
  intros E1 E2 E3 E4 E1' E2' E3' E4' Ha Hh1 Hh2.
  rewrite (build_domain_from_reduced _ _ _ _ _ E1 E2 E3 E4).
  rewrite (build_domain_from_reduced _ _ _ _ _ E1' E2' E3' E4').
  by rewrite Ha, Hh1, Hh2.
Qed.

(** The base scenario and a scenario stripped of all but the fields read. *)
Lemma build_domain_reads_three_fields_witness :
  build_domain_from Scenario.create_base_scenario
  = build_domain_from (reduced_scenario "hospital_h1" "hospital_h1" Constants.OFFLINE).
Proof.
  apply (build_domain_reads_three_fields Scenario.create_base_scenario
           (reduced_scenario "hospital_h1" "hospital_h1" Constants.OFFLINE)
           (Hospital.mk "H1" "H1 Trauma Hospital" "hospital_h1" true
              Constants.AVAILABLE 40 30)
           (Hospital.mk "H1" "" "hospital_h1" false Constants.AVAILABLE 0 0)
           (Hospital.mk "H2" "H2 General Hospital" "hospital_h2" false
              Constants.OFFLINE 30 20)
           (Hospital.mk "H2" "" "" false Constants.OFFLINE 0 0)
           (Ambulance.mk "A1" "hospital_h1" true)
           (Ambulance.mk "A1" "hospital_h1" true)
           (Accident.mk "ACC3" "airport_approach"
              "SUV rollover near Airport approach road with airbags deployed"
              (Some "tense"))
           (Accident.mk "ACC3" "" "" None)); vm_compute; reflexivity.
Defined.

(** *** The domain of a reduced scenario, with its three fields left open *)

Ltac solve_elem :=
  repeat first
    [ apply elem_of_singleton; reflexivity
    | apply elem_of_union_r, elem_of_singleton; reflexivity
    | apply elem_of_union_l ].

Ltac solve_sub :=
  repeat apply union_least; apply singleton_subseteq_l; solve_elem.

Lemma layer_gains init acts a (k : nat) :
  a ∈ acts →
  preconditions a ⊆ prop_layer init acts k →
  add_effects a ⊆ prop_layer init acts (S k).
Proof.
  intros Ha Hpre p Hp. cbn [prop_layer].
  apply elem_of_union_r, elem_of_union_list. exists (add_effects a).
  split; [|done]. apply list_elem_of_fmap_2.
  apply BuildMore.applicable_actions_elem_of. done.
Qed.

(** Four preparatory actions enabled initially, a transport that needs one
    effect of three of them, a delivery that needs the transport and the
    fourth: the goals are covered by layer 3. *)
Lemma reach_in_three init acts (goals : PropSet) (d1 d2 d3 d4 st dl : Action)
    (x1 x2 x3 x4 y f : Proposition) :
  d1 ∈ acts → d2 ∈ acts → d3 ∈ acts → d4 ∈ acts → st ∈ acts → dl ∈ acts →
  preconditions d1 ⊆ init → preconditions d2 ⊆ init →
  preconditions d3 ⊆ init → preconditions d4 ⊆ init →
  x1 ∈ add_effects d1 → x2 ∈ add_effects d2 →
  x3 ∈ add_effects d3 → x4 ∈ add_effects d4 →
  f ∈ init →
  preconditions st ⊆ {[ f; x1; x2; x3 ]} →
  y ∈ add_effects st →
  preconditions dl ⊆ {[ y; x4 ]} →
  goals ⊆ add_effects dl →
  goals ⊆ prop_layer init acts 3.
Proof.
  intros H1 H2 H3 H4 Hst Hdl P1 P2 P3 P4 X1 X2 X3 X4 Hf Pst Hy Pdl Hg.
  pose proof (layer_gains init acts d1 0 H1 P1 _ X1) as L1.
  pose proof (layer_gains init acts d2 0 H2 P2 _ X2) as L2.
  pose proof (layer_gains init acts d3 0 H3 P3 _ X3) as L3.
  pose proof (layer_gains init acts d4 0 H4 P4 _ X4) as L4.
  pose proof (prop_layer_mono init acts 0 _ Hf) as Lf.
  assert (preconditions st ⊆ prop_layer init acts 1) as Pst1.
  { etrans; [exact Pst|]. repeat apply union_least; by apply singleton_subseteq_l. }
  pose proof (layer_gains init acts st 1 Hst Pst1 _ Hy) as Ly.
  pose proof (prop_layer_mono init acts 1 _ L4) as L4'.
  assert (preconditions dl ⊆ prop_layer init acts 2) as Pdl2.
  { etrans; [exact Pdl|]. repeat apply union_least; by apply singleton_subseteq_l. }
  etrans; [exact Hg|]. by apply layer_gains.
Qed.

Lemma reduced_domain_facts a1_node h1_node h2_ct init acts goals :
  build_domain_from (reduced_scenario a1_node h1_node h2_ct) = Ok (init, acts, goals) →
  name <$> acts
  = [ "TriggerDroneRecon(ACC3)"; "RequestTrafficDiversion(stadium_corridor)";
      "PreDeployAmbulanceNearHotspot(A1, nayapalli_chowk)"; "NotifyHospital(H1)";
      "StartTransportToAccident(A1, ACC3)"; "DeliverPatientToH1(A1, ACC3, H1)";
      "RerouteMidJourneyToH2(A1, ACC3, H2)" ] ∧
  goals = {[ "AccidentServed(ACC3)"; "PatientAt(ACC3, H1)" ]} ∧
  goals ⊆ prop_layer init acts 3 ∧
  "CTAvailable(H1)" ∈ init ∧
  ("CTOffline(H2)" ∈ init ↔ h2_ct = Constants.OFFLINE) ∧
  ("CTAvailable(H2)" ∈ init ↔ h2_ct ≠ Constants.OFFLINE).
Proof.
  unfold build_domain_from.
  destruct (reduced_scenario_lookups a1_node h1_node h2_ct) as (-> & -> & -> & ->).
  rewrite !bind_Ok. cbv beta zeta.
  cbn [Hospital.id Hospital.node Hospital.ct_status
       Ambulance.id Ambulance.current_node Accident.id app].
  intros [= <- <- <-].
  split; [reflexivity|]. split; [reflexivity|]. split.
  { eapply (reach_in_three _ _ _ _ _ _ _ _ _
              "AccidentLocationConfirmed(ACC3)" "TrafficDiverted(stadium_corridor)"
              "AmbulanceAt(A1, nayapalli_chowk)" "HospitalNotified(H1)"
              "AmbulanceEnRoute(A1, ACC3)" "AmbulanceFree(A1)").
    1: apply (list_elem_of_lookup_2 _ 0); reflexivity.
    1: apply (list_elem_of_lookup_2 _ 1); reflexivity.
    1: apply (list_elem_of_lookup_2 _ 2); reflexivity.
    1: apply (list_elem_of_lookup_2 _ 3); reflexivity.
    1: apply (list_elem_of_lookup_2 _ 4); reflexivity.
    1: apply (list_elem_of_lookup_2 _ 5); reflexivity.
    all: cbn [preconditions add_effects].
    all: destruct (decide (h2_ct = Constants.OFFLINE)).
    all: solve [solve_sub | solve_elem]. }
  destruct (decide (h2_ct = Constants.OFFLINE)) as [Hs|Hs].
  - split; [solve_elem|]. split; [split; [done|intros _; solve_elem]|].
    split; [|done]. intros Hin. exfalso. revert Hin.
    rewrite !elem_of_union, !elem_of_singleton, elem_of_empty.
    cbn [String.append]. intuition discriminate.
  - split; [solve_elem|]. split; [|split; [done|intros _; solve_elem]].
    split; [|done]. intros Hin. exfalso. revert Hin.
    rewrite !elem_of_union, !elem_of_singleton, elem_of_empty.
    cbn [String.append]. intuition discriminate.
Qed.

(** X14: whatever the scenario, a domain that is built has the same seven
    action names, pairwise distinct, and the same two goals; its initial
    state asserts CTAvailable(H1) whatever CT status is recorded for H1, and
    exactly one of CTOffline(H2) and CTAvailable(H2), following the CT status
    of the hospital found for H2. *)
Theorem build_domain_shape
    (scenario : Scenario.t) (init : PropSet) (acts : list Action) (goals : PropSet) :
  build_domain_from scenario = Ok (init, acts, goals) →
  name <$> acts
  = [ "TriggerDroneRecon(ACC3)"; "RequestTrafficDiversion(stadium_corridor)";
      "PreDeployAmbulanceNearHotspot(A1, nayapalli_chowk)"; "NotifyHospital(H1)";
      "StartTransportToAccident(A1, ACC3)"; "DeliverPatientToH1(A1, ACC3, H1)";
      "RerouteMidJourneyToH2(A1, ACC3, H2)" ] ∧
  names_identify acts ∧
  goals = {[ "AccidentServed(ACC3)"; "PatientAt(ACC3, H1)" ]} ∧
  "CTAvailable(H1)" ∈ init ∧
  ∀ h2, _find_by_id (Scenario.hospitals scenario) "H2" = Ok h2 →
    ("CTOffline(H2)" ∈ init ↔ Hospital.ct_status h2 = Constants.OFFLINE) ∧
    ("CTAvailable(H2)" ∈ init ↔ Hospital.ct_status h2 ≠ Constants.OFFLINE).
Proof.
  intros Hd. pose proof (build_domain_from_lookups scenario) as Hl.
  rewrite Hd in Hl. destruct Hl as (h1 & h2 & a1 & acc3 & E1 & E2 & E3 & E4).
  rewrite (build_domain_from_reduced _ _ _ _ _ E1 E2 E3 E4) in Hd.
  apply reduced_domain_facts in Hd as (Hn & Hg & _ & Hc1 & Hoff & Hav).
  split; [done|]. split.
  { apply NoDup_names_identify. rewrite Hn. by_evaluation. }
  split; [done|]. split; [done|].
  intros h2' E2'. rewrite E2 in E2'. by injection E2' as <-.
Qed.

Lemma build_domain_shape_witness :
  name <$> acc3_actions
  = [ "TriggerDroneRecon(ACC3)"; "RequestTrafficDiversion(stadium_corridor)";
      "PreDeployAmbulanceNearHotspot(A1, nayapalli_chowk)"; "NotifyHospital(H1)";
      "StartTransportToAccident(A1, ACC3)"; "DeliverPatientToH1(A1, ACC3, H1)";
      "RerouteMidJourneyToH2(A1, ACC3, H2)" ] ∧
  names_identify acc3_actions ∧
  acc3_goals = {[ "AccidentServed(ACC3)"; "PatientAt(ACC3, H1)" ]} ∧
  "CTAvailable(H1)" ∈ acc3_initial_state ∧
  ∀ h2, _find_by_id (Scenario.hospitals Scenario.create_base_scenario) "H2" = Ok h2 →
    ("CTOffline(H2)" ∈ acc3_initial_state ↔ Hospital.ct_status h2 = Constants.OFFLINE) ∧
    ("CTAvailable(H2)" ∈ acc3_initial_state ↔ Hospital.ct_status h2 ≠ Constants.OFFLINE).
Proof.
  apply (build_domain_shape Scenario.create_base_scenario).
  apply (bool_decide_unpack _). vm_compute. exact I.
Defined.

(** X15: on every scenario the strict planner either fails in the domain
    builder, with the [NotFound] of a missing object, or returns a plan: the
    goals are always covered within the fixed budget of 8 levels, so neither
    [PlanNotFound] nor [IndexError] can come out; and the plan returned is
    executable from the initial state of the domain and produces its goals,
    whatever the iteration order of sets. *)
Theorem strict_plan_on_every_scenario
    (set_iter : PropSet → list Proposition) (scenario : Scenario.t) :
  valid_set_iter set_iter →
  compute_strict_plan_for_acc3 set_iter
  = compute_strict_plan_from set_iter Scenario.create_base_scenario ∧
  (∀ e, compute_strict_plan_from set_iter scenario = Err e →
        ∃ missing, missing ∈ ["H1"; "H2"; "A1"; "ACC3"] ∧ e = NotFound missing ∧
                   build_domain_from scenario = Err (NotFound missing)) ∧
  (∀ init acts goals,
     build_domain_from scenario = Ok (init, acts, goals) →
     ∃ plan,
       compute_strict_plan_from set_iter scenario = Ok plan ∧
       executable init plan ∧
       goals ⊆ simulate init plan).
Proof.
  intros Hv. split; [reflexivity|].
  assert (∀ init acts goals,
            build_domain_from scenario = Ok (init, acts, goals) →
            ∃ plan,
              compute_strict_plan_from set_iter scenario = Ok plan ∧
              executable init plan ∧
              goals ⊆ simulate init plan) as Hok.
  { intros init acts goals Hd.
    pose proof (build_domain_from_lookups scenario) as Hl.
    rewrite Hd in Hl. destruct Hl as (h1 & h2 & a1 & acc3 & E1 & E2 & E3 & E4).
    pose proof Hd as Hr.
    rewrite (build_domain_from_reduced _ _ _ _ _ E1 E2 E3 E4) in Hr.
    apply reduced_domain_facts in Hr as (Hacts & _ & Hreach & _).
    assert (names_identify acts) as Hnames
      by (apply NoDup_names_identify; rewrite Hacts; by_evaluation).
    destruct (BuildMore.build_succeeds_when_covered init acts goals 8 3)
      as (n & Hn & Hgn & Hb); [lia|done|].
    destruct (extract_linear_plan_graph_upto set_iter Hv init acts goals n Hgn Hnames)
      as (plan & Hp & Hex & Hgoal).
    exists plan. split; [|done].
    unfold compute_strict_plan_from. rewrite Hd, bind_Ok. cbv beta iota.
    rewrite Hb, bind_Ok. cbv beta iota. exact Hp. }
  split; [|exact Hok].
  intros e He. pose proof (build_domain_from_lookups scenario) as Hl.
  destruct (build_domain_from scenario) as [[[init acts] goals]|e'] eqn:Hd.
  - destruct (Hok init acts goals eq_refl) as (plan & Hp & _). congruence.
  - destruct Hl as (missing & Hm & ->). exists missing.
    unfold compute_strict_plan_from in He. rewrite Hd in He.
    injection He as <-. done.
Qed.

Lemma strict_plan_on_every_scenario_witness :
  ∃ plan,
    compute_strict_plan_from iter_sorted Scenario.create_base_scenario = Ok plan ∧
    executable acc3_initial_state plan ∧
    acc3_goals ⊆ simulate acc3_initial_state plan.
Proof.
  destruct (strict_plan_on_every_scenario iter_sorted Scenario.create_base_scenario)
    as (_ & _ & Hok); [intros s; reflexivity|].
  apply (Hok acc3_initial_state acc3_actions acc3_goals).
  apply (bool_decide_unpack _). vm_compute. exact I.
Defined.

End DomainMore.

(** ** The partial-order plan on every domain *)

Module PopMore.
Import PopPlanner PopSpec PopPipeline.
Import DomainFacts ExtractFacts PopFacts.

Lemma find_da_Ok acts prefix da :
  find_da acts prefix = Ok da ↔
  ∃ l1 l2, acts = l1 ++ da :: l2 ∧
           String.prefix prefix (PlanningDomain.name da) = true ∧
           ∀ x, x ∈ l1 → String.prefix prefix (PlanningDomain.name x) = false.
Proof.
  unfold find_da. induction acts as [|x l IH]; simpl.
  - split; [done|]. intros (l1 & l2 & E & _). by destruct l1.
  - destruct (String.prefix prefix (PlanningDomain.name x)) eqn:Hx.
    + split.
      * intros [= ->]. exists [], l. split; [done|]. split; [done|].
        by intros y ?%elem_of_nil.
      * intros (l1 & l2 & E & Hda & Hl1). destruct l1 as [|y l1].
        -- by injection E as ->.
        -- injection E as -> _. rewrite (Hl1 y) in Hx; [done|left].
    + rewrite IH. split.
      * intros (l1 & l2 & -> & Hda & Hl1). exists (x :: l1), l2.
        split; [done|]. split; [done|].
        intros y [->|Hy]%elem_of_cons; [done|by apply Hl1].
      * intros (l1 & l2 & E & Hda & Hl1). destruct l1 as [|y l1].
        -- injection E as -> _. congruence.
        -- injection E as -> ->. exists l1, l2. split; [done|]. split; [done|].
           intros z Hz. apply Hl1. by right.
Qed.

Lemma find_da_Err acts prefix e :
  find_da acts prefix = Err e ↔
  e = ActionNotFound prefix ∧
  ∀ x, x ∈ acts → String.prefix prefix (PlanningDomain.name x) = false.
Proof.
  unfold find_da. induction acts as [|x l IH]; simpl.
  - split; [intros [= <-]; split; [done|by intros y ?%elem_of_nil]|by intros [-> _]].
  - destruct (String.prefix prefix (PlanningDomain.name x)) eqn:Hx.
    + split; [done|]. intros [_ Hall]. rewrite (Hall x) in Hx; [done|left].
    + rewrite IH. split.
      * intros [-> Hall]. split; [done|].
        intros y [->|Hy]%elem_of_cons; [done|by apply Hall].
      * intros [-> Hall]. split; [done|]. intros y Hy. apply Hall. by right.
Qed.

Lemma build_pop_plan_for_acc3_from set_iter :
  build_pop_plan_for_acc3 set_iter
  = (PlanningDomain.build_domain_for_acc3 ≫= build_pop_plan_from set_iter).
Proof.
  unfold build_pop_plan_for_acc3, build_pop_plan_from.
  destruct PlanningDomain.build_domain_for_acc3 as [[[i a] g]|e]; [|done].
  cbn [mbind result_bind].
  repeat (match goal with
          | |- context [find_da ?a ?p] => destruct (find_da a p); [|done]
          end; cbn [mbind result_bind]).
  reflexivity.
Qed.

(** Success of the builder, unfolded: the seven actions found and the plan
    assembled from them. *)
Lemma build_pop_plan_from_Ok set_iter init acts goals plan :
  build_pop_plan_from set_iter (init, acts, goals) = Ok plan ↔
  ∃ d1 d2 d3 d4 d5 d6 d7,
    find_da acts "TriggerDroneRecon" = Ok d1 ∧
    find_da acts "PreDeployAmbulanceNearHotspot" = Ok d2 ∧
    find_da acts "NotifyHospital" = Ok d3 ∧
    find_da acts "RequestTrafficDiversion" = Ok d4 ∧
    find_da acts "StartTransportToAccident" = Ok d5 ∧
    find_da acts "DeliverPatientToH1" = Ok d6 ∧
    find_da acts "RerouteMidJourneyToH2" = Ok d7 ∧
    plan = assemble_pop_plan set_iter init goals d1 d2 d3 d4 d5 d6 d7.
Proof.
  unfold build_pop_plan_from. split.
  - destruct (find_da acts "TriggerDroneRecon") as [d1|]; [|done].
    destruct (find_da acts "PreDeployAmbulanceNearHotspot") as [d2|]; [|done].
    destruct (find_da acts "NotifyHospital") as [d3|]; [|done].
    destruct (find_da acts "RequestTrafficDiversion") as [d4|]; [|done].
    destruct (find_da acts "StartTransportToAccident") as [d5|]; [|done].
    destruct (find_da acts "DeliverPatientToH1") as [d6|]; [|done].
    destruct (find_da acts "RerouteMidJourneyToH2") as [d7|]; [|done].
    rewrite !bind_Ok. intros [= <-]. by exists d1, d2, d3, d4, d5, d6, d7.
  - intros (d1 & d2 & d3 & d4 & d5 & d6 & d7 & -> & -> & -> & -> & -> & -> & -> & ->).
    by rewrite !bind_Ok.
Qed.

(** X16: the builder succeeds exactly when, for each of its seven name
    prefixes, the domain has an action whose name starts with it; otherwise
    it raises [ActionNotFound] for a prefix that no action name starts with.
    The action it takes for a prefix is the first one in the list. *)
Theorem build_pop_plan_needs_seven_actions
    (set_iter : PropSet → list Proposition)
    (init : PropSet) (acts : list PlanningDomain.Action) (goals : PropSet) :
  build_pop_plan_for_acc3 set_iter
  = (PlanningDomain.build_domain_for_acc3 ≫= build_pop_plan_from set_iter) ∧
  (is_ok (build_pop_plan_from set_iter (init, acts, goals)) ↔
   ∀ step, step ∈ plan_steps →
     ∃ da, da ∈ acts ∧ String.prefix step.2 (PlanningDomain.name da) = true) ∧
  (∀ e, build_pop_plan_from set_iter (init, acts, goals) = Err e →
     ∃ step, step ∈ plan_steps ∧ e = ActionNotFound step.2 ∧
       ∀ da, da ∈ acts → String.prefix step.2 (PlanningDomain.name da) = false) ∧
  (∀ plan step a,
     build_pop_plan_from set_iter (init, acts, goals) = Ok plan →
     step ∈ plan_steps →
     dict_get step.1 (actions plan) = Some a →
     ∃ l1 da l2,
       acts = l1 ++ da :: l2 ∧ a = wrap da step.1 ∧
       String.prefix step.2 (PlanningDomain.name da) = true ∧
       ∀ x, x ∈ l1 → String.prefix step.2 (PlanningDomain.name x) = false).
Proof.
  split; [apply build_pop_plan_for_acc3_from|].
  assert (∀ prefix, (∃ da, da ∈ acts ∧ String.prefix prefix (PlanningDomain.name da) = true) →
                    ∃ d, find_da acts prefix = Ok d) as Hfound.
  { intros prefix (da & Hda & Hp).
    destruct (find_da acts prefix) as [d|e] eqn:E; [eauto|].
    apply find_da_Err in E as [_ Hall]. rewrite (Hall da Hda) in Hp. done. }
  split; [split|split].
  - destruct (build_pop_plan_from set_iter (init, acts, goals)) as [plan|e] eqn:E;
      [|done].
    intros _ step Hstep.
    apply build_pop_plan_from_Ok in E
      as (d1 & d2 & d3 & d4 & d5 & d6 & d7 & E1 & E2 & E3 & E4 & E5 & E6 & E7 & _).
    unfold plan_steps in Hstep.
    repeat (apply elem_of_cons in Hstep as [->|Hstep]);
      [..|by apply elem_of_nil in Hstep]; simpl.
    all: match goal with
         | H : find_da _ ?p = Ok ?d |- ∃ da, _ ∧ String.prefix ?p _ = true =>
             apply find_da_Ok in H as (l1 & l2 & -> & Hp & _); exists d;
             split; [apply elem_of_app; right; left|done]
         end.
  - intros Hall.
    destruct (Hfound "TriggerDroneRecon") as [d1 E1];
      [apply (Hall ("DroneRecon", "TriggerDroneRecon")); by_evaluation|].
    destruct (Hfound "PreDeployAmbulanceNearHotspot") as [d2 E2];
      [apply (Hall ("PredeployA1", "PreDeployAmbulanceNearHotspot")); by_evaluation|].
    destruct (Hfound "NotifyHospital") as [d3 E3];
      [apply (Hall ("NotifyH1", "NotifyHospital")); by_evaluation|].
    destruct (Hfound "RequestTrafficDiversion") as [d4 E4];
      [apply (Hall ("RequestDiversion", "RequestTrafficDiversion")); by_evaluation|].
    destruct (Hfound "StartTransportToAccident") as [d5 E5];
      [apply (Hall ("StartTransport", "StartTransportToAccident")); by_evaluation|].
    destruct (Hfound "DeliverPatientToH1") as [d6 E6];
      [apply (Hall ("DeliverH1", "DeliverPatientToH1")); by_evaluation|].
    destruct (Hfound "RerouteMidJourneyToH2") as [d7 E7];
      [apply (Hall ("RerouteH2", "RerouteMidJourneyToH2")); by_evaluation|].
    unfold build_pop_plan_from. rewrite E1, E2, E3, E4, E5, E6, E7. done.
  - intros e. unfold build_pop_plan_from.
    destruct (find_da acts "TriggerDroneRecon") as [d1|e1] eqn:E1.
    2:{ intros [= <-]. apply find_da_Err in E1 as [-> Hall].
        exists ("DroneRecon", "TriggerDroneRecon"). split; [by_evaluation|done]. }
    destruct (find_da acts "PreDeployAmbulanceNearHotspot") as [d2|e2] eqn:E2.
    2:{ intros [= <-]. apply find_da_Err in E2 as [-> Hall].
        exists ("PredeployA1", "PreDeployAmbulanceNearHotspot"). split; [by_evaluation|done]. }
    destruct (find_da acts "NotifyHospital") as [d3|e3] eqn:E3.
    2:{ intros [= <-]. apply find_da_Err in E3 as [-> Hall].
        exists ("NotifyH1", "NotifyHospital"). split; [by_evaluation|done]. }
    destruct (find_da acts "RequestTrafficDiversion") as [d4|e4] eqn:E4.
    2:{ intros [= <-]. apply find_da_Err in E4 as [-> Hall].
        exists ("RequestDiversion", "RequestTrafficDiversion"). split; [by_evaluation|done]. }
    destruct (find_da acts "StartTransportToAccident") as [d5|e5] eqn:E5.
    2:{ intros [= <-]. apply find_da_Err in E5 as [-> Hall].
        exists ("StartTransport", "StartTransportToAccident"). split; [by_evaluation|done]. }
    destruct (find_da acts "DeliverPatientToH1") as [d6|e6] eqn:E6.
    2:{ intros [= <-]. apply find_da_Err in E6 as [-> Hall].
        exists ("DeliverH1", "DeliverPatientToH1"). split; [by_evaluation|done]. }
    destruct (find_da acts "RerouteMidJourneyToH2") as [d7|e7] eqn:E7.
    2:{ intros [= <-]. apply find_da_Err in E7 as [-> Hall].
        exists ("RerouteH2", "RerouteMidJourneyToH2"). split; [by_evaluation|done]. }
    done.
  - intros plan step a
      (d1 & d2 & d3 & d4 & d5 & d6 & d7 & E1 & E2 & E3 & E4 & E5 & E6 & E7 & ->)%build_pop_plan_from_Ok
      Hstep.
    unfold plan_steps in Hstep.
    repeat (apply elem_of_cons in Hstep as [->|Hstep]);
      [..|by apply elem_of_nil in Hstep].
    all: cbn [fst snd]; intros Hget; vm_compute in Hget; injection Hget as <-.
    all: match goal with
         | H : find_da _ ?p = Ok ?d |- ∃ l1 da l2, _ ∧ _ ∧ String.prefix ?p _ = true ∧ _ =>
             apply find_da_Ok in H as (l1 & l2 & -> & Hp & Hl1); exists l1, d, l2; done
         end.
Qed.

(** *** The assembled plan *)

Section Assembled.
Context (set_iter : PropSet → list Proposition).
Context (init goals : PropSet) (d1 d2 d3 d4 d5 d6 d7 : PlanningDomain.Action).

Local Abbreviation plan :=
  (assemble_pop_plan set_iter init goals d1 d2 d3 d4 d5 d6 d7).
Local Abbreviation start := (mkPOPAction "Start" "Start" ∅ init).

Lemma assemble_actions :
  actions plan
  = [ ("Start", start);
      ("Finish", mkPOPAction "Finish" "Finish" (list_to_set (set_iter goals)) ∅);
      ("DroneRecon", wrap d1 "DroneRecon");
      ("PredeployA1", wrap d2 "PredeployA1");
      ("NotifyH1", wrap d3 "NotifyH1");
      ("RequestDiversion", wrap d4 "RequestDiversion");
      ("StartTransport", wrap d5 "StartTransport");
      ("DeliverH1", wrap d6 "DeliverH1");
      ("RerouteH2", wrap d7 "RerouteH2") ].
Proof. vm_compute. reflexivity. Qed.

Lemma assemble_orderings :
  orderings plan
  = [ ("Start", "Finish"); ("Start", "DroneRecon"); ("Start", "PredeployA1");
      ("Start", "NotifyH1"); ("Start", "RequestDiversion");
      ("Start", "StartTransport"); ("Start", "DeliverH1"); ("Start", "RerouteH2");
      ("DroneRecon", "StartTransport"); ("PredeployA1", "StartTransport");
      ("RequestDiversion", "StartTransport"); ("NotifyH1", "DeliverH1");
      ("StartTransport", "DeliverH1"); ("StartTransport", "RerouteH2");
      ("DeliverH1", "Finish"); ("RerouteH2", "Finish") ].
Proof. vm_compute. reflexivity. Qed.

Lemma assemble_branches :
  (λ b, (condition b, branch_actions b)) <$> branches plan
  = [ ("CTAvailable(H2)", ["RerouteH2"]); ("CTOffline(H2)", ["DeliverH1"]) ].
Proof. vm_compute. reflexivity. Qed.

Lemma assemble_links :
  causal_links plan
  = derive_causal_links set_iter start
      (wrap d1 "DroneRecon") (wrap d2 "PredeployA1") (wrap d3 "NotifyH1")
      (wrap d4 "RequestDiversion") (wrap d5 "StartTransport")
      (wrap d6 "DeliverH1") (wrap d7 "RerouteH2").
Proof. reflexivity. Qed.

Lemma assemble_orderings_acc3 : orderings plan = orderings acc3_pop_plan.
Proof. rewrite assemble_orderings. by_evaluation. Qed.

End Assembled.

Lemma links_where_elem_of set_iter cond producer consumer (link : CausalLink) :
  valid_set_iter set_iter →
  link ∈ links_where set_iter cond producer consumer ↔
  ∃ p, link = (producer, p, id consumer) ∧ cond p = true ∧ p ∈ preconditions consumer.
Proof.
  intros Hv. unfold links_where. rewrite list_elem_of_fmap.
  split.
  - intros (p & -> & [Hc Hp]%list_elem_of_filter). exists p.
    split; [done|]. split; [done|]. by apply (set_iter_elem_of set_iter) in Hp.
  - intros (p & -> & Hc & Hp). exists p. split; [done|].
    apply list_elem_of_filter. split; [done|]. by apply (set_iter_elem_of set_iter).
Qed.

(** X17: on every domain for which the plan is built, its skeleton is the
    same: the nine step ids in insertion order, the sixteen ordering edges,
    the two branches; the edges form no cycle, none enters Start and none
    leaves Finish; Start carries the initial state as effects and no
    precondition, Finish carries the goals as preconditions and no effect. *)
Theorem pop_plan_skeleton
    (set_iter : PropSet → list Proposition)
    (init : PropSet) (acts : list PlanningDomain.Action) (goals : PropSet)
    (plan : POPPlan) :
  valid_set_iter set_iter →
  build_pop_plan_from set_iter (init, acts, goals) = Ok plan →
  dict_keys (actions plan)
  = [ "Start"; "Finish"; "DroneRecon"; "PredeployA1"; "NotifyH1";
      "RequestDiversion"; "StartTransport"; "DeliverH1"; "RerouteH2" ] ∧
  orderings plan
  = [ ("Start", "Finish"); ("Start", "DroneRecon"); ("Start", "PredeployA1");
      ("Start", "NotifyH1"); ("Start", "RequestDiversion");
      ("Start", "StartTransport"); ("Start", "DeliverH1"); ("Start", "RerouteH2");
      ("DroneRecon", "StartTransport"); ("PredeployA1", "StartTransport");
      ("RequestDiversion", "StartTransport"); ("NotifyH1", "DeliverH1");
      ("StartTransport", "DeliverH1"); ("StartTransport", "RerouteH2");
      ("DeliverH1", "Finish"); ("RerouteH2", "Finish") ] ∧
  (λ b, (condition b, branch_actions b)) <$> branches plan
  = [ ("CTAvailable(H2)", ["RerouteH2"]); ("CTOffline(H2)", ["DeliverH1"]) ] ∧
  (∀ a, ¬ tc (before plan) a a) ∧
  (∀ a, ¬ before plan a "Start") ∧
  (∀ b, ¬ before plan "Finish" b) ∧
  dict_get "Start" (actions plan) = Some (mkPOPAction "Start" "Start" ∅ init) ∧
  dict_get "Finish" (actions plan) = Some (mkPOPAction "Finish" "Finish" goals ∅).
Proof.
  intros Hv (d1 & d2 & d3 & d4 & d5 & d6 & d7 & _ & _ & _ & _ & _ & _ & _ & ->)%build_pop_plan_from_Ok.
  pose proof (assemble_orderings_acc3 set_iter init goals d1 d2 d3 d4 d5 d6 d7) as Hacc3.
  pose proof acc3_orderings_ends as Hends. rewrite Forall_forall in Hends.
  split; [by rewrite assemble_actions|].
  split; [apply assemble_orderings|].
  split; [apply assemble_branches|].
  split; [intros a; by apply (plan_acyclic _ Hacc3)|].
  split; [intros a Ha; unfold before in Ha; rewrite Hacc3 in Ha; by destruct (Hends _ Ha)|].
  split; [intros b Hb; unfold before in Hb; rewrite Hacc3 in Hb; by destruct (Hends _ Hb)|].
  rewrite assemble_actions, (list_to_set_set_iter _ _ Hv). done.
Qed.

Lemma pop_plan_skeleton_witness :
  dict_keys (actions acc3_pop_plan)
  = [ "Start"; "Finish"; "DroneRecon"; "PredeployA1"; "NotifyH1";
      "RequestDiversion"; "StartTransport"; "DeliverH1"; "RerouteH2" ] ∧
  orderings acc3_pop_plan
  = [ ("Start", "Finish"); ("Start", "DroneRecon"); ("Start", "PredeployA1");
      ("Start", "NotifyH1"); ("Start", "RequestDiversion");
      ("Start", "StartTransport"); ("Start", "DeliverH1"); ("Start", "RerouteH2");
      ("DroneRecon", "StartTransport"); ("PredeployA1", "StartTransport");
      ("RequestDiversion", "StartTransport"); ("NotifyH1", "DeliverH1");
      ("StartTransport", "DeliverH1"); ("StartTransport", "RerouteH2");
      ("DeliverH1", "Finish"); ("RerouteH2", "Finish") ] ∧
  (λ b, (condition b, branch_actions b)) <$> branches acc3_pop_plan
  = [ ("CTAvailable(H2)", ["RerouteH2"]); ("CTOffline(H2)", ["DeliverH1"]) ] ∧
  (∀ a, ¬ tc (before acc3_pop_plan) a a) ∧
  (∀ a, ¬ before acc3_pop_plan a "Start") ∧
  (∀ b, ¬ before acc3_pop_plan "Finish" b) ∧
  dict_get "Start" (actions acc3_pop_plan)
  = Some (mkPOPAction "Start" "Start" ∅ PlanSpec.acc3_initial_state) ∧
  dict_get "Finish" (actions acc3_pop_plan)
  = Some (mkPOPAction "Finish" "Finish" PlanSpec.acc3_goals ∅).
Proof.
  apply (pop_plan_skeleton iter_sorted PlanSpec.acc3_initial_state
           PlanSpec.acc3_actions PlanSpec.acc3_goals).
  - intros s. reflexivity.
  - apply (bool_decide_unpack _). vm_compute. exact I.
Defined.

(** X18: on every domain, each causal link of the plan built names a
    precondition of its consumer and follows a direct ordering edge from its
    producer, and the links from Start carry initial facts; a consumer is
    never Start or Finish.  (That the proposition is an effect of a producer
    other than Start is not ensured by the builder: it selects those links
    by looking for a substring in the consumer's preconditions.) *)
Theorem pop_causal_links_on_every_domain
    (set_iter : PropSet → list Proposition)
    (init : PropSet) (acts : list PlanningDomain.Action) (goals : PropSet)
    (plan : POPPlan) (producer : string) (p : Proposition) (consumer : string) :
  valid_set_iter set_iter →
  build_pop_plan_from set_iter (init, acts, goals) = Ok plan →
  (producer, p, consumer) ∈ causal_links plan →
  p ∈ preconditions_of plan consumer ∧
  before plan producer consumer ∧
  (producer = "Start" → p ∈ init ∧ p ∈ effects_of plan "Start") ∧
  consumer ≠ "Start" ∧ consumer ≠ "Finish" ∧ producer ≠ "Finish".
Proof.
  intros Hv (d1 & d2 & d3 & d4 & d5 & d6 & d7 & _ & _ & _ & _ & _ & _ & _ & ->)%build_pop_plan_from_Ok.
  unfold preconditions_of, effects_of, before.
  rewrite assemble_actions, assemble_orderings, assemble_links.
  unfold derive_causal_links.
  rewrite !bind_cons, bind_nil, app_nil_r, !elem_of_app.
  rewrite !(links_where_elem_of set_iter _ _ _ _ Hv).
  cbn [id preconditions effects wrap].
  intros Hl.
  repeat (destruct Hl as [Hl|Hl]).
  all: destruct Hl as (q & [= -> -> ->] & Hc & Hq).
  all: cbn [dict_get]; repeat (rewrite decide_False by done);
       rewrite ?decide_True by done; cbn [preconditions effects].
  all: split; [exact Hq|].
  all: split; [by_evaluation|].
  all: split; [|done].
  all: try (intros _; by apply bool_decide_eq_true in Hc).
  all: by intros [=].
Qed.

Lemma pop_causal_links_on_every_domain_witness :
  "ControlRoomOperational" ∈ preconditions_of acc3_pop_plan "DroneRecon" ∧
  before acc3_pop_plan "Start" "DroneRecon" ∧
  ("Start" = "Start" →
   "ControlRoomOperational" ∈ PlanSpec.acc3_initial_state ∧
   "ControlRoomOperational" ∈ effects_of acc3_pop_plan "Start") ∧
  "DroneRecon" ≠ "Start" ∧ "DroneRecon" ≠ "Finish" ∧ "Start" ≠ "Finish".
Proof.
  apply (pop_causal_links_on_every_domain iter_sorted PlanSpec.acc3_initial_state
           PlanSpec.acc3_actions PlanSpec.acc3_goals acc3_pop_plan).
  - intros s. reflexivity.
  - apply (bool_decide_unpack _). vm_compute. exact I.
  - apply (bool_decide_unpack _). vm_compute. exact I.
Defined.

(** X19: on every domain the iteration order of sets changes nothing but
    the order of the causal links: two runs fail alike or return plans with
    the same actions, ordering edges and branches, and causal links that are
    permutations of one another. *)
Theorem pop_plan_order_independent
    (set_iter1 set_iter2 : PropSet → list Proposition)
    (domain : PlanningDomain.Domain) :
  valid_set_iter set_iter1 →
  valid_set_iter set_iter2 →
  match build_pop_plan_from set_iter1 domain, build_pop_plan_from set_iter2 domain with
  | Ok plan1, Ok plan2 =>
      actions plan1 = actions plan2 ∧
      orderings plan1 = orderings plan2 ∧
      branches plan1 = branches plan2 ∧
      causal_links plan1 ≡ₚ causal_links plan2
  | Err e1, Err e2 => e1 = e2
  | _, _ => False
  end.
Proof.
  intros Hv1 Hv2. destruct domain as [[init acts] goals].
  unfold build_pop_plan_from.
  destruct (find_da acts "TriggerDroneRecon") as [d1|]; [|done].
  destruct (find_da acts "PreDeployAmbulanceNearHotspot") as [d2|]; [|done].
  destruct (find_da acts "NotifyHospital") as [d3|]; [|done].
  destruct (find_da acts "RequestTrafficDiversion") as [d4|]; [|done].
  destruct (find_da acts "StartTransportToAccident") as [d5|]; [|done].
  destruct (find_da acts "DeliverPatientToH1") as [d6|]; [|done].
  destruct (find_da acts "RerouteMidJourneyToH2") as [d7|]; [|done].
  rewrite !bind_Ok.
  split; [|split; [|split]].
  - rewrite !assemble_actions.
    by rewrite (list_to_set_set_iter _ _ Hv1), (list_to_set_set_iter _ _ Hv2).
  - by rewrite !assemble_orderings.
  - reflexivity.
  - rewrite !assemble_links.
    etrans; [by apply derive_causal_links_set_iter|].
    symmetry. by apply derive_causal_links_set_iter.
Qed.

Lemma pop_plan_order_independent_witness :
  match build_pop_plan_from iter_sorted
          (PlanSpec.acc3_initial_state, PlanSpec.acc3_actions, PlanSpec.acc3_goals),
        build_pop_plan_from iter_reversed
          (PlanSpec.acc3_initial_state, PlanSpec.acc3_actions, PlanSpec.acc3_goals)
  with
  | Ok plan1, Ok plan2 =>
      actions plan1 = actions plan2 ∧
      orderings plan1 = orderings plan2 ∧
      branches plan1 = branches plan2 ∧
      causal_links plan1 ≡ₚ causal_links plan2
  | Err e1, Err e2 => e1 = e2
  | _, _ => False
  end.
Proof.
  apply (pop_plan_order_independent iter_sorted iter_reversed).
  - intros s. reflexivity.
  - intros s. apply reverse_Permutation.
Defined.

Lemma in_links_where set_iter (cond : Proposition → bool) producer consumer p :
  valid_set_iter set_iter →
  cond p = true →
  p ∈ preconditions consumer →
  (producer, p, id consumer) ∈ links_where set_iter cond producer consumer.
Proof. intros Hv Hc Hp. apply links_where_elem_of; [done|]. by exists p. Qed.

Ltac pick_link :=
  first [ by apply in_links_where | left; pick_link | right; pick_link ].

Lemma derive_causal_links_rules set_iter start a1 a2 a3 a4 a5 a6 a7 p :
  valid_set_iter set_iter →
  (∀ a, a ∈ [a1; a2; a3; a4] → p ∈ preconditions a → p ∈ effects start →
        ("Start", p, id a) ∈ derive_causal_links set_iter start a1 a2 a3 a4 a5 a6 a7) ∧
  (p ∈ preconditions a5 →
   (str_contains "AccidentLocationConfirmed" p = true →
    (id a1, p, id a5) ∈ derive_causal_links set_iter start a1 a2 a3 a4 a5 a6 a7) ∧
   (str_contains "AmbulanceAt" p = true → str_contains "nayapalli_chowk" p = true →
    (id a2, p, id a5) ∈ derive_causal_links set_iter start a1 a2 a3 a4 a5 a6 a7) ∧
   (p = "TrafficDiverted(stadium_corridor)" →
    (id a4, p, id a5) ∈ derive_causal_links set_iter start a1 a2 a3 a4 a5 a6 a7)) ∧
  (p ∈ preconditions a6 →
   (str_contains "HospitalNotified" p = true →
    (id a3, p, id a6) ∈ derive_causal_links set_iter start a1 a2 a3 a4 a5 a6 a7) ∧
   (str_contains "AmbulanceEnRoute" p = true →
    (id a5, p, id a6) ∈ derive_causal_links set_iter start a1 a2 a3 a4 a5 a6 a7)) ∧
  (p ∈ preconditions a7 →
   str_contains "AmbulanceEnRoute" p = true →
   (id a5, p, id a7) ∈ derive_causal_links set_iter start a1 a2 a3 a4 a5 a6 a7).
Proof.
  intros Hv. unfold derive_causal_links.
  rewrite !bind_cons, bind_nil, app_nil_r.
  split; [|split; [|split]].
  - intros a Ha Hp Hs.
    assert (bool_decide (p ∈ effects start) = true) as Hc
      by by apply bool_decide_eq_true.
    repeat (apply elem_of_cons in Ha as [->|Ha]); [..|by apply elem_of_nil in Ha].
    all: rewrite !elem_of_app; pick_link.
  - intros Hp. split; [|split].
    + intros Hc. rewrite !elem_of_app. pick_link.
    + intros Hc1 Hc2.
      assert (str_contains "AmbulanceAt" p && str_contains "nayapalli_chowk" p = true)
        as Hc by by rewrite Hc1, Hc2.
      rewrite !elem_of_app. pick_link.
    + intros ->.
      assert (bool_decide ("TrafficDiverted(stadium_corridor)"
                           = "TrafficDiverted(stadium_corridor)") = true)
        as Hc by done.
      rewrite !elem_of_app. pick_link.
  - intros Hp. split; intros Hc; rewrite !elem_of_app; pick_link.
  - intros Hp Hc. rewrite !elem_of_app. pick_link.
Qed.

Lemma assemble_preconditions_of set_iter init goals d1 d2 d3 d4 d5 d6 d7 :
  let plan := assemble_pop_plan set_iter init goals d1 d2 d3 d4 d5 d6 d7 in
  preconditions_of plan "DroneRecon" = PlanningDomain.preconditions d1 ∧
  preconditions_of plan "PredeployA1" = PlanningDomain.preconditions d2 ∧
  preconditions_of plan "NotifyH1" = PlanningDomain.preconditions d3 ∧
  preconditions_of plan "RequestDiversion" = PlanningDomain.preconditions d4 ∧
  preconditions_of plan "StartTransport" = PlanningDomain.preconditions d5 ∧
  preconditions_of plan "DeliverH1" = PlanningDomain.preconditions d6 ∧
  preconditions_of plan "RerouteH2" = PlanningDomain.preconditions d7.
Proof.
  intros plan. unfold preconditions_of, plan. rewrite assemble_actions.
  repeat split; reflexivity.
Qed.

(** X20: the rules by which causal links are recorded, on every domain.  A
    precondition of one of the four preparatory steps that is an initial fact
    is linked to Start.  A precondition of StartTransport, DeliverH1 or
    RerouteH2 is linked to the producer that the builder associates with a
    piece of text, as soon as the precondition contains that text, whether
    or not the producer has it among its effects. *)
Theorem pop_causal_links_selected_by_text
    (set_iter : PropSet → list Proposition)
    (init : PropSet) (acts : list PlanningDomain.Action) (goals : PropSet)
    (plan : POPPlan) (p : Proposition) :
  valid_set_iter set_iter →
  build_pop_plan_from set_iter (init, acts, goals) = Ok plan →
  (∀ consumer,
     consumer ∈ ["DroneRecon"; "PredeployA1"; "NotifyH1"; "RequestDiversion"] →
     p ∈ preconditions_of plan consumer → p ∈ init →
     ("Start", p, consumer) ∈ causal_links plan) ∧
  (p ∈ preconditions_of plan "StartTransport" →
   (str_contains "AccidentLocationConfirmed" p = true →
    ("DroneRecon", p, "StartTransport") ∈ causal_links plan) ∧
   (str_contains "AmbulanceAt" p = true → str_contains "nayapalli_chowk" p = true →
    ("PredeployA1", p, "StartTransport") ∈ causal_links plan) ∧
   (p = "TrafficDiverted(stadium_corridor)" →
    ("RequestDiversion", p, "StartTransport") ∈ causal_links plan)) ∧
  (p ∈ preconditions_of plan "DeliverH1" →
   (str_contains "HospitalNotified" p = true →
    ("NotifyH1", p, "DeliverH1") ∈ causal_links plan) ∧
   (str_contains "AmbulanceEnRoute" p = true →
    ("StartTransport", p, "DeliverH1") ∈ causal_links plan)) ∧
  (p ∈ preconditions_of plan "RerouteH2" →
   str_contains "AmbulanceEnRoute" p = true →
   ("StartTransport", p, "RerouteH2") ∈ causal_links plan).
Proof.
  intros Hv (d1 & d2 & d3 & d4 & d5 & d6 & d7 & _ & _ & _ & _ & _ & _ & _ & ->)%build_pop_plan_from_Ok.
  destruct (assemble_preconditions_of set_iter init goals d1 d2 d3 d4 d5 d6 d7)
    as (E1 & E2 & E3 & E4 & -> & -> & ->).
  rewrite assemble_links.
  destruct (derive_causal_links_rules set_iter (mkPOPAction "Start" "Start" ∅ init)
              (wrap d1 "DroneRecon") (wrap d2 "PredeployA1") (wrap d3 "NotifyH1")
              (wrap d4 "RequestDiversion") (wrap d5 "StartTransport")
              (wrap d6 "DeliverH1") (wrap d7 "RerouteH2") p Hv)
    as (Hstart & Htransport & Hdeliver & Hreroute).
  split; [|split; [|split]].
  - intros consumer Hc Hp Hinit.
    repeat (apply elem_of_cons in Hc as [->|Hc]); [..|by apply elem_of_nil in Hc].
    + rewrite E1 in Hp.
      apply (Hstart (wrap d1 "DroneRecon")); [left|done..].
    + rewrite E2 in Hp.
      apply (Hstart (wrap d2 "PredeployA1")); [do 1 right; left|done..].
    + rewrite E3 in Hp.
      apply (Hstart (wrap d3 "NotifyH1")); [do 2 right; left|done..].
    + rewrite E4 in Hp.
      apply (Hstart (wrap d4 "RequestDiversion")); [do 3 right; left|done..].
  - exact Htransport.
  - exact Hdeliver.
  - exact Hreroute.
Qed.

(** The domain whose reconnaissance confirms nothing still gets the link
    from DroneRecon. *)
Lemma pop_causal_links_selected_by_text_witness :
  ("DroneRecon", "AccidentLocationConfirmed(ACC3)", "StartTransport")
    ∈ causal_links blind_recon_plan.
Proof.
  apply (pop_causal_links_selected_by_text iter_sorted PlanSpec.acc3_initial_state
           blind_recon_actions PlanSpec.acc3_goals blind_recon_plan
           "AccidentLocationConfirmed(ACC3)").
  - intros s. reflexivity.
  - apply (bool_decide_unpack _). vm_compute. exact I.
  - apply (bool_decide_unpack _). vm_compute. exact I.
  - vm_compute. reflexivity.
Defined.

Lemma blind_recon_link_unjustified :
  "AccidentLocationConfirmed(ACC3)" ∉ effects_of blind_recon_plan "DroneRecon".
Proof. by_evaluation. Qed.

End PopMore.

(** ** What the planners do not read *)

Module ViewMore.
Import PlanningDomain GraphPlan PlanSpec Pipeline.
Import DomainFacts BuildFacts ExtractFacts.

Section View.
Context (f : Action → Action) (Hview : keeps_planning_view f).

Lemma view_name a : name (f a) = name a.
Proof. apply Hview. Qed.
Lemma view_pre a : preconditions (f a) = preconditions a.
Proof. apply Hview. Qed.
Lemma view_add a : add_effects (f a) = add_effects a.
Proof. apply Hview. Qed.

Lemma applicable_actions_view actions props :
  applicable_actions (f <$> actions) props = f <$> applicable_actions actions props.
Proof.
  unfold applicable_actions. induction actions as [|a l IH]; [done|].
  rewrite fmap_cons, !filter_cons, view_pre, IH.
  by case_decide.
Qed.

Lemma next_props_view props l : next_props props (f <$> l) = next_props props l.
Proof.
  unfold next_props. revert props.
  induction l as [|a l IH]; intros props; [done|].
  rewrite fmap_cons. cbn [foldl]. by rewrite view_add, IH.
Qed.

Lemma build_loop_view actions goals remaining :
  ∀ level pl al,
    build_loop (f <$> actions) goals remaining level pl
      ((λ layer : list Action, f <$> layer) <$> al)
    = result_map (λ r, (map_graph f r.1, r.2))
        (build_loop actions goals remaining level pl al).
Proof.
  induction remaining as [|r IH]; intros level pl al; [done|].
  cbn [build_loop]. destruct (index_last pl) as [current|e]; [|done].
  rewrite !bind_Ok. cbv beta zeta.
  rewrite applicable_actions_view, next_props_view.
  case_decide.
  - cbn [result_map]. unfold map_graph. cbn [proposition_layers action_layers fst snd].
    by rewrite fmap_app.
  - rewrite <- IH. by rewrite fmap_app.
Qed.

Lemma find_supporter_view acts g :
  find_supporter (f <$> acts) g = f <$> find_supporter acts g.
Proof.
  unfold find_supporter. induction acts as [|a l IH]; [done|].
  rewrite fmap_cons. cbn [find]. rewrite view_add.
  by destruct (bool_decide (g ∈ add_effects a)).
Qed.

Lemma goal_step_view pl level acts chosen sub g :
  goal_step pl level (f <$> acts) (f <$> chosen, sub) g
  = result_map (λ st, (f <$> st.1, st.2)) (goal_step pl level acts (chosen, sub) g).
Proof.
  unfold goal_step. destruct (index pl (level - 1)) as [props|e]; [|done].
  rewrite !bind_Ok. case_decide; [done|].
  rewrite find_supporter_view.
  destruct (find_supporter acts g) as [a|]; [|done].
  cbn [fmap option_fmap option_map result_map fst snd].
  by rewrite fmap_app, view_pre.
Qed.

Lemma for_each_goal_step_view pl level acts gs :
  ∀ chosen sub,
    for_each (goal_step pl level (f <$> acts)) (f <$> chosen, sub) gs
    = result_map (λ st, (f <$> st.1, st.2))
        (for_each (goal_step pl level acts) (chosen, sub) gs).
Proof.
  induction gs as [|g gs IH]; intros chosen sub; [done|].
  cbn [for_each]. rewrite goal_step_view.
  destruct (goal_step pl level acts (chosen, sub) g) as [[c s]|e]; [|done].
  cbn [result_map fst snd]. rewrite !bind_Ok. apply IH.
Qed.

Lemma level_step_view set_iter pg chosen current_goals level :
  level_step set_iter (map_graph f pg) (f <$> chosen, current_goals) level
  = result_map (λ st, (f <$> st.1, st.2))
      (level_step set_iter pg (chosen, current_goals) level).
Proof.
  unfold level_step, index. cbn [map_graph action_layers proposition_layers].
  rewrite list_lookup_fmap.
  destruct (action_layers pg !! (level - 1)) as [acts|]; [|done].
  cbn [fmap option_fmap option_map]. rewrite !bind_Ok.
  change (f <$> chosen, (∅ : PropSet)) with (f <$> chosen, (∅ : PropSet)).
  rewrite (for_each_goal_step_view _ _ _ _ chosen ∅).
  by destruct (for_each _ _ _) as [[c s]|e].
Qed.

Lemma walk_view set_iter pg levels :
  ∀ chosen current_goals,
    for_each (level_step set_iter (map_graph f pg)) (f <$> chosen, current_goals) levels
    = result_map (λ st, (f <$> st.1, st.2))
        (for_each (level_step set_iter pg) (chosen, current_goals) levels).
Proof.
  induction levels as [|level levels IH]; intros chosen current_goals; [done|].
  cbn [for_each]. rewrite level_step_view.
  destruct (level_step set_iter pg (chosen, current_goals) level) as [[c s]|e]; [|done].
  cbn [result_map fst snd]. rewrite !bind_Ok. apply IH.
Qed.

Lemma dedup_from_view seen l : dedup_from seen (f <$> l) = f <$> dedup_from seen l.
Proof.
  revert seen. induction l as [|a l IH]; intros seen; [done|].
  rewrite fmap_cons. cbn [dedup_from]. rewrite view_name.
  case_decide; [apply IH|]. by rewrite fmap_cons, IH.
Qed.

End View.

(** X21: the planners never read delete effects.  Changing the actions in
    any way that keeps their names, preconditions and add-effects changes
    the graph built and the plan extracted only by that same change of the
    actions they hold: same layers of propositions, same index or same
    error, same sequence of names. *)
Theorem planning_ignores_delete_effects
    (f : Action → Action) (set_iter : PropSet → list Proposition)
    (initial_state : PropSet) (actions : list Action) (goals : PropSet)
    (max_levels : nat) (pg : PlanGraph) (goal_layer_index : nat) :
  keeps_planning_view f →
  build_plan_graph initial_state (f <$> actions) goals max_levels
  = result_map (λ r, (map_graph f r.1, r.2))
      (build_plan_graph initial_state actions goals max_levels) ∧
  extract_linear_plan set_iter (map_graph f pg) goal_layer_index goals
  = result_map (fmap f) (extract_linear_plan set_iter pg goal_layer_index goals).
Proof.
  intros Hview. split.
  - unfold build_plan_graph. apply (build_loop_view f Hview _ _ _ 0 [initial_state] []).
  - unfold extract_linear_plan.
    rewrite (walk_view f Hview set_iter pg _ [] goals).
    destruct (for_each _ _ _) as [[c s]|e]; [|done].
    cbn [result_map fst snd]. rewrite !bind_Ok. cbv beta iota zeta.
    cbn [result_map]. f_equal.
    rewrite !remove_duplicates_eq, <- fmap_reverse.
    by apply dedup_from_view.
Qed.

Lemma planning_ignores_delete_effects_witness :
  build_plan_graph acc3_initial_state (without_deletes <$> acc3_actions) acc3_goals 8
  = result_map (λ r, (map_graph without_deletes r.1, r.2))
      (build_plan_graph acc3_initial_state acc3_actions acc3_goals 8) ∧
  extract_linear_plan iter_sorted
    (map_graph without_deletes (graph_upto acc3_initial_state acc3_actions 3)) 3 acc3_goals
  = result_map (fmap without_deletes)
      (extract_linear_plan iter_sorted
         (graph_upto acc3_initial_state acc3_actions 3) 3 acc3_goals).
Proof.
  apply (planning_ignores_delete_effects without_deletes).
  intros a. split; [reflexivity|]. split; reflexivity.
Defined.

End ViewMore.
